(** * Header store and verifier of electrum/blockchain.py

    A shallow embedding of the header codec, the compact target encoding,
    and the fork-aware chain store of [electrum/blockchain.py], together
    with the properties of these functions that the specification states.

    Python values are modelled as follows: [int] is [Z]; [bytes] is
    [list byte]; [str] is [string]; a header [dict] is a record whose
    fields are optional (an absent key); an exception is a value of [exn]
    carried by the error monad [result]; the chain objects live in a heap
    indexed by addresses, the header files in a finite map from path
    names to contents. *)

From Stdlib Require Import ZArith List String Ascii Bool Lia Sorted.
From Stdlib.Strings Require Import Byte HexString.
From stdpp Require Import base option list strings gmap pretty.
Import ListNotations.

#[local] Open Scope string_scope.
#[local] Open Scope Z_scope.

(** ** Python primitives *)

Module Py.

(** The exceptions raised by the module and by the interpreter.  All of
    them are subclasses of Python's [Exception].  Messages are kept up to
    their constant prefix: the formatted values are left out. *)
Inductive exn : Type :=
| MissingHeader (height : Z)
| InvalidHeader (msg : string)
| Exception (msg : string)
| FileNotFoundError (msg : string)
| KeyError (key : string)
| IndexError
| AssertionError
| AttributeError
| TypeError
| NameError
| ValueError
| OverflowError
| OSError
| RecursionError.

Inductive result (A : Type) : Type :=
| Ok (a : A)
| Err (e : exn).
Arguments Ok {A} a.
Arguments Err {A} e.

Definition bind {A B : Type} (m : result A) (k : A -> result B) : result B :=
  match m with
  | Ok a => k a
  | Err e => Err e
  end.

Definition raises {A : Type} (m : result A) : Prop :=
  exists e, m = Err e.

(** [d[k]] on a dict whose key may be absent. *)
Definition getitem {A : Type} (key : string) (o : option A) : result A :=
  match o with
  | Some a => Ok a
  | None => Err (KeyError key)
  end.

(** [assert b]. *)
Definition py_assert (b : bool) : result unit :=
  if b then Ok tt else Err AssertionError.

(** Slices [l[lo:hi]] with Python's treatment of negative and
    out-of-range bounds. *)
Definition clamp_index (len i : Z) : Z :=
  if i <? 0 then Z.max 0 (i + len) else Z.min i len.

Definition slice {A : Type} (l : list A) (lo hi : Z) : list A :=
  let len := Z.of_nat (length l) in
  let lo' := clamp_index len lo in
  let hi' := clamp_index len hi in
  take (Z.to_nat (hi' - lo')) (drop (Z.to_nat lo') l).

Definition slice_from {A : Type} (l : list A) (lo : Z) : list A :=
  drop (Z.to_nat (clamp_index (Z.of_nat (length l)) lo)) l.

(** [l[i]] with negative indices counted from the end. *)
Definition index {A : Type} (l : list A) (i : Z) : result A :=
  let len := Z.of_nat (length l) in
  let j := if i <? 0 then i + len else i in
  if (j <? 0) || (len <=? j) then Err IndexError
  else match nth_error l (Z.to_nat j) with
       | Some a => Ok a
       | None => Err IndexError
       end.

(** [s[n:]] and [s[:n]] on strings, for a constant [n >= 0]. *)
Fixpoint str_drop (n : nat) (s : string) : string :=
  match n, s with
  | O, _ => s
  | S n', EmptyString => EmptyString
  | S n', String _ s' => str_drop n' s'
  end.

Fixpoint str_take (n : nat) (s : string) : string :=
  match n, s with
  | O, _ => EmptyString
  | S n', EmptyString => EmptyString
  | S n', String a s' => String a (str_take n' s')
  end.

(** [ch * n]. *)
Fixpoint str_repeat (ch : ascii) (n : nat) : string :=
  match n with
  | O => EmptyString
  | S n' => String ch (str_repeat ch n')
  end.

(** [s.lstrip('0')]. *)
Fixpoint lstrip0 (s : string) : string :=
  match s with
  | String a s' => if Ascii.eqb a "0" then lstrip0 s' else s
  | EmptyString => EmptyString
  end.

Definition byte_to_Z (b : byte) : Z := Z.of_N (Byte.to_N b).

Definition byte_of_Z (z : Z) : byte :=
  match Byte.of_N (Z.to_N (z mod 256)) with
  | Some b => b
  | None => x00
  end.

(** [int.from_bytes(b, byteorder='big')] and [byteorder='little']. *)
Definition int_from_bytes_big (b : list byte) : Z :=
  fold_left (fun acc x => acc * 256 + byte_to_Z x) b 0.

Definition int_from_bytes_little (b : list byte) : Z :=
  fold_right (fun x acc => byte_to_Z x + 256 * acc) 0 b.

#[global] Instance byte_eq_decision : EqDecision byte := Byte.byte_eq_dec.

Definition bytes_eqb (a b : list byte) : bool :=
  if decide (a = b) then true else false.

(** *** Hexadecimal text *)

Definition hex_char (v : Z) : ascii :=
  match v with
  | 0 => "0" | 1 => "1" | 2 => "2" | 3 => "3" | 4 => "4" | 5 => "5"
  | 6 => "6" | 7 => "7" | 8 => "8" | 9 => "9" | 10 => "a" | 11 => "b"
  | 12 => "c" | 13 => "d" | 14 => "e" | _ => "f"
  end%char.

(** The hexadecimal digit of weight [16^i] of [n]. *)
Definition nibble (n : Z) (i : nat) : Z :=
  Z.land (Z.shiftr n (4 * Z.of_nat i)) 15.

(** The [w] lowest hexadecimal digits of [n], most significant first. *)
Fixpoint hex_fixed (w : nat) (n : Z) : string :=
  match w with
  | O => EmptyString
  | S w' => String (hex_char (nibble n w')) (hex_fixed w' n)
  end.

(** Number of hexadecimal digits of [n >= 0] without leading zeros (one
    digit for zero). *)
Definition hex_width (n : Z) : nat :=
  if n <=? 0 then 1%nat else Z.to_nat (Z.log2 n / 4 + 1).

(** ["%064x" % n]: lower-case digits, padded with zeros on the left to
    64 characters, the sign of a negative number counting as one. *)
Definition format_064x (n : Z) : string :=
  if n <? 0 then String "-" (hex_fixed (Nat.max 63 (hex_width (- n))) (- n))
  else hex_fixed (Nat.max 64 (hex_width n)) n.

Definition hex_value (a : ascii) : option Z :=
  match HexString.ascii_to_digit a with
  | Some d => Some (Z.of_N d)
  | None => None
  end.

(** Modelled from the spec: [util.bfh] is not among the sources; it is
    [bytes.fromhex], the decoding of hexadecimal text into bytes, which
    raises [ValueError] on anything that is not a sequence of pairs of
    hexadecimal digits. *)
Fixpoint bfh (s : string) : result (list byte) :=
  match s with
  | EmptyString => Ok []
  | String a (String b s') =>
      match hex_value a, hex_value b with
      | Some x, Some y =>
          bind (bfh s') (fun rest => Ok (byte_of_Z (16 * x + y) :: rest))
      | _, _ => Err ValueError
      end
  | String _ EmptyString => Err ValueError
  end.

(** Modelled from the spec: [util.bh2u] is not among the sources; it is
    [bytes.hex], two lower-case digits for each byte. *)
Fixpoint bh2u (b : list byte) : string :=
  match b with
  | [] => EmptyString
  | x :: b' => hex_fixed 2 (byte_to_Z x) +:+ bh2u b'
  end.

End Py.
Export Py.

Declare Scope result_scope.
Delimit Scope result_scope with result.
Notation "x <- m ;; k" := (bind m (fun x => k))
  (at level 100, m at next level, right associativity) : result_scope.
#[local] Open Scope result_scope.

(** ** Compact targets *)

Module Compact.

(** [Blockchain.bits_to_target]. *)
Definition bits_to_target (bits : Z) : result Z :=
  let bitsN := Z.land (Z.shiftr bits 24) 0xff in
  if negb ((0x03 <=? bitsN) && (bitsN <=? 0x20)) then
    Err (Exception "First part of bits should be in [0x03, 0x20]")
  else
    let bitsBase := Z.land bits 0xffffff in
    if negb ((0x8000 <=? bitsBase) && (bitsBase <=? 0x7fffff)) then
      Err (Exception "Second part of bits should be in [0x8000, 0x7fffff]")
    else Ok (Z.shiftl bitsBase (8 * (bitsN - 3))).

(** The loop [while c[:2] == '00' and len(c) > 6: c = c[2:]]; every
    iteration shortens [c], so its length bounds the iterations. *)
Fixpoint strip_zero_pairs (fuel : nat) (c : string) : string :=
  match fuel with
  | O => c
  | S fuel' =>
      if String.eqb (str_take 2 c) "00" && (6 <? String.length c)%nat
      then strip_zero_pairs fuel' (str_drop 2 c)
      else c
  end.

(** [Blockchain.target_to_bits]. *)
Definition target_to_bits (target : Z) : result Z :=
  let c := str_drop 2 (format_064x target) in
  let c := strip_zero_pairs (String.length c) c in
  let bitsN := Z.of_nat (String.length c) / 2 in
  b <- bfh (str_take 6 c) ;;
  let bitsBase := int_from_bytes_big b in
  if 0x800000 <=? bitsBase
  then Ok (Z.lor (Z.shiftl (bitsN + 1) 24) (Z.shiftr bitsBase 8))
  else Ok (Z.lor (Z.shiftl bitsN 24) bitsBase).

End Compact.
Export Compact.

(** ** Collaborators outside the module

    The functions and constants that [blockchain.py] imports from the
    modules [powdata], [difficulty], [crypto], [bitcoin], [util] and
    [constants].  Their code is not part of the sources, so they are
    parameters of the development. *)

(** The data that difficulty retargeting needs of a block
    ([height], [timestamp] and [bits]). *)
Record difficulty_data : Type := mk_difficulty_data {
  dd_height : Z;
  dd_timestamp : Z;
  dd_bits : Z
}.

(** An entry of [constants.net.CHECKPOINTS]; [algo_headers] is keyed by
    the decimal text of the algorithm. *)
Record checkpoint : Type := mk_checkpoint {
  cp_hash : string;
  cp_chainwork : Z;
  cp_algo_headers : gmap string (list difficulty_data)
}.

Class Externals : Type := {
  (** the dict that [powdata.deserialize_base] and [powdata.deserialize]
      return, with its entries ['algo'] and ['bits'] *)
  PowData : Type;
  powdata_algo : PowData -> Z;
  powdata_bits : PowData -> Z;
  (** [powdata.deserialize_base(s, start_position)] *)
  powdata_deserialize_base : list byte -> Z -> result (PowData * Z);
  (** [powdata.deserialize(s, start_position)] *)
  powdata_deserialize : list byte -> Z -> result (PowData * Z);
  (** [powdata.verify(powdata, hash)] *)
  powdata_verify : PowData -> string -> result unit;
  (** [difficulty.get_target(getter, algo, height)] *)
  difficulty_get_target :
    (Z -> Z -> result (option difficulty_data)) -> Z -> option Z -> result Z;
  (** [crypto.sha256d] *)
  sha256d : list byte -> list byte;
  (** [bitcoin.int_to_hex(i, length)] and [bitcoin.rev_hex(s)] *)
  int_to_hex : Z -> Z -> result string;
  rev_hex : string -> result string;
  (** [util.get_headers_dir(config)] *)
  headers_dir : string;
  (** [constants.net] *)
  GENESIS : string;
  TESTNET : bool;
  CHECKPOINTS : list checkpoint;
  max_checkpoint : Z;
  (** the depth at which the interpreter raises [RecursionError] *)
  recursion_limit : nat
}.

(** ** Header codec *)

Module Codec.
Section Codec.
Context `{X : Externals}.

Definition PURE_HEADER_SIZE : Z := 80.
Definition DISK_HEADER_SIZE : Z := PURE_HEADER_SIZE + 5 + 32.

(** A header dict.  A field is [None] when the key is absent;
    ['block_height'] may be present with the value [None]. *)
Record header : Type := mk_header {
  version : option Z;
  prev_block_hash : option string;
  merkle_root : option string;
  timestamp : option Z;
  bits : option Z;
  nonce : option Z;
  block_height : option (option Z);
  powdata : option PowData;
  chainwork : option Z
}.

Definition set_prev_block_hash (v : string) (h : header) : header :=
  {| version := version h; prev_block_hash := Some v;
     merkle_root := merkle_root h; timestamp := timestamp h;
     bits := bits h; nonce := nonce h; block_height := block_height h;
     powdata := powdata h; chainwork := chainwork h |}.

Definition set_powdata (v : PowData) (h : header) : header :=
  {| version := version h; prev_block_hash := prev_block_hash h;
     merkle_root := merkle_root h; timestamp := timestamp h;
     bits := bits h; nonce := nonce h; block_height := block_height h;
     powdata := Some v; chainwork := chainwork h |}.

Definition set_chainwork (v : Z) (h : header) : header :=
  {| version := version h; prev_block_hash := prev_block_hash h;
     merkle_root := merkle_root h; timestamp := timestamp h;
     bits := bits h; nonce := nonce h; block_height := block_height h;
     powdata := powdata h; chainwork := Some v |}.

(** Modelled from the spec: [bitcoin.hash_encode] is not among the
    sources; it reverses the bytes and then hex-encodes them. *)
Definition hash_encode (b : list byte) : string := bh2u (rev b).

(** [serialize_pure_header]. *)
Definition serialize_pure_header (h : header) : result string :=
  v <- getitem "version" (version h) ;;
  s1 <- int_to_hex v 4 ;;
  p <- getitem "prev_block_hash" (prev_block_hash h) ;;
  s2 <- rev_hex p ;;
  m <- getitem "merkle_root" (merkle_root h) ;;
  s3 <- rev_hex m ;;
  t <- getitem "timestamp" (timestamp h) ;;
  s4 <- int_to_hex t 4 ;;
  b <- getitem "bits" (bits h) ;;
  s5 <- int_to_hex b 4 ;;
  n <- getitem "nonce" (nonce h) ;;
  s6 <- int_to_hex n 4 ;;
  Ok (s1 +:+ s2 +:+ s3 +:+ s4 +:+ s5 +:+ s6).

(** [deserialize_pure_header]. *)
Definition deserialize_pure_header (s : list byte) (height : option Z)
  : result header :=
  match s with
  | [] => Err (InvalidHeader "Invalid header")
  | _ =>
    if negb (Z.of_nat (length s) =? PURE_HEADER_SIZE)
    then Err (InvalidHeader "Invalid header length")
    else
      let hex_to_int := int_from_bytes_little in
      Ok {| version := Some (hex_to_int (slice s 0 4));
            prev_block_hash := Some (hash_encode (slice s 4 36));
            merkle_root := Some (hash_encode (slice s 36 68));
            timestamp := Some (hex_to_int (slice s 68 72));
            bits := Some (hex_to_int (slice s 72 76));
            nonce := Some (hex_to_int (slice s 76 80));
            block_height := Some height;
            powdata := None;
            chainwork := None |}
  end.

(** [deserialize_disk_header].  The message of the exception for a short
    chainwork field formats the undefined name [original_len], so what
    is raised there is a [NameError]. *)
Definition deserialize_disk_header (s : list byte) (height : Z)
  : result header :=
  h <- deserialize_pure_header (slice s 0 PURE_HEADER_SIZE) (Some height) ;;
  r <- powdata_deserialize_base s PURE_HEADER_SIZE ;;
  let '(pd, start_position) := r in
  let h := set_powdata pd h in
  let work_bytes := slice s start_position (start_position + 32) in
  if (Z.of_nat (length work_bytes) <? 32) then Err NameError
  else
    let h := set_chainwork (int_from_bytes_big work_bytes) h in
    let start_position := start_position + 32 in
    if negb (start_position =? Z.of_nat (length s))
    then Err (Exception "Invalid header length")
    else Ok h.

(** What [deserialize_full_header] returns: the header alone, or the
    header with the end position when trailing data is expected. *)
Inductive full_header_result : Type :=
| HeaderOnly (h : header)
| HeaderAndEnd (h : header) (end_position : Z).

(** [deserialize_full_header]. *)
Definition deserialize_full_header (s : list byte) (height : option Z)
    (expect_trailing_data : bool) (start_position : Z)
  : result full_header_result :=
  let original_start := start_position in
  let pure_header_bytes :=
    slice s start_position (start_position + PURE_HEADER_SIZE) in
  h <- deserialize_pure_header pure_header_bytes height ;;
  let start_position := start_position + PURE_HEADER_SIZE in
  let height :=
    match height, CHECKPOINTS with
    | Some 0, [] => None
    | _, _ => height
    end in
  r <- match height with
       | Some hh =>
           if hh <=? max_checkpoint
           then powdata_deserialize_base s start_position
           else powdata_deserialize s start_position
       | None => powdata_deserialize s start_position
       end ;;
  let '(pd, start_position) := r in
  let h := set_powdata pd h in
  if expect_trailing_data then Ok (HeaderAndEnd h start_position)
  else if negb (start_position =? Z.of_nat (length s))
       then Err (Exception "Invalid header length")
       else Ok (HeaderOnly h).

(** [hash_raw_header]. *)
Definition hash_raw_header (hdr : string) : result string :=
  b <- bfh hdr ;;
  Ok (hash_encode (sha256d b)).

(** The effect of [hash_header] on the dict it is given: an absent
    ['prev_block_hash'] is filled in. *)
Definition fill_prev_block_hash (h : header) : header :=
  match prev_block_hash h with
  | None => set_prev_block_hash (str_repeat "0" 64) h
  | Some _ => h
  end.

(** [hash_header]; the dict of the caller is afterwards
    [fill_prev_block_hash header]. *)
Definition hash_header (hdr : option header) : result string :=
  match hdr with
  | None => Ok (str_repeat "0" 64)
  | Some h =>
      s <- serialize_pure_header (fill_prev_block_hash h) ;;
      hash_raw_header s
  end.

(** The truth value of an optional string: [None] and [''] are false. *)
Definition truthy (o : option string) : bool :=
  match o with
  | Some s => negb (String.eqb s "")
  | None => false
  end.

(** [Blockchain.verify_header]. *)
Definition verify_header (hdr : header) (prev_hash : string) (target : Z)
    (expected_header_hash : option string) (skip_auxpow : bool)
  : result unit :=
  _hash <- hash_header (Some hdr) ;;
  let hdr := fill_prev_block_hash hdr in
  if truthy expected_header_hash
     && negb (bool_decide (expected_header_hash = Some _hash))
  then Err (Exception "hash mismatches with expected")
  else if negb (bool_decide (Some prev_hash = prev_block_hash hdr))
  then Err (Exception "prev hash mismatch")
  else if negb (bool_decide (bits hdr = Some 0))
  then match bits hdr with
       | Some _ => Err (Exception "main header has non-zero bits")
       | None => Err TypeError
       end
  else if TESTNET then Ok tt
  else
    tbits <- target_to_bits target ;;
    pd <- getitem "powdata" (powdata hdr) ;;
    if negb (tbits =? powdata_bits pd)
    then Err (Exception "bits mismatch")
    else
      match block_height hdr with
      | Some (Some hh) =>
          let skip_auxpow := if hh <=? max_checkpoint then true else skip_auxpow in
          if negb skip_auxpow
          then pd <- getitem "powdata" (powdata hdr) ;; powdata_verify pd _hash
          else Ok tt
      | _ => Err TypeError
      end.

End Codec.
End Codec.
Export Codec.

(** ** The chain store *)

Module Store.
Section Store.
Context `{X : Externals}.

(** Chain objects are referred to by their address in the heap. *)
Definition addr : Type := nat.

(** The attributes of a [Blockchain] object. *)
Record chain : Type := mk_chain {
  forkpoint : Z;
  parent : option addr;
  _forkpoint_hash : string;
  _prev_hash : option string;
  _size : Z
}.

(** The mutable world: the chain objects, the files below the headers
    directory, whether that directory exists, and the global dict
    [blockchains] in insertion order. *)
Record state : Type := mk_state {
  heap : addr -> chain;
  files : gmap string (list byte);
  dir_exists : bool;
  blockchains : list (string * addr)
}.

Definition set_heap (hp : addr -> chain) (st : state) : state :=
  {| heap := hp; files := files st; dir_exists := dir_exists st;
     blockchains := blockchains st |}.

Definition set_files (fs : gmap string (list byte)) (st : state) : state :=
  {| heap := heap st; files := fs; dir_exists := dir_exists st;
     blockchains := blockchains st |}.

Definition set_blockchains (bc : list (string * addr)) (st : state) : state :=
  {| heap := heap st; files := files st; dir_exists := dir_exists st;
     blockchains := bc |}.

(** Assignment to an attribute of the object at [a]. *)
Definition update (a : addr) (f : chain -> chain) (st : state) : state :=
  set_heap (fun b => if Nat.eqb b a then f (heap st a) else heap st b) st.

Definition with_parent (p : option addr) (c : chain) : chain :=
  {| forkpoint := forkpoint c; parent := p;
     _forkpoint_hash := _forkpoint_hash c; _prev_hash := _prev_hash c;
     _size := _size c |}.

Definition with_forkpoint (f : Z) (c : chain) : chain :=
  {| forkpoint := f; parent := parent c;
     _forkpoint_hash := _forkpoint_hash c; _prev_hash := _prev_hash c;
     _size := _size c |}.

Definition with_forkpoint_hash (s : string) (c : chain) : chain :=
  {| forkpoint := forkpoint c; parent := parent c;
     _forkpoint_hash := s; _prev_hash := _prev_hash c;
     _size := _size c |}.

Definition with_prev_hash (s : option string) (c : chain) : chain :=
  {| forkpoint := forkpoint c; parent := parent c;
     _forkpoint_hash := _forkpoint_hash c; _prev_hash := s;
     _size := _size c |}.

Definition with_size (n : Z) (c : chain) : chain :=
  {| forkpoint := forkpoint c; parent := parent c;
     _forkpoint_hash := _forkpoint_hash c; _prev_hash := _prev_hash c;
     _size := n |}.

(** *** Dict operations on [blockchains] *)

Fixpoint dict_get (k : string) (d : list (string * addr)) : option addr :=
  match d with
  | [] => None
  | (k', v) :: d' => if String.eqb k' k then Some v else dict_get k d'
  end.

(** [d.pop(k, None)]. *)
Fixpoint dict_pop (k : string) (d : list (string * addr)) : list (string * addr) :=
  match d with
  | [] => []
  | (k', v) :: d' => if String.eqb k' k then d' else (k', v) :: dict_pop k d'
  end.

(** [d[k] = v]: an existing key keeps its place. *)
Fixpoint dict_set (k : string) (v : addr) (d : list (string * addr))
  : list (string * addr) :=
  match d with
  | [] => [(k, v)]
  | (k', v') :: d' =>
      if String.eqb k' k then (k, v) :: d' else (k', v') :: dict_set k v d'
  end.

(** *** Files *)

Fixpoint ends_with_slash (s : string) : bool :=
  match s with
  | EmptyString => false
  | String a EmptyString => Ascii.eqb a "/"
  | String _ s' => ends_with_slash s'
  end.

(** [os.path.join(a, b)] on a POSIX system. *)
Definition path_join (a b : string) : string :=
  match b with
  | String "/" _ => b
  | _ => if String.eqb a "" || ends_with_slash a then a +:+ b
         else a +:+ "/" +:+ b
  end.

(** [f.seek(offset); f.truncate()]: the file is cut at [offset], or
    extended with zero bytes up to it. *)
Definition file_truncate (content : list byte) (offset : Z) : list byte :=
  let n := Z.to_nat offset in
  take n content ++ replicate (n - length content) x00.

(** [f.seek(offset); f.write(data)]: writing nothing leaves the file as
    it is; a write beyond the end fills the gap with zero bytes. *)
Definition file_write_at (content : list byte) (offset : Z) (data : list byte)
  : list byte :=
  match data with
  | [] => content
  | _ => file_truncate content offset ++ data
         ++ drop (Z.to_nat offset + length data) content
  end.

(** The [n] bytes of a file from [offset] on, or those that are left. *)
Definition file_slice (content : list byte) (offset n : Z) : list byte :=
  take (Z.to_nat n) (drop (Z.to_nat offset) content).

(** [f.seek(offset); f.read(n)] on a file opened with mode ['rb']: a
    seek to a negative offset raises [OSError], a length below -1 raises
    [ValueError], and the length -1 reads up to the end. *)
Definition file_read_at (content : list byte) (offset n : Z)
  : result (list byte) :=
  if offset <? 0 then Err OSError
  else if n <? -1 then Err ValueError
  else if n <? 0 then Ok (drop (Z.to_nat offset) content)
  else Ok (file_slice content offset n).

(** *** Reading *)

(** [Blockchain.path]. *)
Definition path (st : state) (self : addr) : result string :=
  let c := heap st self in
  let d := headers_dir in
  match parent c with
  | None => Ok (path_join d "blockchain_headers")
  | Some _ =>
      _ <- py_assert (0 <? forkpoint c) ;;
      match _prev_hash c with
      | None => Err AttributeError
      | Some ph =>
          let prev_hash := lstrip0 ph in
          let first_hash := lstrip0 (_forkpoint_hash c) in
          let basename :=
            "fork2_" +:+ pretty (forkpoint c) +:+ "_" +:+ prev_hash
                     +:+ "_" +:+ first_hash in
          Ok (path_join d (path_join "forks" basename))
      end
  end.

(** [Blockchain.size] and [Blockchain.height]. *)
Definition size (st : state) (self : addr) : Z := _size (heap st self).

Definition height (st : state) (self : addr) : Z :=
  forkpoint (heap st self) + size st self - 1.

(** [Blockchain.update_size]. *)
Definition update_size (st : state) (self : addr) : result state :=
  p <- path st self ;;
  let n := match files st !! p with
           | Some content => Z.of_nat (length content) / DISK_HEADER_SIZE
           | None => 0
           end in
  Ok (update self (with_size n) st).

(** [Blockchain.assert_headers_file_available]. *)
Definition assert_headers_file_available (st : state) (p : string)
  : result unit :=
  match files st !! p with
  | Some _ => Ok tt
  | None =>
      if negb (dir_exists st)
      then Err (FileNotFoundError "Electrum-CHI headers_dir does not exist. Was it deleted while running?")
      else Err (FileNotFoundError "Cannot find headers file but headers_dir is there.")
  end.

(** [open(p, mode)] of a file that has to exist. *)
Definition open_file (st : state) (p : string) : result (list byte) :=
  match files st !! p with
  | Some content => Ok content
  | None => Err (FileNotFoundError "No such file or directory")
  end.

(** [Blockchain.read_header].  [depth] is the number of nested calls
    that the interpreter still allows. *)
Fixpoint read_header_rec (depth : nat) (st : state) (self : addr) (hgt : Z)
  : result (option header) :=
  let c := heap st self in
  if hgt <? 0 then Ok None
  else if hgt <? forkpoint c then
    match parent c with
    | None => Err AttributeError
    | Some p =>
        match depth with
        | O => Err RecursionError
        | S depth' => read_header_rec depth' st p hgt
        end
    end
  else if height st self <? hgt then Ok None
  else
    let delta := hgt - forkpoint c in
    name <- path st self ;;
    _ <- assert_headers_file_available st name ;;
    content <- open_file st name ;;
    h <- file_read_at content (delta * DISK_HEADER_SIZE) DISK_HEADER_SIZE ;;
    if Z.of_nat (length h) <? DISK_HEADER_SIZE
    then Err (Exception "Expected to read a full header.")
    else if bytes_eqb h (replicate (Z.to_nat DISK_HEADER_SIZE) x00)
    then Ok None
    else hd <- deserialize_disk_header h hgt ;; Ok (Some hd).

Definition read_header (st : state) (self : addr) (hgt : Z)
  : result (option header) :=
  read_header_rec recursion_limit st self hgt.

(** [Blockchain.get_hash]. *)
Definition is_height_checkpoint (hgt : Z) : bool :=
  let within_cp_range := hgt <=? max_checkpoint in
  let at_chunk_boundary := (hgt + 1) mod 2016 =? 0 in
  within_cp_range && at_chunk_boundary.

Definition get_hash (st : state) (self : addr) (hgt : Z) : result string :=
  if hgt =? -1 then
    Ok "0000000000000000000000000000000000000000000000000000000000000000"
  else if hgt =? 0 then Ok GENESIS
  else if is_height_checkpoint hgt then
    let index := hgt / 2016 in
    d <- Py.index CHECKPOINTS index ;;
    Ok (cp_hash d)
  else
    hd <- read_header st self hgt ;;
    match hd with
    | None => Err (MissingHeader hgt)
    | Some _ => hash_header hd
    end.

(** [Blockchain.get_chainwork]; [None] is the default argument. *)
Definition get_chainwork (st : state) (self : addr) (hgt : option Z)
  : result Z :=
  let hgt := match hgt with
             | None => Z.max 0 (height st self)
             | Some h => h
             end in
  if hgt =? -1 then Ok 0
  else
    hd <- read_header st self hgt ;;
    match hd with
    | Some h => getitem "chainwork" (chainwork h)
    | None =>
        let fallback := Err (MissingHeader hgt) in
        if hgt <=? max_checkpoint then
          let index := hgt / 2016 in
          if hgt =? (index + 1) * 2016 - 1
          then d <- Py.index CHECKPOINTS index ;; Ok (cp_chainwork d)
          else fallback
        else fallback
    end.

(** [Blockchain.check_hash]; every exception of [get_hash] is caught by
    [except Exception]. *)
Definition check_hash (st : state) (self : addr) (hgt : Z)
    (header_hash : string) : result bool :=
  _ <- py_assert (String.length header_hash =? 64)%nat ;;
  match get_hash st self hgt with
  | Ok h => Ok (String.eqb header_hash h)
  | Err _ => Ok false
  end.

(** *** Difficulty adapter *)

(** One pass through the checkpoint's headers of an algorithm, by
    decreasing height: the first one at or below [h]. *)
Fixpoint first_at_or_below (h : Z) (hdrs : list difficulty_data)
  : option difficulty_data :=
  match hdrs with
  | [] => None
  | hdr :: hdrs' =>
      if dd_height hdr <=? h then Some hdr else first_at_or_below h hdrs'
  end.

(** [Blockchain.difficulty_data_for_block].  The loop either leaves or
    decrements [h], and leaves when [h < 0]: [fuel] bounds its
    iterations and is never used up when it is at least [h + 1]. *)
Fixpoint difficulty_data_loop (fuel : nat) (st : state) (self : addr)
    (extra_blocks : gmap Z header) (algo h : Z)
  : result (option difficulty_data) :=
  if h <? 0 then Ok None
  else
    match fuel with
    | O => Ok None
    | S fuel' =>
        hd <- match extra_blocks !! h with
              | Some e => Ok (Some e)
              | None => read_header st self h
              end ;;
        match hd with
        | Some e =>
            pd <- getitem "powdata" (powdata e) ;;
            if powdata_algo pd =? algo then
              ts <- getitem "timestamp" (timestamp e) ;;
              pd' <- getitem "powdata" (powdata e) ;;
              Ok (Some {| dd_height := h; dd_timestamp := ts;
                          dd_bits := powdata_bits pd' |})
            else difficulty_data_loop fuel' st self extra_blocks algo (h - 1)
        | None =>
            if max_checkpoint <? h then Err (MissingHeader h)
            else
              cp_data <- Py.index CHECKPOINTS (h / 2016) ;;
              algo_headers <-
                getitem (pretty algo) (cp_algo_headers cp_data !! pretty algo) ;;
              match first_at_or_below h (rev algo_headers) with
              | Some hdr => Ok (Some hdr)
              | None => Err (MissingHeader h)
              end
        end
    end.

Definition difficulty_data_for_block (st : state) (self : addr) (algo h : Z)
    (extra_blocks : gmap Z header) : result (option difficulty_data) :=
  difficulty_data_loop (Z.to_nat (h + 1)) st self extra_blocks algo h.

(** [Blockchain.get_expected_target]. *)
Definition get_expected_target (st : state) (self : addr) (hdr : header)
    (extra_blocks : gmap Z header) : result Z :=
  if TESTNET then Ok 0
  else
    let getter := fun algo h =>
      difficulty_data_for_block st self algo h extra_blocks in
    pd <- getitem "powdata" (powdata hdr) ;;
    hh <- getitem "block_height" (block_height hdr) ;;
    difficulty_get_target getter (powdata_algo pd) hh.

(** *** Connecting a header *)

(** [Blockchain.can_connect].  The bare [except] and
    [except BaseException] catch every exception; [except MissingHeader]
    catches that one only. *)
Definition can_connect (st : state) (self : addr) (hdr : option header)
    (check_height skip_auxpow : bool) : result bool :=
  match hdr with
  | None => Ok false
  | Some hd =>
      hh <- getitem "block_height" (block_height hd) ;;
      mismatch <-
        (if check_height then
           match hh with
           | Some h => Ok (negb (height st self =? h - 1))
           | None => Err TypeError
           end
         else Ok false) ;;
      if (mismatch : bool) then Ok false
      else if bool_decide (hh = Some 0) then
        _hash <- hash_header (Some hd) ;;
        Ok (String.eqb _hash GENESIS)
      else
        match (match hh with
               | Some h => get_hash st self (h - 1)
               | None => Err TypeError
               end) with
        | Err _ => Ok false
        | Ok prev_hash =>
            if negb (bool_decide (Some prev_hash = prev_block_hash hd))
            then Ok false
            else
              match get_expected_target st self hd ∅ with
              | Err (MissingHeader _) => Ok false
              | Err e => Err e
              | Ok target =>
                  match verify_header hd prev_hash target None skip_auxpow with
                  | Err _ => Ok false
                  | Ok _ => Ok true
                  end
              end
        end
  end.

(** *** Writing *)

(** [Blockchain.write].  A seek to a negative offset raises. *)
Definition write (st : state) (self : addr) (data : list byte) (offset : Z)
    (truncate : bool) : result state :=
  filename <- path st self ;;
  _ <- assert_headers_file_available st filename ;;
  content <- open_file st filename ;;
  if offset <? 0 then Err OSError
  else
    let content :=
      if truncate && negb (offset =? _size (heap st self) * DISK_HEADER_SIZE)
      then file_truncate content offset
      else content in
    let content := file_write_at content offset data in
    update_size (set_files (<[filename := content]> (files st)) st) self.

(** [Blockchain.get_id] and [Blockchain.get_direct_children]. *)
Definition get_id (st : state) (self : addr) : string :=
  _forkpoint_hash (heap st self).

Definition get_direct_children (st : state) (self : addr) : list addr :=
  filter (fun y => parent (heap st y) = Some self) (map snd (blockchains st)).

(** [os.replace(src, dst)]. *)
Definition os_replace (st : state) (src dst : string) : result state :=
  content <- open_file st src ;;
  Ok (set_files (<[dst := content]> (delete src (files st))) st).

(** The tuple assignments of [_swap_with_parent] that exchange the
    parents and the forkpoints of [self] and [parent_]; in each of them
    both right-hand sides are read before anything is assigned. *)
Definition swap_parents (self parent_ : addr) (st : state) : state :=
  let v1 := parent (heap st parent_) in
  let st := update self (with_parent v1) st in
  update parent_ (with_parent (Some self)) st.

Definition swap_forkpoints (self parent_ : addr) (st : state) : state :=
  let v1 := forkpoint (heap st parent_) in
  let v2 := forkpoint (heap st self) in
  let st := update self (with_forkpoint v1) st in
  update parent_ (with_forkpoint v2) st.

(** The same for the forkpoint hashes, where [parent_] receives
    [first_hash], and for the previous hashes. *)
Definition swap_forkpoint_hashes (self parent_ : addr) (first_hash : string)
    (st : state) : state :=
  let v1 := _forkpoint_hash (heap st parent_) in
  let st := update self (with_forkpoint_hash v1) st in
  update parent_ (with_forkpoint_hash first_hash) st.

Definition swap_prev_hashes (self parent_ : addr) (st : state) : state :=
  let v1 := _prev_hash (heap st parent_) in
  let v2 := _prev_hash (heap st self) in
  let st := update self (with_prev_hash v1) st in
  update parent_ (with_prev_hash v2) st.

(** The update of [blockchains] at the end of [_swap_with_parent]. *)
Definition update_pointers (self parent_ : addr)
    (child_old_id parent_old_id : string) (st : state) : state :=
  let st := set_blockchains (dict_pop child_old_id (blockchains st)) st in
  let st := set_blockchains (dict_pop parent_old_id (blockchains st)) st in
  let st := set_blockchains
              (dict_set (get_id st self) self (blockchains st)) st in
  set_blockchains (dict_set (get_id st parent_) parent_ (blockchains st)) st.

(** The body of [_swap_with_parent] after the two guards. *)
Definition swap_files_and_parameters (st : state) (self parent_ : addr)
  : result (bool * state) :=
  let parent_branch_size :=
    height st parent_ - forkpoint (heap st self) + 1 in
  let forkpoint_ := forkpoint (heap st self) in
  let child_old_id := get_id st self in
  let parent_old_id := get_id st parent_ in
  (* swap files *)
  p <- path st self ;;
  _ <- assert_headers_file_available st p ;;
  child_old_name <- path st self ;;
  p <- path st self ;;
  my_data <- open_file st p ;;
  p <- path st parent_ ;;
  _ <- assert_headers_file_available st p ;;
  _ <- py_assert (forkpoint (heap st parent_) <? forkpoint_) ;;
  p <- path st parent_ ;;
  content <- open_file st p ;;
  parent_data <-
    file_read_at content
      ((forkpoint_ - forkpoint (heap st parent_)) * DISK_HEADER_SIZE)
      (parent_branch_size * DISK_HEADER_SIZE) ;;
  st <- write st self parent_data 0 true ;;
  st <- write st parent_ my_data
          ((forkpoint_ - forkpoint (heap st parent_)) * DISK_HEADER_SIZE)
          true ;;
  (* swap parameters *)
  let st := swap_parents self parent_ st in
  let st := swap_forkpoints self parent_ st in
  first_hash <-
    hash_raw_header (bh2u (slice parent_data 0 PURE_HEADER_SIZE)) ;;
  let st := swap_forkpoint_hashes self parent_ first_hash st in
  let st := swap_prev_hashes self parent_ st in
  (* parent's new name *)
  p <- path st parent_ ;;
  st <- os_replace st child_old_name p ;;
  st <- update_size st self ;;
  st <- update_size st parent_ ;;
  (* update pointers *)
  Ok (true, update_pointers self parent_ child_old_id parent_old_id st).

(** [Blockchain._swap_with_parent]. *)
Definition _swap_with_parent (st : state) (self : addr)
  : result (bool * state) :=
  match parent (heap st self) with
  | None => Ok (false, st)
  | Some parent_ =>
      pw <- get_chainwork st parent_ None ;;
      sw <- get_chainwork st self None ;;
      if sw <=? pw then Ok (false, st)
      else swap_files_and_parameters st self parent_
  end.

(** The loop over the former siblings in [swap_with_parent]. *)
Fixpoint reparent_siblings (st : state) (self : addr) (siblings : list addr)
  : result state :=
  match siblings with
  | [] => Ok st
  | old_sibling :: rest =>
      let c := heap st old_sibling in
      matches <-
        match _prev_hash c with
        | Some ph => check_hash st self (forkpoint c - 1) ph
        | None => Err AssertionError
        end ;;
      let st := if (matches : bool)
                then update old_sibling (with_parent (Some self)) st
                else st in
      reparent_siblings st self rest
  end.

(** The loop of [Blockchain.swap_with_parent].  A swap needs a positive
    forkpoint and lowers it, so the forkpoint of [self] bounds the
    number of swaps: [fuel] is never used up when it is at least that. *)
Fixpoint swap_loop (fuel : nat) (st : state) (self : addr) (cnt : Z)
  : result state :=
  let old_parent := parent (heap st self) in
  r <- _swap_with_parent st self ;;
  let '(swapped, st) := r in
  if negb swapped then Ok st
  else
    let cnt := cnt + 1 in
    if Z.of_nat (length (blockchains st)) <? cnt
    then Err (Exception "swapping fork with parent too many times")
    else
      match old_parent with
      | None => Err AttributeError
      | Some op =>
          st <- reparent_siblings st self (get_direct_children st op) ;;
          match fuel with
          | O => Err RecursionError
          | S fuel' => swap_loop fuel' st self cnt
          end
      end.

Definition swap_with_parent (st : state) (self : addr) : result state :=
  swap_loop (Z.to_nat (forkpoint (heap st self))) st self 0.

(** [get_best_chain]. *)
Definition get_best_chain (st : state) : result addr :=
  getitem GENESIS (dict_get GENESIS (blockchains st)).

(** [Blockchain.save_chunk]; [depth] as in [read_header_rec]. *)
Fixpoint save_chunk_rec (depth : nat) (st : state) (self : addr) (index : Z)
    (chunk : list byte) : result state :=
  _ <- py_assert (0 <=? index) ;;
  let chunk_within_checkpoint_region :=
    index <? Z.of_nat (length CHECKPOINTS) in
  if chunk_within_checkpoint_region
     && bool_decide (parent (heap st self) <> None)
  then
    main_chain <- get_best_chain st ;;
    match depth with
    | O => Err RecursionError
    | S depth' => save_chunk_rec depth' st main_chain index chunk
    end
  else
    let delta_height := index * 2016 - forkpoint (heap st self) in
    let delta_bytes := delta_height * DISK_HEADER_SIZE in
    let '(chunk, delta_bytes) :=
      if delta_bytes <? 0 then (slice_from chunk (- delta_bytes), 0)
      else (chunk, delta_bytes) in
    let truncate := negb chunk_within_checkpoint_region in
    st <- write st self chunk delta_bytes truncate ;;
    swap_with_parent st self.

Definition save_chunk (st : state) (self : addr) (index : Z)
    (chunk : list byte) : result state :=
  save_chunk_rec recursion_limit st self index chunk.

End Store.
End Store.
Export Store.

(** ** A concrete network

    An instance of the collaborators on which the functions can be run:
    powdata of five bytes (algorithm and bits) in base form, followed by
    an 80-byte parent header in full form; a stand-in for the hash
    function; the other encoders as in [bitcoin.py]. *)

Module Sample.

Record sample_powdata : Type := mk_sample_powdata {
  sp_algo : Z;
  sp_bits : Z;
  sp_auxpow : option (list byte)
}.

Definition sample_deserialize_base (s : list byte) (start : Z)
  : result (sample_powdata * Z) :=
  let b := slice s start (start + 5) in
  if Z.of_nat (length b) <? 5 then Err (Exception "powdata too short")
  else Ok ({| sp_algo := int_from_bytes_little (take 1 b);
              sp_bits := int_from_bytes_little (drop 1 b);
              sp_auxpow := None |}, start + 5).

Definition sample_deserialize (s : list byte) (start : Z)
  : result (sample_powdata * Z) :=
  r <- sample_deserialize_base s start ;;
  let '(pd, pos) := r in
  let aux := slice s pos (pos + 80) in
  if Z.of_nat (length aux) <? 80 then Err (Exception "auxpow too short")
  else Ok ({| sp_algo := sp_algo pd; sp_bits := sp_bits pd;
              sp_auxpow := Some aux |}, pos + 80).

Definition sample_rev_hex (s : string) : result string :=
  b <- bfh s ;; Ok (bh2u (rev b)).

Definition sample_int_to_hex (i len : Z) : result string :=
  let range_size := 256 ^ len in
  if (i <? - (range_size / 2)) || (range_size <=? i) then Err OverflowError
  else
    let i := if i <? 0 then range_size + i else i in
    sample_rev_hex (hex_fixed (Z.to_nat (2 * len)) i).

Definition sample_sha256d (b : list byte) : list byte :=
  take 32 (rev b ++ replicate 32 x00).

Definition sample_get_target
    (getter : Z -> Z -> result (option difficulty_data))
    (algo : Z) (hgt : option Z) : result Z :=
  match hgt with
  | None => Err TypeError
  | Some h =>
      d <- getter algo (h - 1) ;;
      match d with
      | Some dd => bits_to_target (dd_bits dd)
      | None => Ok 0x7fffff0000000000000000000000000000000000000000000000000000000000
      end
  end.

Definition zeros64 : string :=
  "0000000000000000000000000000000000000000000000000000000000000000".

(** The network with the given checkpoints. *)
Definition net (testnet : bool) (cps : list checkpoint) (max_cp : Z)
  : Externals :=
  {| PowData := sample_powdata;
     powdata_algo := sp_algo;
     powdata_bits := sp_bits;
     powdata_deserialize_base := sample_deserialize_base;
     powdata_deserialize := sample_deserialize;
     powdata_verify := fun _ _ => Ok tt;
     difficulty_get_target := sample_get_target;
     sha256d := sample_sha256d;
     int_to_hex := sample_int_to_hex;
     rev_hex := sample_rev_hex;
     headers_dir := "headers";
     GENESIS := zeros64;
     TESTNET := testnet;
     CHECKPOINTS := cps;
     max_checkpoint := max_cp;
     recursion_limit := 1000 |}.

(** A disk record: a pure header of zero bytes except for its nonce,
    powdata with algorithm 1 and the given bits, and the chainwork. *)
Definition be32 (n : Z) : list byte :=
  map (fun i => byte_of_Z (Z.shiftr n (8 * Z.of_nat i))) (rev (seq 0 32)).

Definition record (nonce_byte : byte) (bits_le : list byte) (work : Z)
  : list byte :=
  replicate 76 x00 ++ [nonce_byte; x00; x00; x00]
  ++ [x01] ++ bits_le ++ be32 work.

Definition rec (n : byte) (work : Z) : list byte :=
  record n [xff; xff; x00; x1d] work.

(** Two chains: the best chain at address 0 with the headers 0 and 1,
    and a fork at address 1 from height 1 with the headers 1 and 2,
    which has more work. *)
Definition main_path : string := "headers/blockchain_headers".
Definition fork_path : string := "headers/forks/fork2_1_ab_cd".
Definition id_cd : string := str_repeat "0" 62 +:+ "cd".
Definition id_ab : string := str_repeat "0" 62 +:+ "ab".

Definition best : chain :=
  {| forkpoint := 0; parent := None; _forkpoint_hash := zeros64;
     _prev_hash := None; _size := 2 |}.

Definition fork1 : chain :=
  {| forkpoint := 1; parent := Some 0%nat;
     _forkpoint_hash := id_cd; _prev_hash := Some id_ab; _size := 2 |}.

Definition two_chains : state :=
  {| heap := fun a => match a with 1%nat => fork1 | _ => best end;
     files := <[fork_path := (rec x03 5 ++ rec x04 9)%list]>
                (<[main_path := (rec x01 1 ++ rec x02 2)%list]> ∅);
     dir_exists := true;
     blockchains := [(zeros64, 0%nat); (id_cd, 1%nat)] |}.

(** An empty best chain: a file without records. *)
Definition empty_best : state :=
  {| heap := fun _ => {| forkpoint := 0; parent := None;
                         _forkpoint_hash := zeros64; _prev_hash := None;
                         _size := 0 |};
     files := <[main_path := []]> ∅;
     dir_exists := true;
     blockchains := [(zeros64, 0%nat)] |}.

(** The networks used below: without checkpoints, with and without the
    testnet flag, and with one checkpoint. *)
Definition regtest : Externals := net false [] (-1).
Definition testnet : Externals := net true [] (-1).

Definition checkpoint_ab : checkpoint :=
  {| cp_hash := id_ab; cp_chainwork := 7; cp_algo_headers := ∅ |}.

Definition checkpointed : Externals := net false [checkpoint_ab] 2015.

(** A header at height 1 on top of the genesis block, with the given
    bits in its pure part and without powdata. *)
Definition header_at_1 {X : Externals} (b : Z) : header :=
  {| version := Some 1; prev_block_hash := Some zeros64;
     merkle_root := Some zeros64; timestamp := Some 0; bits := Some b;
     nonce := Some 0; block_height := Some (Some 1);
     powdata := None; chainwork := None |}.

(** The header that [deserialize_pure_header] makes of 80 zero bytes at
    height 1. *)
Definition pure_header_at_1 {X : Externals} : header :=
  {| version := Some 0; prev_block_hash := Some zeros64;
     merkle_root := Some zeros64; timestamp := Some 0; bits := Some 0;
     nonce := Some 0; block_height := Some (Some 1);
     powdata := None; chainwork := None |}.

End Sample.

(** ** Further methods of [Blockchain] *)

Module Blockchain.
Section Blockchain.
Context `{X : Externals}.

(** [difficulty.algo_log2_weight(algo)], of the module [difficulty], and
    [powdata.serialize_base(pd)], of the module [powdata]. *)
Variable algo_log2_weight : Z -> result Z.
Variable powdata_serialize_base : PowData -> result string.

(** [serialize_disk_header]. *)
Definition serialize_disk_header (hd : header) : result string :=
  s <- serialize_pure_header hd ;;
  pd <- getitem "powdata" (powdata hd) ;;
  sb <- powdata_serialize_base pd ;;
  cw <- getitem "chainwork" (chainwork hd) ;;
  Ok (s +:+ sb +:+ format_064x cw).

(** [Blockchain.chainwork_of_header]; [<<] raises [ValueError] on a
    negative shift count. *)
Definition chainwork_of_header (hdr : header) : result Z :=
  pd <- getitem "powdata" (powdata hdr) ;;
  target <- bits_to_target (powdata_bits pd) ;;
  let work := (2 ^ 256 - target - 1) / (target + 1) + 1 in
  pd <- getitem "powdata" (powdata hdr) ;;
  w <- algo_log2_weight (powdata_algo pd) ;;
  if w <? 0 then Err ValueError else Ok (Z.shiftl work w).

(** [Blockchain.check_header].  With the height [None], [get_hash]
    raises [TypeError], which [check_hash] catches after its assertion. *)
Definition check_header (st : state) (self : addr) (hd : header)
  : result bool :=
  header_hash <- hash_header (Some hd) ;;
  match block_height hd with
  | Some (Some h) => check_hash st self h header_hash
  | _ =>
      _ <- py_assert (String.length header_hash =? 64)%nat ;;
      Ok false
  end.

(** [max(l)] of a list that is not empty. *)
Fixpoint list_max_Z (x : Z) (l : list Z) : Z :=
  match l with
  | [] => x
  | y :: l' => list_max_Z (Z.max x y) l'
  end.

(** [Blockchain.get_max_child]. *)
Definition get_max_child (st : state) (self : addr) : option Z :=
  let children := get_direct_children st self in
  match map (fun x => forkpoint (heap st x)) children with
  | [] => None
  | f :: fs => Some (list_max_Z f fs)
  end.

(** [Blockchain.get_max_forkpoint]. *)
Definition get_max_forkpoint (st : state) (self : addr) : Z :=
  match get_max_child st self with
  | Some mc => mc
  | None => forkpoint (heap st self)
  end.

(** [Blockchain.get_branch_size]. *)
Definition get_branch_size (st : state) (self : addr) : Z :=
  height st self - get_max_forkpoint st self + 1.

(** [Blockchain.save_header].  Without a height, [height - 1] raises
    [TypeError]. *)
Definition save_header (st : state) (self : addr) (hd : header)
  : result state :=
  match block_height hd with
  | Some (Some h) =>
      prev_work <- get_chainwork st self (Some (h - 1)) ;;
      work <- chainwork_of_header hd ;;
      let hd := set_chainwork (prev_work + work) hd in
      let delta := h - forkpoint (heap st self) in
      s <- serialize_disk_header hd ;;
      data <- bfh s ;;
      _ <- py_assert (delta =? size st self) ;;
      _ <- py_assert (Z.of_nat (length data) =? DISK_HEADER_SIZE) ;;
      st <- write st self data (delta * DISK_HEADER_SIZE) true ;;
      swap_with_parent st self
  | _ => Err TypeError
  end.

(** [Blockchain.header_at_tip]. *)
Definition header_at_tip (st : state) (self : addr) : result (option header) :=
  read_header st self (height st self).

End Blockchain.
End Blockchain.

(** ** The functions of the module on the registry *)

Module Registry.
Section Registry.
Context `{X : Externals}.

(** [for b in chains: if test(b): return b], and [None] after the loop. *)
Fixpoint first_chain (test : addr -> result bool) (chains : list addr)
  : result (option addr) :=
  match chains with
  | [] => Ok None
  | b :: rest =>
      t <- test b ;;
      if (t : bool) then Ok (Some b) else first_chain test rest
  end.

(** [list(blockchains.values())]. *)
Definition chains_of (st : state) : list addr := map snd (blockchains st).

(** [check_header(header)]; [None] is a header that is not a dict. *)
Definition check_header (st : state) (hdr : option header)
  : result (option addr) :=
  match hdr with
  | None => Ok None
  | Some hd =>
      first_chain (fun b => Blockchain.check_header st b hd) (chains_of st)
  end.

(** [can_connect(header)]. *)
Definition can_connect (st : state) (hdr : option header)
  : result (option addr) :=
  first_chain (fun b => Store.can_connect st b hdr true false) (chains_of st).

(** The list comprehension [[c for c in chains if test(c)]]. *)
Fixpoint filter_chains (test : addr -> result bool) (chains : list addr)
  : result (list addr) :=
  match chains with
  | [] => Ok []
  | c :: rest =>
      t <- test c ;;
      tl <- filter_chains test rest ;;
      Ok (if (t : bool) then c :: tl else tl)
  end.

(** The keys that [sorted] computes, one for each element in order. *)
Fixpoint with_keys (key : addr -> result Z) (chains : list addr)
  : result (list (addr * Z)) :=
  match chains with
  | [] => Ok []
  | c :: rest =>
      k <- key c ;;
      tl <- with_keys key rest ;;
      Ok ((c, k) :: tl)
  end.

(** [sorted(..., reverse=True)] on the keys: by decreasing key, elements
    of equal key in their original order. *)
Fixpoint insert_desc (x : addr * Z) (l : list (addr * Z)) : list (addr * Z) :=
  match l with
  | [] => [x]
  | y :: l' => if snd x <? snd y then y :: insert_desc x l' else x :: y :: l'
  end.

Fixpoint sort_desc (l : list (addr * Z)) : list (addr * Z) :=
  match l with
  | [] => []
  | x :: l' => insert_desc x (sort_desc l')
  end.

(** [get_chains_that_contain_header]. *)
Definition get_chains_that_contain_header (st : state) (hgt : Z)
    (header_hash : string) : result (list addr) :=
  chains <- filter_chains (fun c => check_hash st c hgt header_hash)
              (chains_of st) ;;
  keyed <- with_keys (fun c => get_chainwork st c None) chains ;;
  Ok (map fst (sort_desc keyed)).

(** [init_headers_file_for_best_chain].  [open(filename, 'wb')] makes
    the file empty, and needs the directory; the directory [forks] is
    taken to exist with the headers directory.  [util.ensure_sparse_file]
    does not change the content. *)
Definition init_headers_file_for_best_chain (st : state) : result state :=
  b <- get_best_chain st ;;
  filename <- path st b ;;
  let length_ := DISK_HEADER_SIZE * Z.of_nat (length CHECKPOINTS) * 2016 in
  let too_short :=
    match files st !! filename with
    | None => true
    | Some content => Z.of_nat (length content) <? length_
    end in
  st <- (if too_short then
           if negb (dir_exists st)
           then Err (FileNotFoundError "No such file or directory")
           else
             let content :=
               if 0 <? length_ then file_write_at [] (length_ - 1) [x00]
               else [] in
             Ok (set_files (<[filename := content]> (files st)) st)
         else Ok st) ;;
  update_size st b.

End Registry.
End Registry.

(** The order of [sorted(chains, key=..., reverse=True)] on chains paired
    with their keys. *)
Definition by_work_desc (a b : addr * Z) : Prop := snd b <= snd a.

(** ** Further sample data *)

Module SampleHeaders.
Import Sample.

(** The header of zeros at height 0, whose hash is the genesis hash of
    the sample networks. *)
Definition header_at_0 {X : Externals} : header :=
  {| version := Some 0; prev_block_hash := Some zeros64;
     merkle_root := Some zeros64; timestamp := Some 0; bits := Some 0;
     nonce := Some 0; block_height := Some (Some 0);
     powdata := None; chainwork := None |}.

(** The pure part of the header that the best chain of [two_chains]
    stores at height 1. *)
Definition stored_header_1 {X : Externals} : header :=
  {| version := Some 0; prev_block_hash := Some zeros64;
     merkle_root := Some zeros64; timestamp := Some 0; bits := Some 0;
     nonce := Some 2; block_height := Some (Some 1);
     powdata := None; chainwork := None |}.

(** A header for height 2 with powdata of algorithm 1. *)
Definition header_at_2 : header (X := regtest) :=
  {| version := Some 0; prev_block_hash := Some zeros64;
     merkle_root := Some zeros64; timestamp := Some 0; bits := Some 0;
     nonce := Some 5; block_height := Some (Some 2);
     powdata := Some ({| sp_algo := 1; sp_bits := 0x1d00ffff;
                         sp_auxpow := None |} : @PowData regtest);
     chainwork := None |}.

(** A weight for each algorithm, and the base form of the sample
    powdata: the algorithm and the bits in little-endian order. *)
Definition sample_log2_weight (algo : Z) : result Z :=
  if algo =? 1 then Ok 1 else Ok 0.

Definition sample_serialize_base (pd : sample_powdata) : result string :=
  Ok (bh2u (byte_of_Z (sp_algo pd)
            :: map (fun i => byte_of_Z (Z.shiftr (sp_bits pd) (8 * Z.of_nat i)))
                 (seq 0 4))).

(** The empty best chain before its file exists. *)
Definition no_file : state := set_files ∅ empty_best.

(** A best chain of one header with a fork at height 1 whose file holds
    no record yet. *)
Definition empty_fork : state :=
  {| heap := fun a =>
       match a with
       | 1%nat => {| forkpoint := 1; parent := Some 0%nat;
                     _forkpoint_hash := id_cd; _prev_hash := Some id_ab;
                     _size := 0 |}
       | _ => {| forkpoint := 0; parent := None; _forkpoint_hash := zeros64;
                 _prev_hash := None; _size := 1 |}
       end;
     files := <[fork_path := []]> (<[main_path := rec x01 1]> ∅);
     dir_exists := true;
     blockchains := [(zeros64, 0%nat); (id_cd, 1%nat)] |}.

(** A best chain of one header, and a fork at height 5 with more work:
    the parent ends below the block before the forkpoint. *)
Definition short_parent : state :=
  {| heap := fun a =>
       match a with
       | 1%nat => {| forkpoint := 5; parent := Some 0%nat;
                     _forkpoint_hash := id_cd; _prev_hash := Some id_ab;
                     _size := 1 |}
       | _ => {| forkpoint := 0; parent := None; _forkpoint_hash := zeros64;
                 _prev_hash := None; _size := 1 |}
       end;
     files := <["headers/forks/fork2_5_ab_cd" := rec x03 5]>
                (<[main_path := rec x01 1]> ∅);
     dir_exists := true;
     blockchains := [(zeros64, 0%nat); (id_cd, 1%nat)] |}.



End SampleHeaders.

(** What [read_header] makes of the bytes that it read for a height. *)
Definition decode_record {X : Externals} (r : list byte) (hgt : Z)
  : result (option header) :=
  if Z.of_nat (length r) <? DISK_HEADER_SIZE
  then Err (Exception "Expected to read a full header.")
  else if bytes_eqb r (replicate (Z.to_nat DISK_HEADER_SIZE) x00)
  then Ok None
  else hd <- deserialize_disk_header r hgt ;; Ok (Some hd).

(** ** Vocabulary of the properties

    The notions in which the properties below are stated. *)

(** Six digits in front of a string. *)
Definition digits6 (n5 n4 n3 n2 n1 n0 : Z) (rest : string) : string :=
  String (hex_char n5) (String (hex_char n4) (String (hex_char n3)
    (String (hex_char n2) (String (hex_char n1) (String (hex_char n0) rest))))).

Section Vocabulary.
Context `{X : Externals}.

(** The expected hash, when one is given, is the hash of the header. *)
Definition expected_hash_ok (expected : option string) (_hash : string) : Prop :=
  truthy expected = false \/ expected = Some _hash.

(** [deserialize_full_header] with the parser of the powdata given. *)
Definition deserialize_full_header_using
    (parser : list byte -> Z -> result (PowData * Z))
    (s : list byte) (height : option Z) (expect_trailing_data : bool)
    (start_position : Z) : result full_header_result :=
  h <- deserialize_pure_header
         (slice s start_position (start_position + PURE_HEADER_SIZE)) height ;;
  r <- parser s (start_position + PURE_HEADER_SIZE) ;;
  let '(pd, end_position) := r in
  let h := set_powdata pd h in
  if expect_trailing_data then Ok (HeaderAndEnd h end_position)
  else if negb (end_position =? Z.of_nat (length s))
       then Err (Exception "Invalid header length")
       else Ok (HeaderOnly h).

(** The condition for the base form in the words of the specification:
    height 0 with no checkpoints configured, or a height up to the last
    checkpoint. *)
Definition spec_base_form (height : option Z) : bool :=
  match height with
  | Some h =>
      ((h =? 0) && bool_decide (CHECKPOINTS = [])) || (h <=? max_checkpoint)
  | None => false
  end.

(** The condition of the code: a height up to the last checkpoint, with
    the exception of height 0 when no checkpoints are configured. *)
Definition code_base_form (height : option Z) : bool :=
  match height with
  | Some h =>
      negb ((h =? 0) && bool_decide (CHECKPOINTS = [])) && (h <=? max_checkpoint)
  | None => false
  end.

Definition powdata_parser (base_form : bool)
  : list byte -> Z -> result (PowData * Z) :=
  if base_form then powdata_deserialize_base else powdata_deserialize.

(** All the checks of [can_connect] pass. *)
Definition connects (st : state) (self : addr) (hd : header)
    (check_height skip_auxpow : bool) : Prop :=
  exists h,
    block_height hd = Some (Some h)
    /\ (check_height = true -> height st self = h - 1)
    /\ ((h = 0 /\ hash_header (Some hd) = Ok GENESIS)
        \/ (h <> 0 /\ exists prev_hash target,
              get_hash st self (h - 1) = Ok prev_hash
              /\ prev_block_hash hd = Some prev_hash
              /\ get_expected_target st self hd ∅ = Ok target
              /\ verify_header hd prev_hash target None skip_auxpow = Ok tt)).

(** The exceptions that [can_connect] lets through: a header dict
    without height (or with the height [None] when the height is to be
    checked), a failure of [hash_header] at height 0, and an exception
    other than [MissingHeader] from the computation of the target. *)
Definition propagates (st : state) (self : addr) (hd : header)
    (check_height : bool) (e : exn) : Prop :=
  (block_height hd = None /\ e = KeyError "block_height")
  \/ (block_height hd = Some None /\ check_height = true /\ e = TypeError)
  \/ (block_height hd = Some (Some 0)
      /\ (check_height = true -> height st self = -1)
      /\ hash_header (Some hd) = Err e)
  \/ (exists h prev_hash,
        block_height hd = Some (Some h) /\ h <> 0
        /\ (check_height = true -> height st self = h - 1)
        /\ get_hash st self (h - 1) = Ok prev_hash
        /\ prev_block_hash hd = Some prev_hash
        /\ get_expected_target st self hd ∅ = Err e
        /\ forall m, e <> MissingHeader m).

(** [can_connect] after the height has been read and checked. *)
Definition can_connect_at (st : state) (self : addr) (hd : header)
    (h : Z) (skip_auxpow : bool) : result bool :=
  if bool_decide (h = 0) then
    _hash <- hash_header (Some hd) ;; Ok (String.eqb _hash GENESIS)
  else
    match get_hash st self (h - 1) with
    | Err _ => Ok false
    | Ok prev_hash =>
        if negb (bool_decide (Some prev_hash = prev_block_hash hd))
        then Ok false
        else
          match get_expected_target st self hd ∅ with
          | Err (MissingHeader _) => Ok false
          | Err e => Err e
          | Ok target =>
              match verify_header hd prev_hash target None skip_auxpow with
              | Err _ => Ok false
              | Ok _ => Ok true
              end
          end
    end.

(** The chunk and the offset that [save_chunk] writes: the part of the
    chunk from the forkpoint on. *)
Definition chunk_offset (st : state) (self : addr) (index : Z) : Z :=
  (index * 2016 - forkpoint (heap st self)) * DISK_HEADER_SIZE.

Definition written_chunk (st : state) (self : addr) (index : Z)
    (chunk : list byte) : list byte :=
  if chunk_offset st self index <? 0
  then slice_from chunk (- chunk_offset st self index)
  else chunk.

Definition written_offset (st : state) (self : addr) (index : Z) : Z :=
  if chunk_offset st self index <? 0 then 0 else chunk_offset st self index.

(** The attributes of the chains other than the cached size. *)
Definition same_attributes (st st' : state) : Prop :=
  forall a,
    forkpoint (heap st' a) = forkpoint (heap st a)
    /\ parent (heap st' a) = parent (heap st a)
    /\ _forkpoint_hash (heap st' a) = _forkpoint_hash (heap st a)
    /\ _prev_hash (heap st' a) = _prev_hash (heap st a).

(** The four assignments that exchange the attributes. *)
Definition swap_parameters (self parent_ : addr) (first_hash : string)
    (st : state) : state :=
  swap_prev_hashes self parent_
    (swap_forkpoint_hashes self parent_ first_hash
       (swap_forkpoints self parent_ (swap_parents self parent_ st))).






End Vocabulary.

(** ** Properties of the read path *)

Section ReadPath.
Context `{X : Externals}.

Lemma bind_ok {A B : Type} (m : result A) (k : A -> result B) (b : B) :
  bind m k = Ok b -> exists a, m = Ok a /\ k a = Ok b.
Proof. destruct m as [a|e]; simpl; [eauto | discriminate]. Qed.

(** Reading a height above the tip of a chain that starts at or below
    it yields no header. *)
Lemma read_header_above_tip (st : state) (self : addr) (hgt : Z) :
  0 <= hgt -> forkpoint (heap st self) <= hgt -> height st self < hgt ->
  read_header st self hgt = Ok None.
Proof.
  intros H0 Hf Hh. unfold read_header.
  destruct recursion_limit; simpl;
    (destruct (Z.ltb_spec hgt 0); [lia|]);
    (destruct (Z.ltb_spec hgt (forkpoint (heap st self))); [lia|]);
    (destruct (Z.ltb_spec (height st self) hgt); [reflexivity|lia]).
Qed.

(** C9: [hash_header(None)] does not raise and returns the string of 64
    zeros, the value that [get_hash] returns for height -1. *)
Theorem hash_header_None (st : state) (self : addr) :
  hash_header None = Ok (str_repeat "0" 64)
  /\ get_hash st self (-1) = hash_header None.
Proof. split; reflexivity. Qed.

(** C8, as amended: a chain without records has the height of its
    forkpoint less one.  With the forkpoint 0 that is -1: [get_chainwork]
    without argument then takes the height [max(0, -1) = 0] and raises
    [MissingHeader(0)], whereas it returns 0 for the height -1.  With a
    forkpoint above 0 the height is not negative, and [get_chainwork]
    without argument is [get_chainwork] at that height. *)
Theorem get_chainwork_empty_chain (st : state) (self : addr) :
  size st self = 0 ->
  height st self = forkpoint (heap st self) - 1
  /\ (forkpoint (heap st self) = 0 ->
      height st self = -1
      /\ Z.max 0 (height st self) = 0
      /\ get_chainwork st self None = Err (MissingHeader 0)
      /\ get_chainwork st self (Some (-1)) = Ok 0)
  /\ (0 < forkpoint (heap st self) ->
      0 <= height st self
      /\ get_chainwork st self None
         = get_chainwork st self (Some (forkpoint (heap st self) - 1))).
Proof.
  intros Hs.
  assert (Hh : height st self = forkpoint (heap st self) - 1)
    by (unfold height; rewrite Hs; lia).
  split; [exact Hh|]. split.
  - intros Hf. rewrite Hf in Hh. change (0 - 1) with (-1) in Hh.
    split; [exact Hh|]. split; [rewrite Hh; reflexivity|].
    split; [|reflexivity].
    unfold get_chainwork. rewrite Hh. change (Z.max 0 (-1)) with 0.
    rewrite read_header_above_tip; simpl.
    + destruct (0 <=? max_checkpoint); reflexivity.
    + lia.
    + lia.
    + lia.
  - intros Hf. split; [lia|].
    unfold get_chainwork. rewrite Hh.
    rewrite Z.max_r by lia. reflexivity.
Qed.

(** C10: for a hash of 64 characters [check_hash] raises nothing; it
    answers [True] exactly when [get_hash] succeeds with that hash, and
    [False] when [get_hash] fails, [MissingHeader] included. *)
Theorem check_hash_total (st : state) (self : addr) (hgt : Z)
    (header_hash : string) :
  String.length header_hash = 64%nat ->
  (exists b, check_hash st self hgt header_hash = Ok b
             /\ (b = true <-> get_hash st self hgt = Ok header_hash))
  /\ (forall e, get_hash st self hgt = Err e ->
                check_hash st self hgt header_hash = Ok false).
Proof.
  intros Hlen. unfold check_hash. rewrite Hlen. simpl.
  destruct (get_hash st self hgt) as [h|e] eqn:Hg.
  - split; [|discriminate].
    exists (String.eqb header_hash h). split; [reflexivity|].
    rewrite String.eqb_eq. split; [intros ->; reflexivity | intros [= ->]; reflexivity].
  - split; [|reflexivity].
    exists false. split; [reflexivity|]. split; discriminate.
Qed.

(** A positive height that reaches a chunk boundary within the
    checkpoint range selects an existing checkpoint, when the range is
    the one that the checkpoints cover. *)
Lemma checkpoint_index_in_range (hgt : Z) :
  0 < hgt -> hgt <= max_checkpoint ->
  max_checkpoint <= Z.max 0 (2016 * Z.of_nat (length CHECKPOINTS) - 1) ->
  exists d, nth_error CHECKPOINTS (Z.to_nat (hgt / 2016)) = Some d
            /\ Py.index CHECKPOINTS (hgt / 2016) = Ok d.
Proof.
  intros Hpos Hle Hmax.
  assert (Hq : 0 <= hgt / 2016 < Z.of_nat (length CHECKPOINTS)).
  { split; [apply Z.div_pos; lia|]. apply Z.div_lt_upper_bound; lia. }
  destruct (nth_error CHECKPOINTS (Z.to_nat (hgt / 2016))) as [d|] eqn:Hn.
  - exists d. split; [reflexivity|]. unfold Py.index.
    destruct (Z.ltb_spec (hgt / 2016) 0); [lia|].
    destruct (Z.ltb_spec (hgt / 2016) 0); [lia|].
    destruct (Z.leb_spec (Z.of_nat (length CHECKPOINTS)) (hgt / 2016)); [lia|].
    simpl. rewrite Hn. reflexivity.
  - apply nth_error_None in Hn. lia.
Qed.

(** C4: the four cases of [get_hash]: 64 zeros at height -1; the genesis
    constant at height 0; at a chunk boundary within the checkpoint
    range the hash stored in the checkpoint, whatever the files hold;
    otherwise the hash of the header read, [MissingHeader] when there is
    none. *)
Theorem get_hash_cases (st : state) (self : addr) (hgt : Z) :
  (hgt = -1 -> get_hash st self hgt = Ok (str_repeat "0" 64))
  /\ (hgt = 0 -> get_hash st self hgt = Ok GENESIS)
  /\ (hgt <> -1 -> hgt <> 0 ->
      hgt <= max_checkpoint -> (hgt + 1) mod 2016 = 0 ->
      get_hash st self hgt
        = (d <- Py.index CHECKPOINTS (hgt / 2016) ;; Ok (cp_hash d))
      /\ (forall st2 self2, get_hash st2 self2 hgt = get_hash st self hgt)
      /\ (0 < hgt ->
          max_checkpoint <= Z.max 0 (2016 * Z.of_nat (length CHECKPOINTS) - 1) ->
          exists d, nth_error CHECKPOINTS (Z.to_nat (hgt / 2016)) = Some d
                    /\ get_hash st self hgt = Ok (cp_hash d)))
  /\ (hgt <> -1 -> hgt <> 0 ->
      ~ (hgt <= max_checkpoint /\ (hgt + 1) mod 2016 = 0) ->
      (forall hd, read_header st self hgt = Ok (Some hd) ->
                  get_hash st self hgt = hash_header (Some hd))
      /\ (read_header st self hgt = Ok None ->
          get_hash st self hgt = Err (MissingHeader hgt))
      /\ (forall e, read_header st self hgt = Err e ->
                    get_hash st self hgt = Err e)).
Proof.
  unfold get_hash, is_height_checkpoint.
  split; [intros ->; reflexivity|].
  split; [intros ->; reflexivity|].
  split.
  - intros Hm1 H0 Hmax Hmod.
    destruct (Z.eqb_spec hgt (-1)); [contradiction|].
    destruct (Z.eqb_spec hgt 0); [contradiction|].
    destruct (Z.leb_spec hgt max_checkpoint); [|lia].
    rewrite Hmod. simpl. split; [reflexivity|]. split; [reflexivity|].
    intros Hpos Hcov.
    destruct (checkpoint_index_in_range hgt Hpos Hmax Hcov) as (d & Hn & Hi).
    exists d. rewrite Hi. split; [exact Hn | reflexivity].
  - intros Hm1 H0 Hnot.
    destruct (Z.eqb_spec hgt (-1)); [contradiction|].
    destruct (Z.eqb_spec hgt 0); [contradiction|].
    assert (Hb : (hgt <=? max_checkpoint) && ((hgt + 1) mod 2016 =? 0) = false).
    { destruct (Z.leb_spec hgt max_checkpoint); simpl; [|reflexivity].
      destruct (Z.eqb_spec ((hgt + 1) mod 2016) 0); [|reflexivity].
      exfalso. apply Hnot. split; assumption. }
    rewrite Hb.
    split; [|split]; intros; repeat match goal with
      | H : read_header _ _ _ = _ |- _ => rewrite H end; reflexivity.
Qed.

End ReadPath.

(** ** Properties of the codec and of verification *)

Section Verification.
Context `{X : Externals}.

Lemma bits_fill_prev_block_hash (hdr : header) :
  bits (fill_prev_block_hash hdr) = bits hdr.
Proof. unfold fill_prev_block_hash. destruct (prev_block_hash hdr); reflexivity. Qed.

Lemma expected_hash_ok_test (expected : option string) (_hash : string) :
  expected_hash_ok expected _hash ->
  truthy expected && negb (bool_decide (expected = Some _hash)) = false.
Proof.
  intros [H | H].
  - rewrite H. reflexivity.
  - rewrite bool_decide_eq_true_2 by exact H. apply andb_false_r.
Qed.

(** C6: [verify_header] raises on every header whose bits are not zero;
    that check comes after the checks of the expected hash and of the
    previous hash; on testnet the function returns right after it,
    whatever the target, the powdata and [skip_auxpow] are. *)
Theorem verify_header_nonzero_bits (hdr : header) (prev_hash : string)
    (target : Z) (expected : option string) (skip_auxpow : bool) :
  (bits hdr <> Some 0 ->
   raises (verify_header hdr prev_hash target expected skip_auxpow))
  /\ (forall _hash,
        hash_header (Some hdr) = Ok _hash ->
        truthy expected = true -> expected <> Some _hash ->
        verify_header hdr prev_hash target expected skip_auxpow
          = Err (Exception "hash mismatches with expected"))
  /\ (forall _hash,
        hash_header (Some hdr) = Ok _hash ->
        expected_hash_ok expected _hash ->
        prev_block_hash (fill_prev_block_hash hdr) <> Some prev_hash ->
        verify_header hdr prev_hash target expected skip_auxpow
          = Err (Exception "prev hash mismatch"))
  /\ (forall _hash b,
        hash_header (Some hdr) = Ok _hash ->
        expected_hash_ok expected _hash ->
        prev_block_hash (fill_prev_block_hash hdr) = Some prev_hash ->
        bits hdr = Some b -> b <> 0 ->
        verify_header hdr prev_hash target expected skip_auxpow
          = Err (Exception "main header has non-zero bits"))
  /\ (TESTNET = true ->
      forall _hash,
        hash_header (Some hdr) = Ok _hash ->
        expected_hash_ok expected _hash ->
        prev_block_hash (fill_prev_block_hash hdr) = Some prev_hash ->
        bits hdr = Some 0 ->
        verify_header hdr prev_hash target expected skip_auxpow = Ok tt).
Proof.
  unfold verify_header. repeat split.
  - intros Hbits. destruct (hash_header (Some hdr)) as [_hash|e]; simpl;
      [|eexists; reflexivity].
    destruct (truthy expected && _); [eexists; reflexivity|].
    destruct (negb (bool_decide (Some prev_hash = _))); [eexists; reflexivity|].
    rewrite bits_fill_prev_block_hash.
    rewrite bool_decide_eq_false_2 by exact Hbits. simpl.
    destruct (bits hdr); eexists; reflexivity.
  - intros _hash Hh Ht Hne. rewrite Hh. simpl. rewrite Ht.
    rewrite bool_decide_eq_false_2 by exact Hne. reflexivity.
  - intros _hash Hh He Hp. rewrite Hh. simpl.
    rewrite (expected_hash_ok_test _ _ He).
    rewrite bool_decide_eq_false_2 by congruence. reflexivity.
  - intros _hash b Hh He Hp Hb Hnz. rewrite Hh. simpl.
    rewrite (expected_hash_ok_test _ _ He).
    rewrite bool_decide_eq_true_2 by congruence. simpl.
    rewrite bits_fill_prev_block_hash, Hb.
    rewrite bool_decide_eq_false_2 by congruence. reflexivity.
  - intros Ht _hash Hh He Hp Hb. rewrite Hh. simpl.
    rewrite (expected_hash_ok_test _ _ He).
    rewrite bool_decide_eq_true_2 by congruence. simpl.
    rewrite bits_fill_prev_block_hash, Hb.
    rewrite bool_decide_eq_true_2 by reflexivity. simpl.
    rewrite Ht. reflexivity.
Qed.

(** *** The form of the powdata in a full header *)

(** C1, as amended: [deserialize_full_header] parses the powdata in base
    form precisely when the height is given, is at most
    [max_checkpoint], and is not 0 with no checkpoints configured; in
    every other case it parses the full form. *)
Theorem deserialize_full_header_form (s : list byte) (height : option Z)
    (expect_trailing_data : bool) (start_position : Z) :
  deserialize_full_header s height expect_trailing_data start_position
  = deserialize_full_header_using (powdata_parser (code_base_form height))
      s height expect_trailing_data start_position
  /\ (code_base_form height = true <->
      exists h, height = Some h /\ h <= max_checkpoint
                /\ ~ (h = 0 /\ CHECKPOINTS = [])).
Proof.
  split.
  - unfold deserialize_full_header, deserialize_full_header_using,
      powdata_parser, code_base_form.
    destruct (deserialize_pure_header _ height) as [h|e]; simpl; [|reflexivity].
    destruct height as [hh|]; [|reflexivity].
    destruct (Z.eqb_spec hh 0) as [->|Hne].
    + destruct CHECKPOINTS as [|c cs] eqn:Hc.
      * rewrite bool_decide_eq_true_2 by reflexivity. reflexivity.
      * rewrite bool_decide_eq_false_2 by discriminate. simpl.
        destruct (0 <=? max_checkpoint); reflexivity.
    + simpl. destruct hh as [|p|p]; [contradiction| |];
        destruct (_ <=? max_checkpoint); reflexivity.
  - unfold code_base_form. destruct height as [h|].
    2:{ split; [discriminate | intros (h & [=] & _)]. }
    rewrite andb_true_iff, negb_true_iff, andb_false_iff, Z.leb_le,
      Z.eqb_neq, bool_decide_eq_false.
    split.
    + intros [Hn Hle]. exists h. split; [reflexivity|]. split; [exact Hle|].
      intros [H0 Hc]. destruct Hn; contradiction.
    + intros (h' & [= <-] & Hle & Hn). split; [|exact Hle].
      destruct (Z.eq_dec h 0) as [H0|H0]; [|left; exact H0].
      right. intros Hc. apply Hn. split; assumption.
Qed.

End Verification.

(** ** Properties of [can_connect] *)

Section Connect.
Context `{X : Externals}.

Lemma can_connect_None (st : state) (self : addr) (ch sk : bool) :
  can_connect st self None ch sk = Ok false.
Proof. reflexivity. Qed.

Lemma can_connect_height (st : state) (self : addr) (hd : header) (h : Z)
    (ch sk : bool) :
  block_height hd = Some (Some h) ->
  can_connect st self (Some hd) ch sk
  = if ch && negb (height st self =? h - 1) then Ok false
    else can_connect_at st self hd h sk.
Proof.
  intros Hb. unfold can_connect, can_connect_at. rewrite Hb. simpl.
  destruct ch; simpl.
  - destruct (height st self =? h - 1); simpl; [|reflexivity].
    destruct (decide (h = 0)) as [->|Hne].
    + rewrite !bool_decide_eq_true_2 by reflexivity. reflexivity.
    + rewrite !bool_decide_eq_false_2 by congruence. reflexivity.
  - destruct (decide (h = 0)) as [->|Hne].
    + rewrite !bool_decide_eq_true_2 by reflexivity. reflexivity.
    + rewrite !bool_decide_eq_false_2 by congruence. reflexivity.
Qed.

Lemma can_connect_at_true (st : state) (self : addr) (hd : header) (h : Z)
    (sk : bool) :
  can_connect_at st self hd h sk = Ok true <->
  ((h = 0 /\ hash_header (Some hd) = Ok GENESIS)
   \/ (h <> 0 /\ exists prev_hash target,
         get_hash st self (h - 1) = Ok prev_hash
         /\ prev_block_hash hd = Some prev_hash
         /\ get_expected_target st self hd ∅ = Ok target
         /\ verify_header hd prev_hash target None sk = Ok tt)).
Proof.
  unfold can_connect_at. destruct (decide (h = 0)) as [->|Hne].
  - rewrite bool_decide_eq_true_2 by reflexivity.
    destruct (hash_header (Some hd)) as [x|e]; simpl.
    + split.
      * intros [= Heq]. apply String.eqb_eq in Heq. subst. left. auto.
      * intros [[_ [= ->]] | [Hc _]]; [|contradiction].
        rewrite String.eqb_refl. reflexivity.
    + split; [discriminate|]. intros [[_ Hc] | [Hc _]]; [discriminate|contradiction].
  - rewrite bool_decide_eq_false_2 by exact Hne.
    destruct (get_hash st self (h - 1)) as [ph|e].
    2:{ split; [discriminate|]. intros [[Hc _] | (_ & ph & t & Hc & _)];
        [contradiction|discriminate]. }
    destruct (decide (Some ph = prev_block_hash hd)) as [Hp|Hp].
    2:{ rewrite bool_decide_eq_false_2 by exact Hp. simpl.
        split; [discriminate|]. intros [[Hc _] | (_ & ph' & t & [= <-] & Hc & _)];
        [contradiction|congruence]. }
    rewrite bool_decide_eq_true_2 by exact Hp. simpl.
    destruct (get_expected_target st self hd ∅) as [t|e].
    2:{ split; [destruct e; discriminate|].
        intros [[Hc _] | (_ & ph' & t & _ & _ & Hc & _)];
        [contradiction|discriminate]. }
    destruct (verify_header hd ph t None sk) as [[]|e] eqn:Hv.
    + split; [|reflexivity]. intros _. right. split; [exact Hne|].
      exists ph, t. auto.
    + split; [discriminate|].
      intros [[Hc _] | (_ & ph' & t' & [= <-] & _ & [= <-] & Hc)];
        [contradiction|congruence].
Qed.

Lemma can_connect_at_err (st : state) (self : addr) (hd : header) (h : Z)
    (sk : bool) (e : exn) :
  can_connect_at st self hd h sk = Err e <->
  ((h = 0 /\ hash_header (Some hd) = Err e)
   \/ (h <> 0 /\ exists prev_hash,
         get_hash st self (h - 1) = Ok prev_hash
         /\ prev_block_hash hd = Some prev_hash
         /\ get_expected_target st self hd ∅ = Err e
         /\ forall m, e <> MissingHeader m)).
Proof.
  unfold can_connect_at. destruct (decide (h = 0)) as [->|Hne].
  - rewrite bool_decide_eq_true_2 by reflexivity.
    destruct (hash_header (Some hd)) as [x|e']; simpl.
    + split; [discriminate|]. intros [[_ Hc] | [Hc _]]; [discriminate|contradiction].
    + split; [intros [= ->]; left; auto|].
      intros [[_ [= ->]] | [Hc _]]; [reflexivity|contradiction].
  - rewrite bool_decide_eq_false_2 by exact Hne.
    destruct (get_hash st self (h - 1)) as [ph|e'].
    2:{ split; [discriminate|]. intros [[Hc _] | (_ & ph & Hc & _)];
        [contradiction|discriminate]. }
    destruct (decide (Some ph = prev_block_hash hd)) as [Hp|Hp].
    2:{ rewrite bool_decide_eq_false_2 by exact Hp. simpl.
        split; [discriminate|]. intros [[Hc _] | (_ & ph' & [= <-] & Hc & _)];
        [contradiction|congruence]. }
    rewrite bool_decide_eq_true_2 by exact Hp. simpl.
    destruct (get_expected_target st self hd ∅) as [t|e'].
    { destruct (verify_header hd ph t None sk) as [[]|e'']; split;
        try discriminate;
        intros [[Hc _] | (_ & ph' & _ & _ & Hc & _)];
        try contradiction; discriminate. }
    split.
    + intros He. right. split; [exact Hne|]. exists ph.
      split; [reflexivity|]. split; [congruence|].
      destruct e'; try discriminate; injection He as <-;
        (split; [reflexivity | intros m; discriminate]).
    + intros [[Hc _] | (_ & ph' & _ & _ & [= ->] & Hm)]; [contradiction|].
      destruct e; try reflexivity. exfalso. eapply Hm. reflexivity.
Qed.

Lemma height_check_cases (st : state) (self : addr) (h : Z) (ch : bool) :
  (ch && negb (height st self =? h - 1) = true
   /\ ch = true /\ height st self <> h - 1)
  \/ (ch && negb (height st self =? h - 1) = false
      /\ (ch = true -> height st self = h - 1)).
Proof.
  destruct ch; simpl.
  - destruct (Z.eqb_spec (height st self) (h - 1)); simpl; auto.
  - right. split; [reflexivity | discriminate].
Qed.

(** C5, as amended: [can_connect] answers [True] exactly when all its
    checks pass; it answers [False], without raising, for no header, a
    height mismatch, a hash other than the genesis hash at height 0,
    any failure of [get_hash(height-1)], a mismatch of the previous
    hash, a [MissingHeader] from the computation of the target, and any
    failure of [verify_header]; the exceptions that it raises are those
    of [propagates]. *)
Theorem can_connect_outcomes (st : state) (self : addr) (hdr : option header)
    (check_height skip_auxpow : bool) :
  (can_connect st self hdr check_height skip_auxpow = Ok true <->
   exists hd, hdr = Some hd /\ connects st self hd check_height skip_auxpow)
  /\ (forall e,
        can_connect st self hdr check_height skip_auxpow = Err e <->
        exists hd, hdr = Some hd /\ propagates st self hd check_height e)
  /\ (hdr = None ->
      can_connect st self hdr check_height skip_auxpow = Ok false)
  /\ (forall hd h,
        hdr = Some hd -> block_height hd = Some (Some h) ->
        check_height = true -> height st self <> h - 1 ->
        can_connect st self hdr check_height skip_auxpow = Ok false)
  /\ (forall hd _hash,
        hdr = Some hd -> block_height hd = Some (Some 0) ->
        hash_header (Some hd) = Ok _hash -> _hash <> GENESIS ->
        can_connect st self hdr check_height skip_auxpow = Ok false)
  /\ (forall hd h e,
        hdr = Some hd -> block_height hd = Some (Some h) -> h <> 0 ->
        get_hash st self (h - 1) = Err e ->
        can_connect st self hdr check_height skip_auxpow = Ok false)
  /\ (forall hd h prev_hash,
        hdr = Some hd -> block_height hd = Some (Some h) -> h <> 0 ->
        get_hash st self (h - 1) = Ok prev_hash ->
        prev_block_hash hd <> Some prev_hash ->
        can_connect st self hdr check_height skip_auxpow = Ok false)
  /\ (forall hd h prev_hash m,
        hdr = Some hd -> block_height hd = Some (Some h) -> h <> 0 ->
        get_hash st self (h - 1) = Ok prev_hash ->
        get_expected_target st self hd ∅ = Err (MissingHeader m) ->
        can_connect st self hdr check_height skip_auxpow = Ok false)
  /\ (forall hd h prev_hash target e,
        hdr = Some hd -> block_height hd = Some (Some h) -> h <> 0 ->
        get_hash st self (h - 1) = Ok prev_hash ->
        get_expected_target st self hd ∅ = Ok target ->
        verify_header hd prev_hash target None skip_auxpow = Err e ->
        can_connect st self hdr check_height skip_auxpow = Ok false).
Proof.
  split; [|split].
  - (* True exactly when all checks pass *)
    destruct hdr as [hd|].
    2:{ split; [discriminate | intros (hd & [=] & _)]. }
    destruct (block_height hd) as [[h|]|] eqn:Hb.
    + rewrite (can_connect_height st self hd h _ _ Hb).
      destruct (height_check_cases st self h check_height)
        as [(-> & Hc & Hne) | (-> & Hok)].
      * split; [discriminate|].
        intros (hd' & [= <-] & h' & Hb' & Hh & _).
        rewrite Hb in Hb'. injection Hb' as <-. apply Hh in Hc. contradiction.
      * rewrite can_connect_at_true. split.
        -- intros H. exists hd. split; [reflexivity|]. exists h. auto.
        -- intros (hd' & [= <-] & h' & Hb' & _ & H).
           rewrite Hb in Hb'. injection Hb' as <-. exact H.
    + split.
      * unfold can_connect. rewrite Hb. simpl.
        destruct check_height; simpl; discriminate.
      * intros (hd' & [= <-] & h' & Hb' & _). congruence.
    + split.
      * unfold can_connect. rewrite Hb. simpl. discriminate.
      * intros (hd' & [= <-] & h' & Hb' & _). congruence.
  - (* the exceptions let through *)
    intros e. destruct hdr as [hd|].
    2:{ split; [discriminate | intros (hd & [=] & _)]. }
    destruct (block_height hd) as [[h|]|] eqn:Hb.
    + rewrite (can_connect_height st self hd h _ _ Hb).
      destruct (height_check_cases st self h check_height)
        as [(-> & Hc & Hne) | (-> & Hok)].
      * split; [discriminate|].
        intros (hd' & [= <-] & [(Hb' & _) | [(Hb' & _) | [(Hb' & Hh & _)
               | (h' & ph & Hb' & _ & Hh & _)]]]); try congruence.
        -- rewrite Hb in Hb'. injection Hb' as ->. apply Hh in Hc.
           simpl in Hne. contradiction.
        -- rewrite Hb in Hb'. injection Hb' as <-. apply Hh in Hc.
           contradiction.
      * rewrite can_connect_at_err. split.
        -- intros [(-> & Hh) | (Hne & ph & Hg & Hp & Ht & Hm)];
             exists hd; (split; [reflexivity|]).
           ++ right. right. left. auto.
           ++ right. right. right. exists h, ph. auto 10.
        -- intros (hd' & [= <-] & [(Hb' & _) | [(Hb' & _) | [(Hb' & _ & Hh)
               | (h' & ph & Hb' & Hne & _ & Hg & Hp & Ht & Hm)]]]);
             try congruence.
           ++ rewrite Hb in Hb'. injection Hb' as ->. left. auto.
           ++ rewrite Hb in Hb'. injection Hb' as <-. right.
              split; [exact Hne|]. exists ph. auto.
    + unfold can_connect. rewrite Hb. simpl. destruct check_height; simpl.
      * split.
        -- intros [= <-]. exists hd. split; [reflexivity|]. right. left. auto.
        -- intros (hd' & [= <-] & [(Hb' & _) | [(_ & _ & ->) | [(Hb' & _)
               | (h' & ph & Hb' & _)]]]); congruence.
      * split; [discriminate|].
        intros (hd' & [= <-] & [(Hb' & _) | [(_ & Hc & _) | [(Hb' & _)
               | (h' & ph & Hb' & _)]]]); congruence.
    + unfold can_connect. rewrite Hb. simpl. split.
      * intros [= <-]. exists hd. split; [reflexivity|]. left. auto.
      * intros (hd' & [= <-] & [(_ & ->) | [(Hb' & _) | [(Hb' & _)
               | (h' & ph & Hb' & _)]]]); congruence.
  - (* the failures answered with False *)
    split; [intros ->; reflexivity|].
    split.
    { intros hd h -> Hb -> Hne. rewrite (can_connect_height st self hd h _ _ Hb).
      simpl. destruct (Z.eqb_spec (height st self) (h - 1)); [contradiction|].
      reflexivity. }
    split.
    { intros hd _hash -> Hb Hh Hne.
      rewrite (can_connect_height st self hd 0 _ _ Hb).
      destruct (check_height && _); [reflexivity|].
      unfold can_connect_at. rewrite bool_decide_eq_true_2 by reflexivity.
      rewrite Hh. simpl.
      destruct (String.eqb_spec _hash GENESIS); [contradiction|reflexivity]. }
    split.
    { intros hd h e -> Hb Hne Hg.
      rewrite (can_connect_height st self hd h _ _ Hb).
      destruct (check_height && _); [reflexivity|].
      unfold can_connect_at. rewrite bool_decide_eq_false_2 by exact Hne.
      rewrite Hg. reflexivity. }
    split.
    { intros hd h ph -> Hb Hne Hg Hp.
      rewrite (can_connect_height st self hd h _ _ Hb).
      destruct (check_height && _); [reflexivity|].
      unfold can_connect_at. rewrite bool_decide_eq_false_2 by exact Hne.
      rewrite Hg. rewrite bool_decide_eq_false_2 by congruence. reflexivity. }
    split.
    { intros hd h ph m -> Hb Hne Hg Ht.
      rewrite (can_connect_height st self hd h _ _ Hb).
      destruct (check_height && _); [reflexivity|].
      unfold can_connect_at. rewrite bool_decide_eq_false_2 by exact Hne.
      rewrite Hg. destruct (negb _); [reflexivity|].
      rewrite Ht. reflexivity. }
    { intros hd h ph t e -> Hb Hne Hg Ht Hv.
      rewrite (can_connect_height st self hd h _ _ Hb).
      destruct (check_height && _); [reflexivity|].
      unfold can_connect_at. rewrite bool_decide_eq_false_2 by exact Hne.
      rewrite Hg. destruct (negb _); [reflexivity|].
      rewrite Ht, Hv. reflexivity. }
Qed.

End Connect.

(** ** Properties of the write path *)

Section WritePath.
Context `{X : Externals}.

Lemma length_file_truncate (content : list byte) (offset : Z) :
  length (file_truncate content offset) = Z.to_nat offset.
Proof.
  unfold file_truncate. rewrite length_app, length_take, length_replicate. lia.
Qed.

(** A write leaves the bytes before and after the written range as they
    are. *)
Lemma file_write_at_frame (content data : list byte) (offset : Z) (i : nat)
    (b : byte) :
  content !! i = Some b ->
  (i < Z.to_nat offset \/ Z.to_nat offset + length data <= i)%nat ->
  file_write_at content offset data !! i = Some b.
Proof.
  intros Hi Hout. unfold file_write_at.
  destruct data as [|d data]; [exact Hi|].
  pose proof (lookup_lt_Some _ _ _ Hi) as Hlt.
  pose proof (length_file_truncate content offset) as Hlen.
  destruct Hout as [Hbefore | Hafter].
  - rewrite lookup_app_l by lia.
    unfold file_truncate. rewrite lookup_app_l by (rewrite length_take; lia).
    rewrite lookup_take_lt by lia. exact Hi.
  - rewrite lookup_app_r by lia. rewrite Hlen.
    rewrite lookup_app_r by lia.
    rewrite lookup_drop. rewrite <- Hi. f_equal. lia.
Qed.

(** The bytes of the written range are those of the data. *)
Lemma file_write_at_data (content data : list byte) (offset : Z) (i : nat) :
  (i < length data)%nat ->
  file_write_at content offset data !! (Z.to_nat offset + i)%nat = data !! i.
Proof.
  intros Hi. unfold file_write_at.
  destruct data as [|d data]; [simpl in Hi; lia|].
  pose proof (length_file_truncate content offset) as Hlen.
  rewrite lookup_app_r by lia. rewrite Hlen.
  rewrite lookup_app_l by lia. f_equal. lia.
Qed.

(** A read at an offset and of a length that are not negative. *)
Lemma file_read_at_ok (content : list byte) (offset n : Z) :
  0 <= offset -> 0 <= n ->
  file_read_at content offset n = Ok (file_slice content offset n).
Proof.
  intros Ho Hn. unfold file_read_at.
  destruct (Z.ltb_spec offset 0); [lia|].
  destruct (Z.ltb_spec n (-1)); [lia|].
  destruct (Z.ltb_spec n 0); [lia | reflexivity].
Qed.


Lemma path_set_files (st : state) (self : addr) (fs : gmap string (list byte)) :
  path (set_files fs st) self = path st self.
Proof. reflexivity. Qed.

(** A chain without parent does not swap. *)
Lemma swap_with_parent_no_parent (st : state) (self : addr) :
  parent (heap st self) = None -> swap_with_parent st self = Ok st.
Proof.
  intros Hp. unfold swap_with_parent.
  destruct (Z.to_nat _); simpl; unfold _swap_with_parent; rewrite Hp; reflexivity.
Qed.

(** The files after a write without truncation. *)
Lemma write_no_truncate (st st' : state) (self : addr) (data : list byte)
    (offset : Z) :
  write st self data offset false = Ok st' ->
  exists name old,
    path st self = Ok name /\ files st !! name = Some old /\ 0 <= offset
    /\ files st' = <[name := file_write_at old offset data]> (files st)
    /\ parent (heap st' self) = parent (heap st self).
Proof.
  unfold write. intros H.
  destruct (path st self) as [name|e] eqn:Hp; [|discriminate]. simpl in H.
  unfold assert_headers_file_available, open_file in H.
  destruct (files st !! name) as [old|] eqn:Hf.
  2:{ destruct (negb (dir_exists st)); discriminate. }
  simpl in H. destruct (Z.ltb_spec offset 0); [discriminate|].
  unfold update_size in H. rewrite path_set_files, Hp in H. simpl in H.
  injection H as <-. exists name, old. simpl.
  repeat split; try assumption; try reflexivity.
  rewrite Nat.eqb_refl. reflexivity.
Qed.

End WritePath.

Section Swap.
Context `{X : Externals}.

Lemma bfh_bh2u (b : list byte) : bfh (bh2u b) = Ok b.
Proof.
  induction b as [|x b IH]; [reflexivity|].
  change (bh2u (x :: b))
    with (String (hex_char (nibble (byte_to_Z x) 1))
            (String (hex_char (nibble (byte_to_Z x) 0)) (bh2u b))).
  cbn [bfh]. rewrite IH.
  destruct x; reflexivity.
Qed.

Lemma hash_raw_header_bh2u (b : list byte) :
  hash_raw_header (bh2u b) = Ok (hash_encode (sha256d b)).
Proof. unfold hash_raw_header. rewrite bfh_bh2u. reflexivity. Qed.

Lemma same_attributes_refl (st : state) : same_attributes st st.
Proof. intros a. auto. Qed.

Lemma same_attributes_trans (st1 st2 st3 : state) :
  same_attributes st1 st2 -> same_attributes st2 st3 -> same_attributes st1 st3.
Proof.
  intros H12 H23 a. destruct (H12 a) as (? & ? & ? & ?).
  destruct (H23 a) as (? & ? & ? & ?). repeat split; congruence.
Qed.


Lemma update_size_ok (st st' : state) (a : addr) :
  update_size st a = Ok st' ->
  same_attributes st st' /\ files st' = files st
  /\ blockchains st' = blockchains st /\ dir_exists st' = dir_exists st.
Proof.
  unfold update_size. destruct (path st a) as [p|e]; [|discriminate]. simpl.
  intros [= <-]. repeat split; simpl; destruct (Nat.eqb a0 a) eqn:He;
    try reflexivity; apply Nat.eqb_eq in He; subst; reflexivity.
Qed.

Lemma write_ok (st st' : state) (a : addr) (data : list byte) (offset : Z)
    (truncate : bool) :
  write st a data offset truncate = Ok st' ->
  same_attributes st st'
  /\ blockchains st' = blockchains st /\ dir_exists st' = dir_exists st
  /\ exists name new,
       path st a = Ok name /\ is_Some (files st !! name)
       /\ files st' = <[name := new]> (files st).
Proof.
  unfold write. intros H.
  destruct (path st a) as [name|e] eqn:Hp; [|discriminate]. simpl in H.
  unfold assert_headers_file_available, open_file in H.
  destruct (files st !! name) as [old|] eqn:Hf.
  2:{ destruct (negb (dir_exists st)); discriminate. }
  simpl in H. destruct (offset <? 0); [discriminate|].
  apply update_size_ok in H. destruct H as (Hs & Hfs & Hb & Hd).
  split; [exact Hs|]. split; [exact Hb|]. split; [exact Hd|].
  eexists name, _. split; [reflexivity|]. split; [eauto|]. exact Hfs.
Qed.

Lemma write_succeeds (st : state) (a : addr) (data : list byte) (offset : Z)
    (truncate : bool) (name : string) :
  path st a = Ok name -> is_Some (files st !! name) -> 0 <= offset ->
  exists st', write st a data offset truncate = Ok st'.
Proof.
  intros Hp [old Hf] Ho. unfold write. rewrite Hp. simpl.
  unfold assert_headers_file_available, open_file. rewrite Hf. simpl.
  destruct (Z.ltb_spec offset 0); [lia|].
  unfold update_size. rewrite path_set_files, Hp. simpl. eauto.
Qed.


Lemma path_of_fork (st : state) (a p : addr) (name : string) :
  parent (heap st a) = Some p -> path st a = Ok name ->
  0 < forkpoint (heap st a) /\ exists ph, _prev_hash (heap st a) = Some ph.
Proof.
  unfold path. intros -> H.
  destruct (Z.ltb_spec 0 (forkpoint (heap st a))); [|discriminate].
  split; [assumption|]. simpl in H.
  destruct (_prev_hash (heap st a)); [eauto | discriminate].
Qed.

Lemma swap_parameters_self (self p : addr) (fh : string) (st : state) :
  self <> p ->
  heap (swap_parameters self p fh st) self
  = {| forkpoint := forkpoint (heap st p);
       parent := parent (heap st p);
       _forkpoint_hash := _forkpoint_hash (heap st p);
       _prev_hash := _prev_hash (heap st p);
       _size := _size (heap st self) |}.
Proof.
  intros Hne. apply Nat.eqb_neq in Hne as Hsp.
  assert (Hps : Nat.eqb p self = false) by (apply Nat.eqb_neq; congruence).
  unfold swap_parameters, swap_prev_hashes, swap_forkpoint_hashes,
    swap_forkpoints, swap_parents, update. simpl.
  rewrite ?Nat.eqb_refl, ?Hsp, ?Hps. simpl. reflexivity.
Qed.

Lemma swap_parameters_parent (self p : addr) (fh : string) (st : state) :
  self <> p ->
  heap (swap_parameters self p fh st) p
  = {| forkpoint := forkpoint (heap st self);
       parent := Some self;
       _forkpoint_hash := fh;
       _prev_hash := _prev_hash (heap st self);
       _size := _size (heap st p) |}.
Proof.
  intros Hne. apply Nat.eqb_neq in Hne as Hsp.
  assert (Hps : Nat.eqb p self = false) by (apply Nat.eqb_neq; congruence).
  unfold swap_parameters, swap_prev_hashes, swap_forkpoint_hashes,
    swap_forkpoints, swap_parents, update. simpl.
  rewrite ?Nat.eqb_refl, ?Hsp, ?Hps. simpl. reflexivity.
Qed.


Ltac invert_bind H :=
  cbv beta zeta in H;
  match type of H with
  | bind ?m _ = Ok _ =>
      let a := fresh "a" in
      let Ha := fresh "Hbind" in
      apply bind_ok in H; destruct H as (a & Ha & H)
  end.

Lemma swap_files_and_parameters_true (st st' : state) (self p : addr)
    (b : bool) :
  swap_files_and_parameters st self p = Ok (b, st') -> b = true.
Proof.
  unfold swap_files_and_parameters. intros H.
  repeat invert_bind H. cbv beta zeta in H. congruence.
Qed.

(** The part of [_swap_with_parent] that the guard protects. *)
Lemma swap_guard_false (st st' : state) (self : addr) :
  _swap_with_parent st self = Ok (false, st') <->
  st' = st
  /\ (parent (heap st self) = None
      \/ exists p pw sw,
           parent (heap st self) = Some p
           /\ get_chainwork st p None = Ok pw
           /\ get_chainwork st self None = Ok sw
           /\ sw <= pw).
Proof.
  unfold _swap_with_parent.
  destruct (parent (heap st self)) as [p|] eqn:Hp.
  2:{ split; [intros [= <-]; auto | intros [-> _]; reflexivity]. }
  destruct (get_chainwork st p None) as [pw|e] eqn:Hpw; cbn [bind].
  2:{ split; [discriminate|]. intros [_ [Hc | (p' & pw & sw & [= <-] & Hc & _)]];
      congruence. }
  destruct (get_chainwork st self None) as [sw|e] eqn:Hsw; cbn [bind].
  2:{ split; [discriminate|]. intros [_ [Hc | (p' & pw' & sw & [= <-] & _ & Hc & _)]];
      congruence. }
  destruct (Z.leb_spec sw pw) as [Hle|Hgt].
  - split.
    + intros [= <-]. split; [reflexivity|]. right. exists p, pw, sw. auto.
    + intros [-> _]. reflexivity.
  - split.
    + intros H. apply swap_files_and_parameters_true in H. discriminate.
    + intros [_ [Hc | (p' & pw' & sw' & [= <-] & Hpw' & Hsw' & Hc)]];
        [discriminate|].
      assert (pw' = pw) by congruence. assert (sw' = sw) by congruence. lia.
Qed.

Lemma heap_update_pointers (self p : addr) (i1 i2 : string) (st : state) :
  heap (update_pointers self p i1 i2 st) = heap st.
Proof. reflexivity. Qed.

(** What a completed swap does to the two chains: they exchange their
    parents, forkpoints and hashes, [self] becomes the parent of its
    former parent, and the forkpoint of [self] goes down. *)
Lemma swap_files_and_parameters_ok (st st' : state) (self p : addr) (b : bool) :
  self <> p ->
  parent (heap st self) = Some p ->
  swap_files_and_parameters st self p = Ok (b, st') ->
  b = true
  /\ 0 < forkpoint (heap st self)
  /\ parent (heap st' self) = parent (heap st p)
  /\ parent (heap st' p) = Some self
  /\ forkpoint (heap st' self) = forkpoint (heap st p)
  /\ forkpoint (heap st' p) = forkpoint (heap st self)
  /\ _forkpoint_hash (heap st' self) = _forkpoint_hash (heap st p)
  /\ _prev_hash (heap st' self) = _prev_hash (heap st p)
  /\ _prev_hash (heap st' p) = _prev_hash (heap st self)
  /\ forkpoint (heap st p) < forkpoint (heap st self).
Proof.
  intros Hne Hpar H. unfold swap_files_and_parameters in H.
  invert_bind H. destruct (path_of_fork _ _ _ _ Hpar Hbind) as [Hpos _].
  repeat invert_bind H. cbv beta zeta in H. injection H as <- <-.
  match goal with
  | Hw1 : write st self _ 0 true = Ok ?st1,
    Hw2 : write ?st1 p _ _ true = Ok ?st2,
    Hrep : os_replace (swap_prev_hashes _ _ (swap_forkpoint_hashes _ _ ?fh _))
             ?a2 _ = Ok ?st3,
    Hu1 : update_size ?st3 self = Ok ?st4,
    Hu2 : update_size ?st4 p = Ok ?st5,
    Hassert : py_assert _ = Ok _ |- _ =>
      rename Hw1 into Hw1'; rename Hw2 into Hw2'; rename Hrep into Hrep';
      rename Hu1 into Hu1'; rename Hu2 into Hu2'; rename Hassert into Hassert';
      rename st1 into st1'; rename st2 into st2'; rename st3 into st3';
      rename st4 into st4'; rename st5 into st5'; rename fh into fh';
      rename a2 into src'
  end.
  rename Hw1' into Hw1, Hw2' into Hw2, Hrep' into Hrep, Hu1' into Hu1,
    Hu2' into Hu2, Hassert' into Hassert, st1' into st1, st2' into st2,
    st3' into st3, st4' into st4, st5' into st5, fh' into fh.
  apply write_ok in Hw1. destruct Hw1 as (Hs1 & _).
  apply write_ok in Hw2. destruct Hw2 as (Hs2 & _).
  pose proof (same_attributes_trans _ _ _ Hs1 Hs2) as Hs.
  apply update_size_ok in Hu1. destruct Hu1 as (Hs4 & _).
  apply update_size_ok in Hu2. destruct Hu2 as (Hs5 & _).
  pose proof (same_attributes_trans _ _ _ Hs4 Hs5) as Hs35.
  assert (Hheap3 : heap st3 = heap (swap_parameters self p fh st2)).
  { unfold os_replace in Hrep. destruct (open_file _ src'); [|discriminate].
    simpl in Hrep. injection Hrep as <-. reflexivity. }
  rewrite heap_update_pointers.
  destruct (Hs35 self) as (Hf1 & Hp1 & Hh1 & Hv1).
  destruct (Hs35 p) as (Hf2 & Hp2 & Hh2 & Hv2).
  destruct (Hs self) as (Hf3 & Hp3 & Hh3 & Hv3).
  destruct (Hs p) as (Hf4 & Hp4 & Hh4 & Hv4).
  rewrite Hf1, Hp1, Hh1, Hv1, Hf2, Hp2, Hv2, Hheap3.
  rewrite swap_parameters_self, swap_parameters_parent by assumption. simpl.
  unfold py_assert in Hassert.
  destruct (Z.ltb_spec (forkpoint (heap st p)) (forkpoint (heap st self)));
    [|discriminate].
  repeat split; try congruence; assumption.
Qed.


(** *** The loop of [swap_with_parent] *)

Lemma reparent_siblings_forkpoint (siblings : list addr) (st st' : state)
    (self : addr) :
  reparent_siblings st self siblings = Ok st' ->
  forall a, forkpoint (heap st' a) = forkpoint (heap st a).
Proof.
  revert st. induction siblings as [|s rest IH]; intros st H a.
  - injection H as <-. reflexivity.
  - cbn [reparent_siblings] in H. invert_bind H.
    cbv beta zeta in H. apply IH with (a := a) in H. rewrite H.
    destruct a0; [|reflexivity]. unfold update. simpl.
    destruct (Nat.eqb a s) eqn:He; [|reflexivity].
    apply Nat.eqb_eq in He. subst. reflexivity.
Qed.

Lemma swap_lowers_forkpoint (st st' : state) (self : addr) :
  _swap_with_parent st self = Ok (true, st') ->
  0 < forkpoint (heap st self)
  /\ forkpoint (heap st' self) < forkpoint (heap st self).
Proof.
  intros H. unfold _swap_with_parent in H.
  destruct (parent (heap st self)) as [p|] eqn:Hp; [|discriminate].
  destruct (get_chainwork st p None) as [pw|e] eqn:Hpw; [|discriminate].
  destruct (get_chainwork st self None) as [sw|e] eqn:Hsw; [|discriminate].
  cbn [bind] in H. destruct (Z.leb_spec sw pw) as [Hle|Hgt]; [discriminate|].
  assert (Hne : self <> p) by (intros ->; rewrite Hpw in Hsw; injection Hsw; lia).
  destruct (swap_files_and_parameters_ok _ _ _ _ _ Hne Hp H)
    as (_ & Hpos & _ & _ & Hf & _ & _ & _ & _ & Hlt).
  split; [exact Hpos | lia].
Qed.

(** The loop never runs out of [fuel]: any amount of at least the
    forkpoint gives the same result. *)
Lemma swap_loop_fuel (fuel1 fuel2 : nat) (st : state) (self : addr) (cnt : Z) :
  (Z.to_nat (forkpoint (heap st self)) <= fuel1)%nat ->
  (Z.to_nat (forkpoint (heap st self)) <= fuel2)%nat ->
  swap_loop fuel1 st self cnt = swap_loop fuel2 st self cnt.
Proof.
  revert fuel2 st cnt. induction fuel1 as [|f1 IH]; intros fuel2 st cnt H1 H2.
  - destruct fuel2 as [|f2]; [reflexivity|]. cbn [swap_loop].
    destruct (_swap_with_parent st self) as [[[] st1]|e] eqn:Hs;
      cbn [bind negb]; try reflexivity.
    apply swap_lowers_forkpoint in Hs. lia.
  - destruct fuel2 as [|f2]; cbn [swap_loop];
      destruct (_swap_with_parent st self) as [[[] st1]|e] eqn:Hs;
      cbn [bind negb]; try reflexivity.
    + apply swap_lowers_forkpoint in Hs. lia.
    + destruct (_ <? cnt + 1); [reflexivity|].
      destruct (parent (heap st self)); [|reflexivity].
      destruct (reparent_siblings st1 self _) as [st2|e] eqn:Hr;
        cbn [bind]; [|reflexivity].
      apply swap_lowers_forkpoint in Hs.
      pose proof (reparent_siblings_forkpoint _ _ _ _ Hr self) as Hf.
      apply IH; lia.
Qed.

End Swap.


(** ** Saving a chunk *)

Section SaveChunk.
Context `{X : Externals}.

(** C7: a [save_chunk] that the chain handles itself writes with
    [truncate] true exactly when [index >= len(checkpoints)]; hence for
    a chunk within the checkpoint region the bytes of the file outside
    the written range are left as they are, as are the other files; and
    there the call does return when the file of the chain exists. *)
Theorem save_chunk_local_write (st : state) (self : addr) (index : Z)
    (chunk : list byte) :
  0 <= index ->
  (index < Z.of_nat (length CHECKPOINTS) -> parent (heap st self) = None) ->
  save_chunk st self index chunk
  = (st' <- write st self (written_chunk st self index chunk)
              (written_offset st self index)
              (Z.of_nat (length CHECKPOINTS) <=? index) ;;
     swap_with_parent st' self)
  /\ (index < Z.of_nat (length CHECKPOINTS) ->
      forall st', save_chunk st self index chunk = Ok st' ->
      exists name old new,
        path st self = Ok name
        /\ files st !! name = Some old
        /\ files st' !! name = Some new
        /\ (forall other, other <> name ->
                          files st' !! other = files st !! other)
        /\ (forall (i : nat) b,
              old !! i = Some b ->
              (i < Z.to_nat (written_offset st self index)
               \/ Z.to_nat (written_offset st self index)
                  + length (written_chunk st self index chunk) <= i)%nat ->
              new !! i = Some b))
  /\ (index < Z.of_nat (length CHECKPOINTS) ->
      forall name,
        path st self = Ok name -> is_Some (files st !! name) ->
        exists st', save_chunk st self index chunk = Ok st').
Proof.
  intros Hidx Hlocal.
  assert (Heq : save_chunk st self index chunk
    = (st' <- write st self (written_chunk st self index chunk)
                (written_offset st self index)
                (Z.of_nat (length CHECKPOINTS) <=? index) ;;
       swap_with_parent st' self)).
  { unfold save_chunk, written_chunk, written_offset, chunk_offset.
    assert (Hguard : (index <? Z.of_nat (length CHECKPOINTS))
                     && bool_decide (parent (heap st self) <> None) = false).
    { destruct (Z.ltb_spec index (Z.of_nat (length CHECKPOINTS))); [|reflexivity].
      rewrite bool_decide_eq_false_2; [reflexivity|].
      rewrite Hlocal by assumption. auto. }
    assert (Ha : py_assert (0 <=? index) = Ok tt).
    { destruct (Z.leb_spec 0 index); [reflexivity|lia]. }
    rewrite (Z.leb_antisym index).
    destruct recursion_limit; simpl; rewrite Ha; simpl; rewrite Hguard;
      destruct (_ <? 0); reflexivity. }
  split; [exact Heq|]. split.
  2:{ intros Hcp name Hp Hf. rewrite Heq.
      destruct (write_succeeds st self (written_chunk st self index chunk)
                  (written_offset st self index)
                  (Z.of_nat (length CHECKPOINTS) <=? index) name Hp Hf)
        as [st1 Hw].
      { unfold written_offset. destruct (Z.ltb_spec (chunk_offset st self index) 0); lia. }
      rewrite Hw. cbn [bind].
      destruct (write_ok _ _ _ _ _ _ Hw) as (Hs & _).
      destruct (Hs self) as (_ & Hpar & _).
      rewrite swap_with_parent_no_parent by (rewrite Hpar; auto). eauto. }
  intros Hcp st' Hsave. rewrite Heq in Hsave.
  destruct (Z.leb_spec (Z.of_nat (length CHECKPOINTS)) index); [lia|].
  destruct (write st self _ _ false) as [st1|e] eqn:Hw; [|discriminate].
  simpl in Hsave.
  destruct (write_no_truncate _ _ _ _ _ Hw) as (name & old & Hp & Hf & Hoff & Hfs & Hpar).
  rewrite swap_with_parent_no_parent in Hsave
    by (rewrite Hpar; apply Hlocal; assumption).
  injection Hsave as <-.
  exists name, old, (file_write_at old (written_offset st self index)
                       (written_chunk st self index chunk)).
  split; [exact Hp|]. split; [exact Hf|].
  split; [rewrite Hfs; apply lookup_insert_eq|].
  split; [intros other Hne; rewrite Hfs; apply lookup_insert_ne; congruence|].
  intros i b Hi Hout. apply file_write_at_frame; assumption.
Qed.

End SaveChunk.

(** ** The loop of the difficulty adapter *)

Section DifficultyLoop.
Context `{X : Externals}.

(** [difficulty_data_loop] never runs out of [fuel]: any amount of at
    least [h + 1] gives the same result. *)
Lemma difficulty_data_loop_fuel (fuel1 fuel2 : nat) (st : state) (self : addr)
    (extra_blocks : gmap Z header) (algo h : Z) :
  (Z.to_nat (h + 1) <= fuel1)%nat -> (Z.to_nat (h + 1) <= fuel2)%nat ->
  difficulty_data_loop fuel1 st self extra_blocks algo h
  = difficulty_data_loop fuel2 st self extra_blocks algo h.
Proof.
  revert fuel2 h. induction fuel1 as [|f1 IH]; intros fuel2 h H1 H2.
  - destruct fuel2 as [|f2]; [reflexivity|]. cbn [difficulty_data_loop].
    destruct (Z.ltb_spec h 0); [reflexivity|lia].
  - destruct fuel2 as [|f2]; cbn [difficulty_data_loop];
      (destruct (Z.ltb_spec h 0); [reflexivity|]); [lia|].
    destruct (match extra_blocks !! h with
              | Some e => Ok (Some e)
              | None => read_header st self h
              end) as [[e|]|err]; cbn [bind]; try reflexivity.
    destruct (getitem "powdata" (powdata e)) as [pd|err]; cbn [bind];
      [|reflexivity].
    destruct (powdata_algo pd =? algo); [reflexivity|].
    apply IH; lia.
Qed.

(** Below height 0 there is no block. *)
Lemma difficulty_data_for_block_negative (st : state) (self : addr)
    (algo h : Z) (extra_blocks : gmap Z header) :
  h < 0 -> difficulty_data_for_block st self algo h extra_blocks = Ok None.
Proof.
  intros Hh. unfold difficulty_data_for_block.
  destruct (Z.to_nat (h + 1)); cbn [difficulty_data_loop];
    (destruct (Z.ltb_spec h 0); [reflexivity|lia]).
Qed.

End DifficultyLoop.

(** ** The round trip of the compact encoding *)

Section CompactRoundTrip.

Lemma nibble_div (n : Z) (i : nat) :
  nibble n i = (n / 16 ^ Z.of_nat i) mod 16.
Proof.
  unfold nibble. rewrite Z.shiftr_div_pow2 by lia.
  change 15 with (Z.ones 4). rewrite Z.land_ones by lia.
  rewrite Z.pow_mul_r by lia. reflexivity.
Qed.

Lemma nibble_range (n : Z) (i : nat) : 0 <= nibble n i < 16.
Proof. rewrite nibble_div. apply Z.mod_pos_bound. lia. Qed.

Lemma nibble_quotient (n : Z) (b w : nat) :
  nibble (n / 16 ^ Z.of_nat b) w = nibble n (w + b).
Proof.
  rewrite !nibble_div. rewrite Z.div_div by lia.
  rewrite <- Z.pow_add_r by lia. do 3 f_equal. lia.
Qed.

Lemma nibble_small (n : Z) (j i : nat) :
  0 <= n < 16 ^ Z.of_nat j -> (j <= i)%nat -> nibble n i = 0.
Proof.
  intros Hn Hji. rewrite nibble_div. rewrite Z.div_small; [reflexivity|].
  split; [lia|]. apply Z.lt_le_trans with (16 ^ Z.of_nat j); [lia|].
  apply Z.pow_le_mono_r; lia.
Qed.

Lemma nibble_multiple (m : Z) (b i : nat) :
  (i < b)%nat -> nibble (m * 16 ^ Z.of_nat b) i = 0.
Proof.
  intros Hi. rewrite nibble_div.
  replace (Z.of_nat b) with (Z.of_nat i + (Z.of_nat (b - i - 1) + 1)) by lia.
  rewrite !Z.pow_add_r by lia.
  replace (m * (16 ^ Z.of_nat i * (16 ^ Z.of_nat (b - i - 1) * 16 ^ 1)))
    with ((m * 16 ^ Z.of_nat (b - i - 1) * 16) * 16 ^ Z.of_nat i) by ring.
  rewrite Z.div_mul by (apply Z.pow_nonzero; lia).
  apply Z.mod_mul. lia.
Qed.

Lemma hex_fixed_zeros (w : nat) (n : Z) :
  (forall i, (i < w)%nat -> nibble n i = 0) ->
  hex_fixed w n = str_repeat "0" w.
Proof.
  induction w as [|w IH]; intros H; [reflexivity|].
  cbn [hex_fixed str_repeat]. rewrite H by lia. rewrite IH; [reflexivity|].
  intros i Hi. apply H. lia.
Qed.

Lemma hex_fixed_split (w b : nat) (n : Z) :
  hex_fixed (w + b) n = hex_fixed w (n / 16 ^ Z.of_nat b) +:+ hex_fixed b n.
Proof.
  induction w as [|w IH]; [reflexivity|].
  change (hex_fixed (S w + b) n)
    with (String (hex_char (nibble n (w + b))) (hex_fixed (w + b) n)).
  rewrite IH, <- nibble_quotient. reflexivity.
Qed.

Lemma length_append (a b : string) :
  String.length (a +:+ b) = (String.length a + String.length b)%nat.
Proof. induction a as [|c a IH]; simpl; [reflexivity | rewrite IH; reflexivity]. Qed.

Lemma length_str_repeat (c : ascii) (n : nat) :
  String.length (str_repeat c n) = n.
Proof. induction n as [|n IH]; simpl; [reflexivity | rewrite IH; reflexivity]. Qed.

Lemma length_hex_fixed (w : nat) (n : Z) : String.length (hex_fixed w n) = w.
Proof. induction w as [|w IH]; simpl; [reflexivity | rewrite IH; reflexivity]. Qed.

(** A target below [2^256] is printed with exactly 64 digits. *)
Lemma format_064x_fixed (t : Z) :
  0 <= t < 2 ^ 256 -> format_064x t = hex_fixed 64 t.
Proof.
  intros Ht. unfold format_064x, hex_width.
  destruct (Z.ltb_spec t 0); [lia|].
  destruct (Z.leb_spec t 0); [reflexivity|].
  assert (Z.log2 t < 256) by (apply Z.log2_lt_pow2; lia).
  assert (0 <= Z.log2 t) by apply Z.log2_nonneg.
  replace (Nat.max 64 (Z.to_nat (Z.log2 t / 4 + 1))) with 64%nat; [reflexivity|].
  assert (Z.log2 t / 4 < 64) by (apply Z.div_lt_upper_bound; lia).
  lia.
Qed.

(** The loop removes the leading pairs of zeros in front of at least
    five more characters. *)
Lemma strip_zero_pairs_zeros (j fuel : nat) (s : string) :
  (j <= fuel)%nat -> (5 <= String.length s)%nat ->
  strip_zero_pairs fuel (str_repeat "0" (2 * j) +:+ s)
  = strip_zero_pairs (fuel - j) s.
Proof.
  revert fuel. induction j as [|j IH]; intros fuel Hf Hs.
  - simpl. rewrite Nat.sub_0_r. reflexivity.
  - destruct fuel as [|fuel]; [lia|].
    replace (2 * S j)%nat with (S (S (2 * j))) by lia.
    change (str_repeat "0" (S (S (2 * j))) +:+ s)
      with (String "0" (String "0" (str_repeat "0" (2 * j) +:+ s))).
    cbn [strip_zero_pairs str_take str_drop].
    change (String.eqb "00" "00") with true. cbn [andb].
    replace (6 <? String.length _)%nat with true.
    + rewrite IH by lia. reflexivity.
    + symmetry. apply Nat.ltb_lt. cbn [String.length].
      rewrite length_append, length_str_repeat. lia.
Qed.

Lemma strip_zero_pairs_stop (fuel : nat) (s : string) :
  String.eqb (str_take 2 s) "00" && (6 <? String.length s)%nat = false ->
  strip_zero_pairs fuel s = s.
Proof.
  intros H. destruct fuel; cbn [strip_zero_pairs]; [reflexivity|].
  rewrite H. reflexivity.
Qed.

(** A property of the sixteen digit values is checked value by value. *)
Lemma digit_cases (P : Z -> Prop) :
  (forall k : nat, (k < 16)%nat -> P (Z.of_nat k)) ->
  forall n, 0 <= n < 16 -> P n.
Proof.
  intros H n Hn. rewrite <- (Z2Nat.id n) by lia. apply H. lia.
Qed.

Lemma hex_value_hex_char (n : Z) :
  0 <= n < 16 -> hex_value (hex_char n) = Some n.
Proof.
  revert n. apply digit_cases. intros k Hk.
  do 16 (destruct k as [|k]; [reflexivity|]). lia.
Qed.

Lemma hex_char_zero (n : Z) :
  0 <= n < 16 -> (Ascii.eqb (hex_char n) "0" = true <-> n = 0).
Proof.
  revert n. apply digit_cases. intros k Hk.
  destruct k as [|k]; [split; reflexivity|].
  do 15 (destruct k as [|k]; [split; intros Hc; discriminate Hc|]). lia.
Qed.

Lemma byte_to_Z_of_Z (v : Z) : 0 <= v < 256 -> byte_to_Z (byte_of_Z v) = v.
Proof.
  intros H. unfold byte_to_Z, byte_of_Z. rewrite Z.mod_small by lia.
  destruct (Byte.of_N (Z.to_N v)) as [b|] eqn:Hb.
  - apply Byte.to_of_N in Hb. rewrite Hb. lia.
  - apply Byte.of_N_None_iff in Hb. lia.
Qed.

(** Six digits decode to the number that they denote. *)
Lemma bfh_six_digits (n5 n4 n3 n2 n1 n0 : Z) :
  0 <= n5 < 16 -> 0 <= n4 < 16 -> 0 <= n3 < 16 ->
  0 <= n2 < 16 -> 0 <= n1 < 16 -> 0 <= n0 < 16 ->
  exists b,
    bfh (String (hex_char n5) (String (hex_char n4) (String (hex_char n3)
          (String (hex_char n2) (String (hex_char n1)
             (String (hex_char n0) EmptyString)))))) = Ok b
    /\ int_from_bytes_big b
       = ((((n5 * 16 + n4) * 16 + n3) * 16 + n2) * 16 + n1) * 16 + n0.
Proof.
  intros H5 H4 H3 H2 H1 H0. cbn [bfh].
  rewrite !hex_value_hex_char by assumption. cbn [bind].
  eexists. split; [reflexivity|].
  unfold int_from_bytes_big. cbn [fold_left].
  rewrite !byte_to_Z_of_Z by lia. lia.
Qed.

(** A number below [16^6] is the value of its six lowest digits. *)
Lemma six_nibbles (m : Z) :
  0 <= m < 16 ^ 6 ->
  m = ((((nibble m 5 * 16 + nibble m 4) * 16 + nibble m 3) * 16
        + nibble m 2) * 16 + nibble m 1) * 16 + nibble m 0.
Proof.
  intros Hm. rewrite !nibble_div.
  change (16 ^ Z.of_nat 5) with 1048576. change (16 ^ Z.of_nat 4) with 65536.
  change (16 ^ Z.of_nat 3) with 4096. change (16 ^ Z.of_nat 2) with 256.
  change (16 ^ Z.of_nat 1) with 16. change (16 ^ Z.of_nat 0) with 1.
  change (16 ^ 6) with 16777216 in Hm.
  Z.div_mod_to_equations. lia.
Qed.

Lemma str_append_assoc (a b c : string) : (a +:+ b) +:+ c = a +:+ (b +:+ c).
Proof.
  induction a as [|x a IH]; [reflexivity|].
  change (String x ((a +:+ b) +:+ c) = String x (a +:+ (b +:+ c))).
  f_equal. exact IH.
Qed.

Lemma hex_fixed_6 (m : Z) (rest : string) :
  hex_fixed 6 m +:+ rest
  = digits6 (nibble m 5) (nibble m 4) (nibble m 3) (nibble m 2) (nibble m 1)
      (nibble m 0) rest.
Proof. reflexivity. Qed.

(** The text of [m * 256^k] for a mantissa [m] of at most six digits. *)
Lemma format_shifted (m : Z) (k : nat) :
  0 <= m < 16 ^ 6 -> (k <= 29)%nat ->
  format_064x (m * 16 ^ Z.of_nat (2 * k))
  = hex_fixed (64 - 2 * k) m +:+ str_repeat "0" (2 * k).
Proof.
  intros Hm Hk.
  assert (Hpos : 0 < 16 ^ Z.of_nat (2 * k)) by (apply Z.pow_pos_nonneg; lia).
  rewrite format_064x_fixed.
  - replace 64%nat with ((64 - 2 * k) + 2 * k)%nat at 1 by lia.
    rewrite hex_fixed_split. rewrite Z.div_mul by lia.
    rewrite (hex_fixed_zeros (2 * k)); [reflexivity|].
    intros i Hi. apply nibble_multiple. exact Hi.
  - split; [apply Z.mul_nonneg_nonneg; lia|].
    apply Z.lt_le_trans with (16 ^ 6 * 16 ^ Z.of_nat (2 * k)).
    + apply Z.mul_lt_mono_pos_r; lia.
    + rewrite <- Z.pow_add_r by lia.
      change (2 ^ 256) with (16 ^ 64). apply Z.pow_le_mono_r; lia.
Qed.

Lemma hex_fixed_leading_zeros (w : nat) (m : Z) :
  0 <= m < 16 ^ 6 ->
  hex_fixed (w + 6) m = str_repeat "0" w +:+ hex_fixed 6 m.
Proof.
  intros Hm. rewrite hex_fixed_split. rewrite Z.div_small by exact Hm.
  rewrite hex_fixed_zeros; [reflexivity|].
  intros i Hi. apply (nibble_small 0 0); simpl; lia.
Qed.

(** What [target_to_bits] makes of the stripped text. *)
Lemma target_to_bits_stripped (t v : Z) (c : string) :
  strip_zero_pairs (String.length (str_drop 2 (format_064x t)))
    (str_drop 2 (format_064x t)) = c ->
  (exists b, bfh (str_take 6 c) = Ok b /\ int_from_bytes_big b = v) ->
  target_to_bits t
  = if 0x800000 <=? v
    then Ok (Z.lor (Z.shiftl (Z.of_nat (String.length c) / 2 + 1) 24)
               (Z.shiftr v 8))
    else Ok (Z.lor (Z.shiftl (Z.of_nat (String.length c) / 2) 24) v).
Proof.
  intros Hc (b & Hb & Hv). unfold target_to_bits. cbv zeta.
  rewrite Hc, Hb. cbn [bind]. rewrite Hv. reflexivity.
Qed.

Lemma digits_not_zero_pair (a b : Z) (rest : string) :
  0 <= a < 16 -> 0 <= b < 16 -> a <> 0 \/ b <> 0 ->
  String.eqb (str_take 2 (String (hex_char a) (String (hex_char b) rest))) "00"
  = false.
Proof.
  intros Ha Hb Hne. cbn [str_take].
  apply String.eqb_neq. intros [= H1 H2].
  assert (a = 0) by (apply hex_char_zero; [lia | rewrite H1; reflexivity]).
  assert (b = 0) by (apply hex_char_zero; [lia | rewrite H2; reflexivity]).
  lia.
Qed.

(** The text of a target below the top byte: an even number of zeros,
    the six digits of the mantissa, and [2 * k] zeros. *)
Lemma target_to_bits_digits (n5 n4 n3 n2 n1 n0 : Z) (k j : nat) (t : Z) :
  0 <= n5 < 8 -> 0 <= n4 < 16 -> 0 <= n3 < 16 ->
  0 <= n2 < 16 -> 0 <= n1 < 16 -> 0 <= n0 < 16 ->
  (n5 <> 0 \/ n4 <> 0 \/ 8 <= n3) ->
  str_drop 2 (format_064x t)
  = str_repeat "0" (2 * j) +:+ digits6 n5 n4 n3 n2 n1 n0 (str_repeat "0" (2 * k)) ->
  target_to_bits t
  = Ok (Z.lor (Z.shiftl (Z.of_nat k + 3) 24)
          (((((n5 * 16 + n4) * 16 + n3) * 16 + n2) * 16 + n1) * 16 + n0)).
Proof.
  intros H5 H4 H3 H2 H1 H0 Hnorm Hc.
  set (m := ((((n5 * 16 + n4) * 16 + n3) * 16 + n2) * 16 + n1) * 16 + n0).
  set (s := digits6 n5 n4 n3 n2 n1 n0 (str_repeat "0" (2 * k))) in *.
  assert (Hls : String.length s = (6 + 2 * k)%nat).
  { unfold s, digits6. cbn [String.length]. rewrite length_str_repeat. lia. }
  assert (Hstrip : forall c, strip_zero_pairs (62 + 2 * k) s = c ->
     strip_zero_pairs (String.length (str_drop 2 (format_064x t)))
       (str_drop 2 (format_064x t)) = c).
  { intros c <-. rewrite Hc. rewrite length_append, length_str_repeat, Hls.
    rewrite strip_zero_pairs_zeros by lia.
    destruct (decide (n5 <> 0 \/ n4 <> 0)) as [Hd|Hd].
    - rewrite !strip_zero_pairs_stop; [reflexivity| |];
        unfold s, digits6; rewrite digits_not_zero_pair by (assumption || lia);
        reflexivity.
    - assert (n5 = 0) by lia. assert (n4 = 0) by lia. subst n5 n4.
      destruct k as [|k].
      + rewrite !strip_zero_pairs_stop; reflexivity.
      + replace (2 * j + (6 + 2 * S k) - j)%nat with (S (j + 2 * k + 7)) by lia.
        replace (62 + 2 * S k)%nat with (S (63 + 2 * k)) by lia.
        unfold s, digits6. cbn [strip_zero_pairs str_take str_drop hex_char].
        change (String.eqb "00" "00") with true. cbn [andb String.length].
        replace (6 <? _)%nat with true
          by (symmetry; apply Nat.ltb_lt; rewrite length_str_repeat; lia).
        rewrite !strip_zero_pairs_stop; [reflexivity| |];
          rewrite digits_not_zero_pair by (assumption || lia); reflexivity. }
  destruct (decide (n5 <> 0 \/ n4 <> 0)) as [Hd|Hd].
  - (* the mantissa has three bytes *)
    rewrite (target_to_bits_stripped t m s).
    + destruct (Z.leb_spec 0x800000 m); [unfold m in *; lia|].
      rewrite Hls. do 3 f_equal.
      replace (Z.of_nat (6 + 2 * k)) with ((Z.of_nat k + 3) * 2) by lia.
      apply Z.div_mul. lia.
    + apply Hstrip. apply strip_zero_pairs_stop.
      unfold s, digits6. rewrite digits_not_zero_pair by (assumption || lia).
      reflexivity.
    + unfold s, digits6. cbn [str_take]. apply bfh_six_digits; lia.
  - assert (n5 = 0) by lia. assert (n4 = 0) by lia.
    assert (8 <= n3) by lia. subst n5 n4.
    destruct k as [|k].
    + (* two bytes, with the exponent 3 *)
      rewrite (target_to_bits_stripped t m s).
      * destruct (Z.leb_spec 0x800000 m); [unfold m in *; lia|].
        rewrite Hls. reflexivity.
      * apply Hstrip. apply strip_zero_pairs_stop. reflexivity.
      * unfold s, digits6. cbn [str_take]. apply bfh_six_digits; lia.
    + (* two bytes: the loop takes the zero byte in front of them away *)
      set (s' := String (hex_char n3) (String (hex_char n2) (String (hex_char n1)
                   (String (hex_char n0) (str_repeat "0" (2 * S k)))))).
      rewrite (target_to_bits_stripped t (m * 256) s').
      * destruct (Z.leb_spec 0x800000 (m * 256)); [|unfold m in *; lia].
        unfold s'. cbn [String.length]. rewrite length_str_repeat.
        replace (Z.of_nat (S (S (S (S (2 * S k)))))) with ((Z.of_nat k + 3) * 2) by lia.
        rewrite Z.div_mul by lia. rewrite Z.shiftr_div_pow2 by lia.
        change (2 ^ 8) with 256. rewrite Z.div_mul by lia.
        do 3 f_equal. lia.
      * apply Hstrip.
        replace (62 + 2 * S k)%nat with (S (63 + 2 * k)) by lia.
        unfold s, digits6. cbn [strip_zero_pairs str_take str_drop hex_char].
        change (String.eqb "00" "00") with true. cbn [andb String.length].
        replace (6 <? _)%nat with true
          by (symmetry; apply Nat.ltb_lt; rewrite length_str_repeat; lia).
        apply strip_zero_pairs_stop. unfold s'.
        rewrite digits_not_zero_pair by (assumption || lia). reflexivity.
      * unfold s'. replace (2 * S k)%nat with (S (S (2 * k))) by lia.
        cbn [str_take str_repeat].
        destruct (bfh_six_digits n3 n2 n1 n0 0 0) as (b & Hb & Hv); try lia.
        exists b. split; [exact Hb|]. rewrite Hv. unfold m. lia.
Qed.

(** The text of a target that fills the top byte but for its first two
    digits: nothing is stripped. *)
Lemma target_to_bits_top (n3 n2 n1 n0 : Z) (t : Z) :
  8 <= n3 < 16 -> 0 <= n2 < 16 -> 0 <= n1 < 16 -> 0 <= n0 < 16 ->
  str_drop 2 (format_064x t)
  = String (hex_char n3) (String (hex_char n2) (String (hex_char n1)
      (String (hex_char n0) (str_repeat "0" 58)))) ->
  target_to_bits t
  = Ok (Z.lor (Z.shiftl 0x20 24) (((n3 * 16 + n2) * 16 + n1) * 16 + n0)).
Proof.
  intros H3 H2 H1 H0 Hc.
  set (m := ((n3 * 16 + n2) * 16 + n1) * 16 + n0).
  rewrite (target_to_bits_stripped t (m * 256) _ eq_refl).
  - rewrite Hc. rewrite strip_zero_pairs_stop
      by (rewrite digits_not_zero_pair by lia; reflexivity).
    destruct (Z.leb_spec 0x800000 (m * 256)); [|unfold m in *; lia].
    rewrite Z.shiftr_div_pow2 by lia. change (2 ^ 8) with 256.
    rewrite Z.div_mul by lia. reflexivity.
  - rewrite Hc. rewrite strip_zero_pairs_stop
      by (rewrite digits_not_zero_pair by lia; reflexivity).
    cbn [str_take str_repeat].
    destruct (bfh_six_digits n3 n2 n1 n0 0 0) as (b & Hb & Hv); try lia.
    exists b. split; [exact Hb|]. rewrite Hv. unfold m. lia.
Qed.

(** The exponent and the mantissa make up the bits. *)
Lemma bits_recombine (bits : Z) :
  Z.lor (Z.shiftl (Z.shiftr bits 24) 24) (Z.land bits 0xffffff) = bits.
Proof.
  apply Z.bits_inj'. intros i Hi.
  rewrite Z.lor_spec, Z.land_spec, Z.shiftl_spec by exact Hi.
  change 0xffffff with (Z.ones 24).
  destruct (Z.lt_ge_cases i 24) as [Hlt|Hge].
  - rewrite Z.testbit_neg_r by lia. rewrite Z.ones_spec_low by lia.
    rewrite andb_true_r. reflexivity.
  - rewrite Z.shiftr_spec by lia. rewrite Z.ones_spec_high by lia.
    rewrite andb_false_r, orb_false_r. f_equal. lia.
Qed.

(** The round trip of a value of 32 bits whose target leaves the top
    byte of the 256 bits free. *)
Lemma target_to_bits_roundtrip_32 (bits : Z) :
  0x03 <= Z.shiftr bits 24 <= 0x20 ->
  0x8000 <= Z.land bits 0xffffff <= 0x7fffff ->
  Z.shiftr bits 24 < 0x20 \/ Z.land bits 0xffffff <= 0xffff ->
  (t <- bits_to_target bits ;; target_to_bits t) = Ok bits.
Proof.
  intros He Hm Htop.
  pose proof (bits_recombine bits) as Hbits.
  set (e := Z.shiftr bits 24) in *. set (m := Z.land bits 0xffffff) in *.
  assert (HbitsN : Z.land e 0xff = e).
  { change 0xff with (Z.ones 8). rewrite Z.land_ones by lia.
    apply Z.mod_small. lia. }
  unfold bits_to_target. fold e. rewrite HbitsN. fold m.
  destruct (Z.leb_spec 3 e); [|lia]. destruct (Z.leb_spec e 32); [|lia].
  destruct (Z.leb_spec 32768 m); [|lia]. destruct (Z.leb_spec m 8388607); [|lia].
  cbn [andb negb bind].
  set (k := Z.to_nat (e - 3)).
  assert (Hk : (k <= 29)%nat) by lia.
  assert (Hm6 : 0 <= m < 16 ^ 6) by (change (16 ^ 6) with 16777216; lia).
  assert (Ht : Z.shiftl m (8 * (e - 3)) = m * 16 ^ Z.of_nat (2 * k)).
  { rewrite Z.shiftl_mul_pow2 by lia. f_equal.
    replace (8 * (e - 3)) with (4 * Z.of_nat (2 * k)) by lia.
    rewrite Z.pow_mul_r by lia. reflexivity. }
  rewrite Ht.
  pose proof (six_nibbles m Hm6) as Hsum.
  pose proof (nibble_range m 5). pose proof (nibble_range m 4).
  pose proof (nibble_range m 3). pose proof (nibble_range m 2).
  pose proof (nibble_range m 1). pose proof (nibble_range m 0).
  pose proof (format_shifted m k Hm6 Hk) as Hfmt.
  assert (Hke : Z.of_nat k + 3 = e) by lia.
  destruct (decide (k <= 28)%nat) as [Hlow|Hhigh].
  - rewrite (target_to_bits_digits (nibble m 5) (nibble m 4) (nibble m 3)
               (nibble m 2) (nibble m 1) (nibble m 0) k (28 - k)); try lia.
    + rewrite <- Hsum, Hke, Hbits. reflexivity.
    + rewrite Hfmt.
      replace (64 - 2 * k)%nat with ((58 - 2 * k) + 6)%nat by lia.
      rewrite hex_fixed_leading_zeros by exact Hm6.
      rewrite str_append_assoc, hex_fixed_6.
      replace (58 - 2 * k)%nat with (S (S (2 * (28 - k)))) by lia.
      reflexivity.
  - assert (Hk29 : k = 29%nat) by lia.
    assert (Hn5 : nibble m 5 = 0) by lia.
    assert (Hn4 : nibble m 4 = 0) by lia.
    rewrite (target_to_bits_top (nibble m 3) (nibble m 2) (nibble m 1)
               (nibble m 0)); try lia.
    + replace (((nibble m 3 * 16 + nibble m 2) * 16 + nibble m 1) * 16
               + nibble m 0) with m by lia.
      replace 0x20 with e by lia. rewrite Hbits. reflexivity.
    + rewrite Hfmt, Hk29. replace (64 - 2 * 29)%nat with 6%nat by reflexivity.
      rewrite hex_fixed_6. rewrite Hn5, Hn4. reflexivity.
Qed.

(** The low 32 bits of [bits] have the exponent byte and the mantissa of
    [bits]. *)
Lemma low_bits_exponent (bits : Z) :
  Z.shiftr (Z.land bits 0xffffffff) 24 = Z.land (Z.shiftr bits 24) 0xff.
Proof. rewrite Z.shiftr_land. reflexivity. Qed.

Lemma low_bits_mantissa (bits : Z) :
  Z.land (Z.land bits 0xffffffff) 0xffffff = Z.land bits 0xffffff.
Proof. rewrite <- Z.land_assoc. reflexivity. Qed.

Lemma bits_to_target_low_bits (bits : Z) :
  bits_to_target (Z.land bits 0xffffffff) = bits_to_target bits.
Proof.
  unfold bits_to_target.
  rewrite low_bits_exponent, low_bits_mantissa, <- Z.land_assoc.
  reflexivity.
Qed.

(** X1: for every [bits] that [bits_to_target] accepts and whose target
    leaves the top byte of the 256 bits free (an exponent byte below
    [0x20], or the exponent byte [0x20] with a mantissa of two bytes),
    the round trip through [target_to_bits] returns the low 32 bits of
    [bits]: [bits] itself exactly when [0 <= bits < 2^32]. *)
Theorem target_to_bits_roundtrip (bits : Z) :
  0x03 <= Z.land (Z.shiftr bits 24) 0xff <= 0x20 ->
  0x8000 <= Z.land bits 0xffffff <= 0x7fffff ->
  Z.land (Z.shiftr bits 24) 0xff < 0x20 \/ Z.land bits 0xffffff <= 0xffff ->
  (t <- bits_to_target bits ;; target_to_bits t)
  = Ok (Z.land bits 0xffffffff)
  /\ (Z.land bits 0xffffffff = bits <-> 0 <= bits < 2 ^ 32).
Proof.
  intros He Hm Htop. split.
  - rewrite <- bits_to_target_low_bits.
    apply target_to_bits_roundtrip_32;
      rewrite ?low_bits_exponent, ?low_bits_mantissa; assumption.
  - change 0xffffffff with (Z.ones 32). rewrite Z.land_ones by lia.
    rewrite Z.mod_small_iff by lia. lia.
Qed.

End CompactRoundTrip.
(** ** Targets and work *)

Section Work.
Context `{X : Externals}.

Lemma bits_to_target_ok (bits t : Z) :
  bits_to_target bits = Ok t ->
  let e := Z.land (Z.shiftr bits 24) 0xff in
  let m := Z.land bits 0xffffff in
  (0x03 <= e <= 0x20) /\ (0x8000 <= m <= 0x7fffff)
  /\ t = m * 2 ^ (8 * (e - 3)) /\ 0x8000 <= t < 2 ^ 255.
Proof.
  intros H e m. unfold bits_to_target in H. fold e m in H.
  destruct (Z.leb_spec 3 e); destruct (Z.leb_spec e 32);
    destruct (Z.leb_spec 32768 m); destruct (Z.leb_spec m 8388607);
    cbn [andb negb] in H; try discriminate H.
  rewrite Z.shiftl_mul_pow2 in H by lia. injection H as <-.
  assert (Hp : 0 < 2 ^ (8 * (e - 3))) by (apply Z.pow_pos_nonneg; lia).
  split; [lia|]. split; [lia|]. split; [reflexivity|]. split.
  - apply Z.le_trans with (m * 1); [lia|].
    apply Z.mul_le_mono_nonneg_l; lia.
  - apply Z.lt_le_trans with (2 ^ 23 * 2 ^ (8 * (e - 3))).
    + apply Z.mul_lt_mono_pos_r; [exact Hp | lia].
    + rewrite <- Z.pow_add_r by lia. apply Z.pow_le_mono_r; lia.
Qed.

(** X2: Every target that [bits_to_target] returns is the mantissa shifted by
    the exponent, of at least [0x8000] and below [2^255]; it raises
    exactly when the exponent or the mantissa is out of range. *)
Theorem bits_to_target_range (bits : Z) :
  let e := Z.land (Z.shiftr bits 24) 0xff in
  let m := Z.land bits 0xffffff in
  (forall t, bits_to_target bits = Ok t ->
             (0x03 <= e <= 0x20) /\ (0x8000 <= m <= 0x7fffff)
             /\ t = m * 2 ^ (8 * (e - 3)) /\ 0x8000 <= t < 2 ^ 255)
  /\ ((0x03 <= e <= 0x20) /\ (0x8000 <= m <= 0x7fffff) ->
      bits_to_target bits = Ok (m * 2 ^ (8 * (e - 3))))
  /\ (~ ((0x03 <= e <= 0x20) /\ (0x8000 <= m <= 0x7fffff)) ->
      raises (bits_to_target bits)).
Proof.
  intros e m. split; [intros t Ht; exact (bits_to_target_ok bits t Ht)|].
  unfold bits_to_target. fold e m.
  destruct (Z.leb_spec 3 e); destruct (Z.leb_spec e 32);
    destruct (Z.leb_spec 32768 m); destruct (Z.leb_spec m 8388607);
    cbn [andb negb].
  1:{ rewrite Z.shiftl_mul_pow2 by lia. split.
      - intros _. reflexivity.
      - intros Hn. exfalso. apply Hn. lia. }
  all: (split; [intros [? ?]; lia | intros _; eexists; reflexivity]).
Qed.

(** X3: The work of a header is [2^256 / (target + 1)] scaled by the weight
    of its algorithm: at least 2, and no less for a lower target. *)
Theorem chainwork_of_header_value (algo_log2_weight : Z -> result Z)
    (hdr : header) (work : Z) :
  Blockchain.chainwork_of_header algo_log2_weight hdr = Ok work ->
  exists pd t w,
    powdata hdr = Some pd
    /\ bits_to_target (powdata_bits pd) = Ok t
    /\ algo_log2_weight (powdata_algo pd) = Ok w
    /\ 0 <= w
    /\ work = 2 ^ 256 / (t + 1) * 2 ^ w
    /\ 2 <= work
    /\ (forall hdr' pd' t' work',
          powdata hdr' = Some pd' ->
          bits_to_target (powdata_bits pd') = Ok t' ->
          algo_log2_weight (powdata_algo pd') = Ok w ->
          Blockchain.chainwork_of_header algo_log2_weight hdr' = Ok work' ->
          t' <= t -> work <= work').
Proof.
  assert (Hval : forall h wk,
    Blockchain.chainwork_of_header algo_log2_weight h = Ok wk ->
    exists pd t w,
      powdata h = Some pd /\ bits_to_target (powdata_bits pd) = Ok t
      /\ algo_log2_weight (powdata_algo pd) = Ok w /\ 0 <= w
      /\ wk = 2 ^ 256 / (t + 1) * 2 ^ w /\ 0x8000 <= t < 2 ^ 255).
  { intros h wk H. unfold Blockchain.chainwork_of_header in H.
    destruct (powdata h) as [pd|]; [|discriminate]. cbn [getitem bind] in H.
    destruct (bits_to_target (powdata_bits pd)) as [t|] eqn:Ht; [|discriminate].
    cbn [bind] in H.
    destruct (algo_log2_weight (powdata_algo pd)) as [w|] eqn:Hw; [|discriminate].
    cbn [bind] in H. destruct (Z.ltb_spec w 0); [discriminate|].
    injection H as <-.
    destruct (bits_to_target_ok _ _ Ht) as (_ & _ & _ & Hb).
    exists pd, t, w. repeat split; try assumption; try lia.
    rewrite Z.shiftl_mul_pow2 by lia. f_equal.
    replace (2 ^ 256 - t - 1) with (2 ^ 256 + (-1) * (t + 1)) by lia.
    rewrite Z.div_add by lia. lia. }
  intros H. destruct (Hval _ _ H) as (pd & t & w & Hpd & Ht & Hw & Hw0 & -> & Hb).
  exists pd, t, w. repeat split; try assumption.
  - assert (2 <= 2 ^ 256 / (t + 1)).
    { apply Z.div_le_lower_bound; [lia|].
      change (2 ^ 256) with (2 * 2 ^ 255). lia. }
    assert (1 <= 2 ^ w) by (apply Z.lt_pred_le, Z.pow_pos_nonneg; lia). nia.
  - intros hdr' pd' t' work' Hpd' Ht' Hw' H' Hle.
    destruct (Hval _ _ H') as (pd2 & t2 & w2 & Hpd2 & Ht2 & Hw2 & _ & -> & Hb2).
    rewrite Hpd' in Hpd2. injection Hpd2 as <-.
    rewrite Ht' in Ht2. injection Ht2 as <-.
    rewrite Hw' in Hw2. injection Hw2 as <-.
    apply Z.mul_le_mono_nonneg_r; [apply Z.pow_nonneg; lia|].
    apply Z.div_le_compat_l; lia.
Qed.

End Work.

(** ** The pure header *)

Section PureHeader.
Context `{X : Externals}.

Lemma byte_to_Z_range (b : byte) : 0 <= byte_to_Z b < 256.
Proof.
  unfold byte_to_Z. pose proof (Byte.to_N_bounded b). lia.
Qed.

Lemma int_from_bytes_little_range (b : list byte) :
  0 <= int_from_bytes_little b < 256 ^ Z.of_nat (length b).
Proof.
  induction b as [|x b IH]; [simpl; lia|].
  cbn [int_from_bytes_little fold_right length].
  fold (int_from_bytes_little b).
  rewrite Nat2Z.inj_succ, Z.pow_succ_r by lia.
  pose proof (byte_to_Z_range x). nia.
Qed.

Lemma fold_big_endian (b : list byte) (acc : Z) :
  fold_left (fun a x => a * 256 + byte_to_Z x) b acc
  = acc * 256 ^ Z.of_nat (length b) + int_from_bytes_big b.
Proof.
  unfold int_from_bytes_big. revert acc.
  induction b as [|x b IH]; intros acc; [simpl; lia|].
  cbn [fold_left length]. rewrite IH, (IH (0 * 256 + byte_to_Z x)).
  rewrite Nat2Z.inj_succ, Z.pow_succ_r by lia. ring.
Qed.

Lemma int_from_bytes_big_app (a b : list byte) :
  int_from_bytes_big (a ++ b)
  = int_from_bytes_big a * 256 ^ Z.of_nat (length b) + int_from_bytes_big b.
Proof.
  unfold int_from_bytes_big at 1. rewrite fold_left_app.
  apply fold_big_endian.
Qed.

Lemma int_from_bytes_big_range (b : list byte) :
  0 <= int_from_bytes_big b < 256 ^ Z.of_nat (length b).
Proof.
  induction b as [|x b IH] using rev_ind; [vm_compute; split; congruence|].
  rewrite int_from_bytes_big_app, length_app, Nat2Z.inj_add, Z.pow_add_r by lia.
  cbn [length]. change (256 ^ Z.of_nat 1) with 256.
  change (int_from_bytes_big [x]) with (0 * 256 + byte_to_Z x).
  pose proof (byte_to_Z_range x). nia.
Qed.

(** A slice within the bounds is a [take] of a [drop]. *)
Lemma slice_take_drop {A : Type} (l : list A) (lo hi : Z) :
  0 <= lo <= hi -> hi <= Z.of_nat (length l) ->
  slice l lo hi = take (Z.to_nat (hi - lo)) (drop (Z.to_nat lo) l).
Proof.
  intros H1 H2. unfold slice, clamp_index.
  destruct (Z.ltb_spec lo 0); [lia|]. destruct (Z.ltb_spec hi 0); [lia|].
  rewrite !Z.min_l by lia. reflexivity.
Qed.

Lemma length_slice {A : Type} (l : list A) (lo hi : Z) :
  0 <= lo <= hi -> hi <= Z.of_nat (length l) ->
  length (slice l lo hi) = Z.to_nat (hi - lo).
Proof.
  intros H1 H2. rewrite slice_take_drop by assumption.
  rewrite length_take, length_drop. lia.
Qed.

Lemma length_bh2u (b : list byte) :
  String.length (bh2u b) = (2 * length b)%nat.
Proof.
  induction b as [|x b IH]; [reflexivity|].
  change (bh2u (x :: b))
    with (String (hex_char (nibble (byte_to_Z x) 1))
            (String (hex_char (nibble (byte_to_Z x) 0)) (bh2u b))).
  cbn [String.length length]. rewrite IH. lia.
Qed.

Lemma bh2u_app (a b : list byte) : bh2u (a ++ b) = bh2u a +:+ bh2u b.
Proof.
  induction a as [|x a IH]; [reflexivity|].
  change (bh2u ((x :: a) ++ b))
    with (String (hex_char (nibble (byte_to_Z x) 1))
            (String (hex_char (nibble (byte_to_Z x) 0)) (bh2u (a ++ b)))).
  rewrite IH. reflexivity.
Qed.

(** The fields of a pure header partition its 80 bytes. *)
Lemma pure_header_partition (s : list byte) :
  length s = 80%nat ->
  s = (slice s 0 4 ++ slice s 4 36 ++ slice s 36 68 ++ slice s 68 72
       ++ slice s 72 76 ++ slice s 76 80)%list.
Proof.
  intros Hs.
  rewrite (slice_take_drop s 0 4), (slice_take_drop s 4 36),
    (slice_take_drop s 36 68), (slice_take_drop s 68 72),
    (slice_take_drop s 72 76), (slice_take_drop s 76 80) by lia.
  change (Z.to_nat (4 - 0)) with 4%nat. change (Z.to_nat (36 - 4)) with 32%nat.
  change (Z.to_nat (68 - 36)) with 32%nat. change (Z.to_nat (72 - 68)) with 4%nat.
  change (Z.to_nat (76 - 72)) with 4%nat. change (Z.to_nat (80 - 76)) with 4%nat.
  change (Z.to_nat 0) with 0%nat. change (Z.to_nat 4) with 4%nat.
  change (Z.to_nat 36) with (4 + 32)%nat.
  change (Z.to_nat 68) with (4 + 32 + 32)%nat.
  change (Z.to_nat 72) with (4 + 32 + 32 + 4)%nat.
  change (Z.to_nat 76) with (4 + 32 + 32 + 4 + 4)%nat.
  change (drop 0 s) with s.
  rewrite <- (take_drop 4 s) at 1. f_equal.
  rewrite <- (take_drop 32 (drop 4 s)) at 1. f_equal. rewrite drop_drop.
  rewrite <- (take_drop 32 (drop (4 + 32) s)) at 1. f_equal. rewrite drop_drop.
  rewrite <- (take_drop 4 (drop (4 + 32 + 32) s)) at 1. f_equal. rewrite drop_drop.
  rewrite <- (take_drop 4 (drop (4 + 32 + 32 + 4) s)) at 1. f_equal. rewrite drop_drop.
  symmetry. apply take_ge. rewrite length_drop. lia.
Qed.

Lemma deserialize_pure_header_length (s : list byte) (height : option Z)
    (hd : header) :
  deserialize_pure_header s height = Ok hd -> length s = 80%nat.
Proof.
  unfold deserialize_pure_header, PURE_HEADER_SIZE.
  destruct s as [|x s]; [discriminate|].
  destruct (Z.eqb_spec (Z.of_nat (length (x :: s))) 80); [lia | discriminate].
Qed.

(** X4: [deserialize_pure_header] accepts exactly the inputs of 80 bytes; the
    integers of the header it returns are unsigned 32-bit numbers, its
    two hashes have 64 characters, its height is the one given, and it
    has neither powdata nor chainwork. *)
Theorem deserialize_pure_header_fields (s : list byte) (height : option Z) :
  (length s <> 80%nat ->
   exists msg, deserialize_pure_header s height = Err (InvalidHeader msg))
  /\ (length s = 80%nat ->
      exists hd v p m t b n,
        deserialize_pure_header s height = Ok hd
        /\ version hd = Some v /\ 0 <= v < 2 ^ 32
        /\ prev_block_hash hd = Some p /\ String.length p = 64%nat
        /\ merkle_root hd = Some m /\ String.length m = 64%nat
        /\ timestamp hd = Some t /\ 0 <= t < 2 ^ 32
        /\ bits hd = Some b /\ 0 <= b < 2 ^ 32
        /\ nonce hd = Some n /\ 0 <= n < 2 ^ 32
        /\ block_height hd = Some height
        /\ powdata hd = None /\ chainwork hd = None).
Proof.
  unfold deserialize_pure_header, PURE_HEADER_SIZE. split.
  - intros Hne. destruct s as [|x s]; [eexists; reflexivity|].
    destruct (Z.eqb_spec (Z.of_nat (length (x :: s))) 80); [lia|].
    eexists. reflexivity.
  - intros Hs. destruct s as [|x s]; [discriminate|]. rewrite Hs.
    cbn [Z.of_nat Z.eqb Pos.of_succ_nat negb].
    change (Z.of_nat 80 =? 80) with true. cbn [negb].
    do 7 eexists. split; [reflexivity|]. cbn.
    assert (Hint : forall lo hi : Z, 0 <= lo -> hi <= 80 -> hi - lo = 4 ->
              0 <= int_from_bytes_little (slice (x :: s) lo hi) < 2 ^ 32).
    { intros lo hi H1 H2 H3.
      pose proof (int_from_bytes_little_range (slice (x :: s) lo hi)) as Hr.
      rewrite length_slice in Hr by lia. rewrite H3 in Hr. exact Hr. }
    assert (Hhash : forall lo hi : Z, 0 <= lo -> hi <= 80 -> hi - lo = 32 ->
              String.length (hash_encode (slice (x :: s) lo hi)) = 64%nat).
    { intros lo hi H1 H2 H3. unfold hash_encode.
      rewrite length_bh2u, length_rev, length_slice by lia. lia. }
    repeat split; try reflexivity;
      first [ apply Hint; lia | apply Hhash; lia ].
Qed.

(** X5: Serialising the header that [deserialize_pure_header] made of 80
    bytes gives back these bytes in hexadecimal, when [int_to_hex] and
    [rev_hex] are the inverses of the little-endian reading and of
    [hash_encode]. *)
Theorem serialize_deserialize_pure_header (s : list byte) (height : option Z)
    (hd : header) :
  (forall b, length b = 4%nat ->
             int_to_hex (int_from_bytes_little b) 4 = Ok (bh2u b)) ->
  (forall b, rev_hex (hash_encode b) = Ok (bh2u b)) ->
  deserialize_pure_header s height = Ok hd ->
  serialize_pure_header hd = Ok (bh2u s).
Proof.
  intros Hint Hrev Hd.
  pose proof (deserialize_pure_header_length s height hd Hd) as Hs.
  unfold deserialize_pure_header, PURE_HEADER_SIZE in Hd.
  destruct s as [|x s]; [discriminate|]. rewrite Hs in Hd.
  change (negb (Z.of_nat 80 =? 80)) with false in Hd. cbv iota in Hd.
  injection Hd as <-. set (s0 := x :: s) in *.
  unfold serialize_pure_header. cbn [version prev_block_hash merkle_root
    timestamp bits nonce getitem bind].
  rewrite (Hint (slice s0 0 4)) by (apply (length_slice s0 0 4); lia).
  cbn [bind]. rewrite !Hrev. cbn [bind].
  rewrite (Hint (slice s0 68 72)) by (apply (length_slice s0 68 72); lia).
  rewrite (Hint (slice s0 72 76)) by (apply (length_slice s0 72 76); lia).
  rewrite (Hint (slice s0 76 80)) by (apply (length_slice s0 76 80); lia).
  cbn [bind]. f_equal.
  rewrite (pure_header_partition s0 Hs) at 7.
  rewrite !bh2u_app. reflexivity.
Qed.

End PureHeader.

(** ** Acceptance of a header *)

Section Acceptance.
Context `{X : Externals}.

Lemma powdata_fill_prev_block_hash (hdr : header) :
  powdata (fill_prev_block_hash hdr) = powdata hdr.
Proof. unfold fill_prev_block_hash. destruct (prev_block_hash hdr); reflexivity. Qed.

Lemma block_height_fill_prev_block_hash (hdr : header) :
  block_height (fill_prev_block_hash hdr) = block_height hdr.
Proof. unfold fill_prev_block_hash. destruct (prev_block_hash hdr); reflexivity. Qed.

(** X6: [verify_header] accepts a header exactly when its hash can be
    computed and is the expected one, if one is given, its previous hash
    is the given one, its bits are 0 and, unless on testnet, the bits of
    its powdata encode the target and the AuxPoW is valid or not to be
    checked; at or below the last checkpoint [skip_auxpow] makes no
    difference. *)
Theorem verify_header_accepts (hdr : header) (prev_hash : string)
    (target : Z) (expected : option string) (skip_auxpow : bool) :
  (verify_header hdr prev_hash target expected skip_auxpow = Ok tt <->
   exists _hash,
     hash_header (Some hdr) = Ok _hash
     /\ expected_hash_ok expected _hash
     /\ prev_block_hash (fill_prev_block_hash hdr) = Some prev_hash
     /\ bits hdr = Some 0
     /\ (TESTNET = true
         \/ exists pd h,
              powdata hdr = Some pd
              /\ target_to_bits target = Ok (powdata_bits pd)
              /\ block_height hdr = Some (Some h)
              /\ (h <= max_checkpoint \/ skip_auxpow = true
                  \/ powdata_verify pd _hash = Ok tt)))
  /\ (forall h, block_height hdr = Some (Some h) -> h <= max_checkpoint ->
        verify_header hdr prev_hash target expected skip_auxpow
        = verify_header hdr prev_hash target expected true).
Proof.
  split.
  - unfold verify_header.
    destruct (hash_header (Some hdr)) as [_hash|e] eqn:Hh; cbn [bind].
    2:{ split; [discriminate | intros (x & [=] & _)]. }
    rewrite bits_fill_prev_block_hash, powdata_fill_prev_block_hash,
      block_height_fill_prev_block_hash.
    destruct (truthy expected && negb (bool_decide (expected = Some _hash)))
      eqn:He.
    { split; [discriminate|]. intros (x & [= <-] & Hx & _).
      rewrite (expected_hash_ok_test _ _ Hx) in He. discriminate. }
    assert (Hexp : expected_hash_ok expected _hash).
    { unfold expected_hash_ok. destruct (truthy expected); [|auto].
      right. cbn [andb] in He. apply negb_false_iff, bool_decide_eq_true in He.
      exact He. }
    destruct (decide (Some prev_hash = prev_block_hash (fill_prev_block_hash hdr)))
      as [Hp|Hp].
    2:{ rewrite bool_decide_eq_false_2 by exact Hp. cbn [negb].
        split; [discriminate|]. intros (x & _ & _ & Hc & _). congruence. }
    rewrite bool_decide_eq_true_2 by exact Hp. cbn [negb].
    destruct (decide (bits hdr = Some 0)) as [Hb|Hb].
    2:{ rewrite bool_decide_eq_false_2 by exact Hb. cbn [negb].
        split; [destruct (bits hdr); discriminate|].
        intros (x & _ & _ & _ & Hc & _). congruence. }
    rewrite bool_decide_eq_true_2 by exact Hb. cbn [negb].
    destruct TESTNET eqn:Ht.
    { split; [|reflexivity]. intros _. exists _hash. auto 10. }
    destruct (target_to_bits target) as [tbits|e] eqn:Htb; cbn [bind].
    2:{ split; [discriminate|].
        intros (x & _ & _ & _ & _ & [Hc | (pd & h & _ & Hc & _)]); discriminate. }
    destruct (powdata hdr) as [pd|] eqn:Hpd; cbn [getitem bind].
    2:{ split; [discriminate|].
        intros (x & _ & _ & _ & _ & [Hc | (pd & h & Hc & _)]); discriminate. }
    destruct (Z.eqb_spec tbits (powdata_bits pd)) as [->|Hne]; cbn [negb].
    2:{ split; [discriminate|].
        intros (x & _ & _ & _ & _ & [Hc | (pd' & h & [= <-] & [= Hc] & _)]);
          [discriminate | contradiction]. }
    destruct (block_height hdr) as [[h|]|] eqn:Hbh.
    2,3: (split; [discriminate|];
          intros (x & _ & _ & _ & _ & [Hc | (pd' & h & _ & _ & Hc & _)]);
          discriminate).
    destruct (Z.leb_spec h max_checkpoint) as [Hle|Hgt]; cbn [negb].
    { split; [|reflexivity]. intros _. exists _hash.
      repeat split; try assumption; try congruence.
      right. exists pd, h. auto 10. }
    destruct skip_auxpow; cbn [negb].
    { split; [|reflexivity]. intros _. exists _hash.
      repeat split; try assumption; try congruence.
      right. exists pd, h. auto 10. }
    split.
    + intros Hv. exists _hash. repeat split; try assumption; try congruence.
      right. exists pd, h. destruct (powdata_verify pd _hash) as [[]|]; [|discriminate].
      auto 10.
    + intros (x & [= <-] & _ & _ & _ & [Hc | (pd' & h' & [= <-] & _ & [= <-]
             & [Hc | [Hc | Hc]])]); try discriminate; try lia. exact Hc.
  - intros h Hbh Hle. unfold verify_header.
    destruct (hash_header (Some hdr)); cbn [bind]; [|reflexivity].
    rewrite block_height_fill_prev_block_hash, Hbh.
    destruct (Z.leb_spec h max_checkpoint); [reflexivity | lia].
Qed.

End Acceptance.

(** ** The difficulty adapter *)

Section DifficultyData.
Context `{X : Externals}.

Lemma first_at_or_below_height (h : Z) (hdrs : list difficulty_data)
    (dd : difficulty_data) :
  first_at_or_below h hdrs = Some dd -> dd_height dd <= h /\ In dd hdrs.
Proof.
  induction hdrs as [|x hdrs IH]; [discriminate|]. cbn [first_at_or_below].
  destruct (Z.leb_spec (dd_height x) h).
  - intros [= <-]. split; [assumption | left; reflexivity].
  - intros Hf. destruct (IH Hf). split; [assumption | right; assumption].
Qed.

(** X7: The data that [difficulty_data_for_block] returns are of a block at
    or below the height asked for, and not below 0 when they come from a
    header; below height 0 there are none. *)
Theorem difficulty_data_for_block_height (st : state) (self : addr)
    (algo h : Z) (extra_blocks : gmap Z header) :
  (h < 0 -> difficulty_data_for_block st self algo h extra_blocks = Ok None)
  /\ (forall dd,
        difficulty_data_for_block st self algo h extra_blocks = Ok (Some dd) ->
        dd_height dd <= h
        /\ ((0 <= dd_height dd
             /\ exists e pd,
                  (extra_blocks !! dd_height dd = Some e
                   \/ (extra_blocks !! dd_height dd = None
                       /\ read_header st self (dd_height dd) = Ok (Some e)))
                  /\ powdata e = Some pd /\ powdata_algo pd = algo
                  /\ dd_bits dd = powdata_bits pd
                  /\ timestamp e = Some (dd_timestamp dd))
            \/ exists cp hdrs,
                 In cp CHECKPOINTS
                 /\ cp_algo_headers cp !! pretty algo = Some hdrs
                 /\ In dd hdrs)).
Proof.
  split; [apply difficulty_data_for_block_negative|].
  unfold difficulty_data_for_block. generalize (Z.to_nat (h + 1)) as fuel.
  intros fuel. revert h. induction fuel as [|fuel IH]; intros h dd;
    cbn [difficulty_data_loop].
  - destruct (h <? 0); discriminate.
  - destruct (Z.ltb_spec h 0); [discriminate|].
    destruct (extra_blocks !! h) as [e0|] eqn:Hx.
    + cbn [bind]. destruct (powdata e0) as [pd|] eqn:Hpd; [|discriminate].
      cbn [getitem bind]. destruct (Z.eqb_spec (powdata_algo pd) algo) as [Ha|Ha].
      * destruct (timestamp e0) as [ts|] eqn:Hts; [|discriminate].
        cbn [getitem bind]. intros [= <-]. cbn [dd_height dd_bits dd_timestamp].
        split; [lia|]. left. split; [lia|]. exists e0, pd. auto 10.
      * intros Hrec. destruct (IH _ _ Hrec) as [Hle Hrest].
           split; [lia | exact Hrest].
    + destruct (read_header st self h) as [[e0|]|err] eqn:Hr; cbn [bind];
        [| |discriminate].
      * destruct (powdata e0) as [pd|] eqn:Hpd; [|discriminate].
        cbn [getitem bind]. destruct (Z.eqb_spec (powdata_algo pd) algo) as [Ha|Ha].
        -- destruct (timestamp e0) as [ts|] eqn:Hts; [|discriminate].
           cbn [getitem bind]. intros [= <-]. cbn [dd_height dd_bits dd_timestamp].
           split; [lia|]. left. split; [lia|]. exists e0, pd. auto 10.
        -- intros Hrec. destruct (IH _ _ Hrec) as [Hle Hrest].
           split; [lia | exact Hrest].
      * destruct (max_checkpoint <? h); [discriminate|].
        destruct (Py.index CHECKPOINTS (h / 2016)) as [cp|] eqn:Hcp; [|discriminate].
        cbn [bind].
        destruct (cp_algo_headers cp !! pretty algo) as [hdrs|] eqn:Hh; [|discriminate].
        cbn [getitem bind].
        destruct (first_at_or_below h (rev hdrs)) as [d|] eqn:Hf; [|discriminate].
        intros [= <-]. apply first_at_or_below_height in Hf. destruct Hf as [Hle Hin].
        split; [exact Hle|]. right. exists cp, hdrs. split; [|split].
        -- unfold Py.index in Hcp. destruct (_ || _); [discriminate|].
           destruct (nth_error CHECKPOINTS _) eqn:Hn; [|discriminate].
           injection Hcp as <-. eapply nth_error_In. exact Hn.
        -- exact Hh.
        -- apply in_rev. exact Hin.
Qed.

End DifficultyData.

(** ** The functions on the registry *)

Section RegistryProperties.
Context `{X : Externals}.

(** The chain that a search returns passes the test, and every chain in
    front of it fails it; the search returns none exactly when every
    chain fails the test. *)
Lemma first_chain_some (test : addr -> result bool) (chains : list addr)
    (b : addr) :
  Registry.first_chain test chains = Ok (Some b) ->
  exists before after,
    chains = (before ++ b :: after)%list
    /\ test b = Ok true
    /\ Forall (fun c => test c = Ok false) before.
Proof.
  induction chains as [|c rest IH]; [discriminate|].
  cbn [Registry.first_chain].
  destruct (test c) as [[]|e] eqn:Ht; cbn [bind]; [| |discriminate].
  - intros [= <-]. exists [], rest. auto.
  - intros Hrest. destruct (IH Hrest) as (before & after & -> & Hb & Hall).
    exists (c :: before), after. auto.
Qed.

Lemma first_chain_none (test : addr -> result bool) (chains : list addr) :
  Registry.first_chain test chains = Ok None <->
  Forall (fun c => test c = Ok false) chains.
Proof.
  induction chains as [|c rest IH]; cbn [Registry.first_chain].
  - split; [constructor | reflexivity].
  - destruct (test c) as [[]|e] eqn:Ht; cbn [bind].
    + split; [discriminate | intros Hc; inversion Hc; congruence].
    + rewrite IH. split; [intros Hc; constructor; assumption
                         | intros Hc; inversion Hc; assumption].
    + split; [discriminate | intros Hc; inversion Hc; congruence].
Qed.

(** X8: The chain that [can_connect(header)] returns is registered, its tip
    is right below the height of the header, and the header connects to
    it; the chains registered in front of it do not connect.  It
    returns [None] exactly when no registered chain connects. *)
Theorem registry_can_connect_tip (st : state) (hdr : option header) :
  (forall b,
     Registry.can_connect st hdr = Ok (Some b) ->
     In b (map snd (blockchains st))
     /\ Store.can_connect st b hdr true false = Ok true
     /\ (exists hd h, hdr = Some hd /\ block_height hd = Some (Some h)
                      /\ height st b = h - 1)
     /\ exists before after,
          map snd (blockchains st) = (before ++ b :: after)%list
          /\ Forall (fun c => Store.can_connect st c hdr true false = Ok false)
               before)
  /\ (Registry.can_connect st hdr = Ok None <->
      Forall (fun c => Store.can_connect st c hdr true false = Ok false)
        (map snd (blockchains st))).
Proof.
  split; [|apply first_chain_none].
  intros b Hb. apply first_chain_some in Hb.
  destruct Hb as (before & after & Heq & Hc & Hall).
  unfold Registry.chains_of in Heq.
  split; [rewrite Heq; apply in_elt|]. split; [exact Hc|].
  split; [|exists before, after; auto].
  destruct hdr as [hd|]; [|discriminate].
  destruct (block_height hd) as [[h|]|] eqn:Hbh.
  - exists hd, h. split; [reflexivity|]. split; [exact Hbh|].
    rewrite (can_connect_height st b hd h true false Hbh) in Hc.
    destruct (height_check_cases st b h true) as [(Hm & _) | (_ & Hok)].
    + rewrite Hm in Hc. discriminate.
    + apply Hok. reflexivity.
  - unfold Store.can_connect in Hc. rewrite Hbh in Hc. discriminate.
  - unfold Store.can_connect in Hc. rewrite Hbh in Hc. discriminate.
Qed.

(** X9: The chain that [check_header(header)] returns is registered and has
    the hash of the header at the height of the header. *)
Theorem registry_check_header_contains (st : state) (hdr : option header)
    (b : addr) :
  Registry.check_header st hdr = Ok (Some b) ->
  In b (map snd (blockchains st))
  /\ exists hd h header_hash,
       hdr = Some hd /\ block_height hd = Some (Some h)
       /\ hash_header (Some hd) = Ok header_hash
       /\ String.length header_hash = 64%nat
       /\ get_hash st b h = Ok header_hash.
Proof.
  destruct hdr as [hd|]; [|discriminate]. cbn [Registry.check_header].
  intros Hb. apply first_chain_some in Hb.
  destruct Hb as (before & after & Heq & Hc & _).
  unfold Registry.chains_of in Heq.
  split; [rewrite Heq; apply in_elt|].
  unfold Blockchain.check_header in Hc.
  destruct (hash_header (Some hd)) as [hh|] eqn:Hh; [|discriminate].
  cbn [bind] in Hc.
  destruct (block_height hd) as [[h|]|] eqn:Hbh.
  - exists hd, h, hh. split; [reflexivity|]. split; [exact Hbh|].
    split; [exact Hh|]. unfold check_hash, py_assert in Hc.
    destruct (Nat.eqb_spec (String.length hh) 64); [|discriminate].
    cbn [bind] in Hc.
    destruct (get_hash st b h) as [g|]; [|discriminate].
    injection Hc as Hc. apply String.eqb_eq in Hc. subst g. auto 10.
  - destruct (py_assert _); discriminate.
  - destruct (py_assert _); discriminate.
Qed.

(** *** Sorting by chainwork *)

Lemma insert_desc_perm (x : addr * Z) (l : list (addr * Z)) :
  Permutation (Registry.insert_desc x l) (x :: l).
Proof.
  induction l as [|y l IH]; [reflexivity|]. cbn [Registry.insert_desc].
  destruct (snd x <? snd y); [|reflexivity].
  rewrite IH. apply perm_swap.
Qed.

Lemma sort_desc_perm (l : list (addr * Z)) :
  Permutation (Registry.sort_desc l) l.
Proof.
  induction l as [|x l IH]; [reflexivity|]. cbn [Registry.sort_desc].
  rewrite insert_desc_perm, IH. reflexivity.
Qed.

Lemma insert_desc_sorted (x : addr * Z) (l : list (addr * Z)) :
  StronglySorted by_work_desc l ->
  StronglySorted by_work_desc (Registry.insert_desc x l).
Proof.
  induction 1 as [|y l Hs IH Hall]; cbn [Registry.insert_desc].
  - repeat constructor.
  - destruct (Z.ltb_spec (snd x) (snd y)).
    + constructor; [exact IH|].
      rewrite List.Forall_forall. intros z Hz.
      apply (Permutation_in _ (insert_desc_perm x l)) in Hz.
      destruct Hz as [<- | Hz]; [unfold by_work_desc; lia|].
      rewrite List.Forall_forall in Hall. apply Hall. exact Hz.
    + constructor; [constructor; assumption|].
      constructor; [unfold by_work_desc; lia|].
      eapply Forall_impl; [exact Hall|].
      unfold by_work_desc. intros z Hz. lia.
Qed.

Lemma sort_desc_sorted (l : list (addr * Z)) :
  StronglySorted by_work_desc (Registry.sort_desc l).
Proof.
  induction l as [|x l IH]; [constructor|].
  cbn [Registry.sort_desc]. apply insert_desc_sorted. exact IH.
Qed.

Lemma filter_chains_ok (test : addr -> result bool) (chains l : list addr) :
  Registry.filter_chains test chains = Ok l ->
  forall c, In c l <-> In c chains /\ test c = Ok true.
Proof.
  revert l. induction chains as [|x rest IH]; intros l;
    cbn [Registry.filter_chains].
  - intros [= <-] c. split; [intros [] | intros [[] _]].
  - destruct (test x) as [t|] eqn:Ht; [|discriminate]. cbn [bind].
    destruct (Registry.filter_chains test rest) as [tl|]; [|discriminate].
    cbn [bind]. intros [= <-] c. specialize (IH tl eq_refl c).
    destruct t; cbn [In]; rewrite IH; split.
    + intros [<- | [H1 H2]]; auto.
    + intros [[<- | H1] H2]; auto.
    + intros [H1 H2]; auto.
    + intros [[<- | H1] H2]; [congruence | auto].
Qed.

Lemma with_keys_ok (key : addr -> result Z) (chains : list addr)
    (keyed : list (addr * Z)) :
  Registry.with_keys key chains = Ok keyed ->
  map fst keyed = chains /\ Forall (fun p => key (fst p) = Ok (snd p)) keyed.
Proof.
  revert keyed. induction chains as [|c rest IH]; intros keyed;
    cbn [Registry.with_keys].
  - intros [= <-]. split; [reflexivity | constructor].
  - destruct (key c) as [k|] eqn:Hk; [|discriminate]. cbn [bind].
    destruct (Registry.with_keys key rest) as [tl|]; [|discriminate].
    cbn [bind]. intros [= <-]. destruct (IH tl eq_refl) as [Hm Hf].
    split; [cbn [map fst]; rewrite Hm; reflexivity|].
    constructor; [exact Hk | exact Hf].
Qed.

Lemma keyed_Forall2 (key : addr -> result Z) (l : list (addr * Z)) :
  Forall (fun p => key (fst p) = Ok (snd p)) l ->
  Forall2 (fun c w => key c = Ok w) (map fst l) (map snd l).
Proof. induction 1; cbn [map]; constructor; assumption. Qed.

Lemma sorted_works (l : list (addr * Z)) :
  StronglySorted by_work_desc l -> StronglySorted Z.ge (map snd l).
Proof.
  induction 1 as [|p ps _ IH Hall]; cbn [map]; constructor; [exact IH|].
  rewrite List.Forall_forall in *. intros w Hw. apply in_map_iff in Hw.
  destruct Hw as (q & <- & Hq). specialize (Hall q Hq).
  unfold by_work_desc in Hall. lia.
Qed.

(** X10: The chains that [get_chains_that_contain_header] returns are the
    registered chains that have the given hash at the given height, in
    the order of decreasing chainwork. *)
Theorem get_chains_that_contain_header_sorted (st : state) (hgt : Z)
    (header_hash : string) (l : list addr) :
  Registry.get_chains_that_contain_header st hgt header_hash = Ok l ->
  (forall c, In c l <->
             In c (map snd (blockchains st))
             /\ check_hash st c hgt header_hash = Ok true)
  /\ exists works,
       Forall2 (fun c w => get_chainwork st c None = Ok w) l works
       /\ StronglySorted Z.ge works.
Proof.
  unfold Registry.get_chains_that_contain_header, Registry.chains_of.
  intros H. apply bind_ok in H. destruct H as (chains & Hf & H).
  apply bind_ok in H. destruct H as (keyed & Hk & H). injection H as <-.
  pose proof (filter_chains_ok _ _ _ Hf) as Hmem.
  destruct (with_keys_ok _ _ _ Hk) as [Hfst Hkeys].
  pose proof (sort_desc_perm keyed) as Hperm.
  pose proof (sort_desc_sorted keyed) as Hsorted.
  split.
  - intros c. rewrite <- Hmem, <- Hfst.
    split; intros Hin; eapply Permutation_in; try exact Hin;
      [apply Permutation_map; exact Hperm
      | apply Permutation_map; symmetry; exact Hperm].
  - exists (map snd (Registry.sort_desc keyed)). split.
    + apply keyed_Forall2. rewrite List.Forall_forall in *. intros p Hp.
      apply Hkeys. eapply Permutation_in; [exact Hperm | exact Hp].
    + apply sorted_works. exact Hsorted.
Qed.

End RegistryProperties.

(** ** Records of the headers file *)

Section DiskHeader.
Context `{X : Externals}.

(** X11: A record that [deserialize_disk_header] accepts consists of the 80
    bytes of the pure header, the powdata in base form and 32 bytes of
    chainwork, with nothing after them; the chainwork is below [2^256].
    A record that ends before the 32 bytes of chainwork are complete
    raises [NameError], from the undefined name in the message. *)
Theorem deserialize_disk_header_shape (s : list byte) (height : Z) :
  (forall h, deserialize_disk_header s height = Ok h ->
     exists pd e w,
       powdata_deserialize_base s PURE_HEADER_SIZE = Ok (pd, e)
       /\ PURE_HEADER_SIZE <= Z.of_nat (length s)
       /\ e + 32 = Z.of_nat (length s)
       /\ powdata h = Some pd
       /\ chainwork h = Some w /\ 0 <= w < 2 ^ 256
       /\ w = int_from_bytes_big (slice s e (e + 32))
       /\ block_height h = Some (Some height))
  /\ (forall pd e,
        PURE_HEADER_SIZE <= Z.of_nat (length s) ->
        powdata_deserialize_base s PURE_HEADER_SIZE = Ok (pd, e) ->
        0 <= e -> Z.of_nat (length s) < e + 32 ->
        deserialize_disk_header s height = Err NameError).
Proof.
  unfold deserialize_disk_header, PURE_HEADER_SIZE. split.
  - intros h H. apply bind_ok in H. destruct H as (ph & Hph & H).
    apply bind_ok in H. destruct H as ([pd e] & Hpd & H).
    cbv beta iota zeta in H.
    destruct (Z.ltb_spec (Z.of_nat (length (slice s e (e + 32)))) 32) as [|Hw];
      [discriminate|].
    destruct (Z.eqb_spec (e + 32) (Z.of_nat (length s))) as [He|];
      [|discriminate].
    cbn [negb] in H. injection H as <-.
    pose proof (deserialize_pure_header_length _ _ _ Hph) as Hlen.
    assert (Hs : 80 <= Z.of_nat (length s)).
    { unfold slice in Hlen. rewrite length_take, length_drop in Hlen. lia. }
    exists pd, e, (int_from_bytes_big (slice s e (e + 32))).
    split; [exact Hpd|]. split; [exact Hs|]. split; [exact He|].
    split; [reflexivity|]. split; [reflexivity|].
    split.
    + pose proof (int_from_bytes_big_range (slice s e (e + 32))) as Hr.
      rewrite length_slice in Hr by lia.
      replace (e + 32 - e) with 32 in Hr by lia. exact Hr.
    + split; [reflexivity|].
      unfold deserialize_pure_header in Hph.
      destruct (slice s 0 80); [discriminate|].
      destruct (negb _); [discriminate|]. injection Hph as <-. reflexivity.
  - intros pd e Hs Hpd He Hshort.
    assert (Hlen : length (slice s 0 80) = 80%nat)
      by (rewrite length_slice by lia; reflexivity).
    unfold deserialize_pure_header, PURE_HEADER_SIZE. rewrite Hlen.
    destruct (slice s 0 80) as [|x s0]; [discriminate|].
    change (negb (Z.of_nat 80 =? 80)) with false. cbv iota. cbn [bind].
    rewrite Hpd. cbn [bind]. cbv beta iota zeta.
    destruct (Z.ltb_spec (Z.of_nat (length (slice s e (e + 32)))) 32) as [|Hw];
      [reflexivity|].
    exfalso. unfold slice, clamp_index in Hw.
    rewrite length_take, length_drop in Hw.
    destruct (Z.ltb_spec e 0); [lia|]. destruct (Z.ltb_spec (e + 32) 0); [lia|].
    lia.
Qed.

End DiskHeader.

(** ** The forks of a chain *)

Section Forks.
Context `{X : Externals}.

Lemma list_max_Z_spec (x : Z) (l : list Z) :
  In (Blockchain.list_max_Z x l) (x :: l)
  /\ forall y, In y (x :: l) -> y <= Blockchain.list_max_Z x l.
Proof.
  revert x. induction l as [|z l IH]; intros x; cbn [Blockchain.list_max_Z].
  - split; [left; reflexivity|]. intros y [<- | []]. lia.
  - destruct (IH (Z.max x z)) as [Hin Hmax]. split.
    + destruct Hin as [Heq | Hin]; [|right; right; exact Hin].
      rewrite <- Heq. destruct (Z.max_spec x z) as [[_ ->] | [_ ->]];
        [right; left | left]; reflexivity.
    + intros y [<- | [<- | Hy]].
      * etransitivity; [apply (Z.le_max_l x z) | apply Hmax; left; reflexivity].
      * etransitivity; [apply (Z.le_max_r x z) | apply Hmax; left; reflexivity].
      * apply Hmax. right. exact Hy.
Qed.

(** X12: The direct children of a chain are the registered chains whose
    parent it is.  With no such chain [get_max_forkpoint] is the
    forkpoint of the chain itself, and the size of the branch is the
    size of the chain; otherwise it is the greatest forkpoint of a
    direct child, whatever the forkpoint of the chain. *)
Theorem get_max_forkpoint_children (st : state) (self : addr) :
  (forall c, In c (get_direct_children st self) <->
             In c (map snd (blockchains st))
             /\ parent (heap st c) = Some self)
  /\ (get_direct_children st self = [] ->
      Blockchain.get_max_forkpoint st self = forkpoint (heap st self)
      /\ Blockchain.get_branch_size st self = size st self)
  /\ (forall c, In c (get_direct_children st self) ->
        forkpoint (heap st c) <= Blockchain.get_max_forkpoint st self
        /\ exists c', In c' (get_direct_children st self)
                      /\ Blockchain.get_max_forkpoint st self
                         = forkpoint (heap st c')).
Proof.
  split; [|split].
  - intros c. unfold get_direct_children.
    rewrite <- !list_elem_of_In, list_elem_of_filter. tauto.
  - intros Hnil.
    unfold Blockchain.get_branch_size, Blockchain.get_max_forkpoint,
      Blockchain.get_max_child.
    rewrite Hnil. cbn [map]. split; [reflexivity|]. unfold height. lia.
  - intros c Hc. unfold Blockchain.get_max_forkpoint, Blockchain.get_max_child.
    destruct (get_direct_children st self) as [|c0 cs]; [destruct Hc|].
    cbn [map].
    destruct (list_max_Z_spec (forkpoint (heap st c0))
                (map (fun x => forkpoint (heap st x)) cs)) as [Hin Hmax].
    split.
    + apply Hmax. change (In (forkpoint (heap st c))
        (map (fun x => forkpoint (heap st x)) (c0 :: cs))).
      apply (in_map (fun x => forkpoint (heap st x))). exact Hc.
    + change (In (Blockchain.list_max_Z (forkpoint (heap st c0))
                    (map (fun x => forkpoint (heap st x)) cs))
                 (map (fun x => forkpoint (heap st x)) (c0 :: cs))) in Hin.
      apply in_map_iff in Hin. destruct Hin as (c' & Heq & Hc').
      exists c'. split; [exact Hc' | symmetry; exact Heq].
Qed.

End Forks.

(** ** Appending a header *)

Section Append.
Context `{X : Externals}.

(** At a height of the chain's own file the depth plays no role. *)
Lemma read_header_local (depth : nat) (st : state) (self : addr) (hgt : Z) :
  0 <= hgt -> forkpoint (heap st self) <= hgt ->
  read_header_rec depth st self hgt = read_header_rec 0 st self hgt.
Proof.
  intros H0 Hf. destruct depth; [reflexivity|]. cbn [read_header_rec].
  destruct (Z.ltb_spec hgt 0); [lia|].
  destruct (Z.ltb_spec hgt (forkpoint (heap st self))); [lia|]. reflexivity.
Qed.

(** A read before the written range sees the old bytes. *)
Lemma file_slice_write_before (content data : list byte) (offset o n : Z) :
  0 <= o -> 0 <= n -> o + n <= offset ->
  offset <= Z.of_nat (length content) ->
  file_slice (file_write_at content offset data) o n
  = file_slice content o n.
Proof.
  intros Ho Hn Hle Hlen. unfold file_slice.
  apply list_eq. intros i.
  destruct (decide (i < Z.to_nat n)%nat) as [Hi|Hi].
  - rewrite !lookup_take_lt, !lookup_drop by exact Hi.
    destruct (content !! (Z.to_nat o + i)%nat) as [b|] eqn:Hb.
    + apply file_write_at_frame; [exact Hb | lia].
    + apply lookup_ge_None in Hb. lia.
  - rewrite !lookup_take_ge by lia. reflexivity.
Qed.

(** A read of the written range sees the data, when the write starts
    within the file or at its end. *)
Lemma file_slice_write_at (content data : list byte) (offset : Z) :
  0 <= offset -> offset <= Z.of_nat (length content) ->
  file_slice (file_write_at content offset data) offset
    (Z.of_nat (length data)) = data.
Proof.
  intros Ho Hlen. unfold file_slice.
  rewrite Nat2Z.id. apply list_eq. intros i.
  destruct (decide (i < length data)%nat) as [Hi|Hi].
  - rewrite lookup_take_lt, lookup_drop by exact Hi.
    apply file_write_at_data. exact Hi.
  - rewrite lookup_take_ge by lia. symmetry. apply lookup_ge_None. lia.
Qed.

(** The length of a file after a write that reaches its end. *)
Lemma length_file_write_at (content data : list byte) (offset : Z) :
  data <> [] -> 0 <= offset ->
  Z.of_nat (length content) <= offset + Z.of_nat (length data) ->
  Z.of_nat (length (file_write_at content offset data))
  = offset + Z.of_nat (length data).
Proof.
  intros Hd Ho Hlen. unfold file_write_at.
  destruct data as [|d data]; [congruence|].
  rewrite !length_app, length_file_truncate, length_drop. lia.
Qed.

(** X13: Writing a record of [DISK_HEADER_SIZE] bytes at the end of the file
    of a chain, as [save_header] does, succeeds and makes the chain one
    header longer; [header_at_tip] then finds the record, and [read_header]
    finds at the heights of the file before what it found there before. *)
Theorem write_appends_header (st : state) (self : addr) (name : string)
    (content data : list byte) :
  path st self = Ok name ->
  files st !! name = Some content ->
  size st self = Z.of_nat (length content) / DISK_HEADER_SIZE ->
  Z.of_nat (length data) = DISK_HEADER_SIZE ->
  0 <= forkpoint (heap st self) ->
  exists st',
    write st self data (size st self * DISK_HEADER_SIZE) true = Ok st'
    /\ size st' self = size st self + 1
    /\ height st' self = height st self + 1
    /\ Blockchain.header_at_tip st' self
       = (if bytes_eqb data (replicate (Z.to_nat DISK_HEADER_SIZE) x00)
          then Ok None
          else hd <- deserialize_disk_header data (height st self + 1) ;;
               Ok (Some hd))
    /\ forall h, forkpoint (heap st self) <= h <= height st self ->
                 read_header st' self h = read_header st self h.
Proof.
  intros Hp Hf Hsize Hdata Hfork.
  unfold DISK_HEADER_SIZE, PURE_HEADER_SIZE in *.
  change (80 + 5 + 32) with 117 in *.
  pose proof (Z.div_mod (Z.of_nat (length content)) 117 ltac:(lia)) as Hdm.
  pose proof (Z.mod_pos_bound (Z.of_nat (length content)) 117 ltac:(lia)) as Hmod.
  assert (Hs0 : 0 <= size st self) by (rewrite Hsize; apply Z.div_pos; lia).
  set (off := size st self * 117) in *.
  assert (Hoff : 0 <= off <= Z.of_nat (length content)) by (unfold off; lia).
  assert (Hne : data <> []) by (intros ->; discriminate Hdata).
  set (content' := file_write_at content off data).
  assert (Hlen' : Z.of_nat (length content') = off + 117).
  { unfold content'. rewrite length_file_write_at; [lia | exact Hne | lia | lia]. }
  set (st1 := set_files (<[name := content']> (files st)) st).
  set (st' := update self (with_size (size st self + 1)) st1).
  assert (Hw : write st self data off true = Ok st').
  { unfold write. rewrite Hp. cbn [bind].
    unfold assert_headers_file_available, open_file. rewrite Hf. cbn [bind].
    destruct (Z.ltb_spec off 0); [lia|].
    assert (Heq : (off =? _size (heap st self) * DISK_HEADER_SIZE) = true)
      by (apply Z.eqb_eq; reflexivity).
    rewrite Heq. cbn [negb andb]. fold content'. fold st1.
    unfold update_size. change (path st1 self) with (path st self).
    rewrite Hp. cbn [bind].
    unfold st1 at 1. cbn [files set_files]. rewrite lookup_insert_eq.
    change DISK_HEADER_SIZE with 117.
    rewrite Hlen'. unfold off. rewrite Z.mul_comm.
    replace (117 * size st self + 117) with ((size st self + 1) * 117) by lia.
    rewrite Z.div_mul by lia. reflexivity. }
  assert (Hheap : heap st' self = with_size (size st self + 1) (heap st self)).
  { unfold st', update, st1. cbn [heap set_heap set_files].
    rewrite Nat.eqb_refl. reflexivity. }
  assert (Hp' : path st' self = Ok name).
  { unfold path in *. rewrite Hheap. exact Hp. }
  assert (Hf' : files st' !! name = Some content').
  { unfold st', update, st1. cbn [files set_heap set_files].
    apply lookup_insert_eq. }
  assert (Hsz' : size st' self = size st self + 1)
    by (unfold size at 1; rewrite Hheap; reflexivity).
  assert (Hfk' : forkpoint (heap st' self) = forkpoint (heap st self))
    by (rewrite Hheap; reflexivity).
  assert (Hh' : height st' self = height st self + 1)
    by (unfold height; rewrite Hfk', Hsz'; lia).
  exists st'. split; [exact Hw|]. split; [exact Hsz'|]. split; [exact Hh'|].
  unfold Blockchain.header_at_tip. rewrite Hh'.
  assert (Hread : forall s0 h c0,
            path s0 self = Ok name -> files s0 !! name = Some c0 ->
            0 <= h -> forkpoint (heap s0 self) <= h <= height s0 self ->
            read_header s0 self h
            = (let r := file_slice c0
                          ((h - forkpoint (heap s0 self)) * 117) 117 in
               if Z.of_nat (length r) <? 117
               then Err (Exception "Expected to read a full header.")
               else if bytes_eqb r (replicate (Z.to_nat 117) x00)
               then Ok None
               else hd <- deserialize_disk_header r h ;; Ok (Some hd))).
  { intros s0 h c0 Hp0 Hf0 Hh0 Hr0. unfold read_header.
    rewrite read_header_local by lia. cbn [read_header_rec].
    destruct (Z.ltb_spec h 0); [lia|].
    destruct (Z.ltb_spec h (forkpoint (heap s0 self))); [lia|].
    destruct (Z.ltb_spec (height s0 self) h); [lia|].
    rewrite Hp0. cbn [bind].
    unfold assert_headers_file_available, open_file. rewrite Hf0. cbn [bind].
    rewrite file_read_at_ok
      by (unfold DISK_HEADER_SIZE, PURE_HEADER_SIZE; lia).
    reflexivity. }
  split.
  - rewrite (Hread st' (height st self + 1) content') by
      (try assumption; unfold height in *; lia).
    cbv zeta. rewrite Hfk'.
    replace ((height st self + 1 - forkpoint (heap st self)) * 117) with off
      by (unfold off, height; lia).
    assert (Hrd : file_slice (file_write_at content off data) off 117 = data)
      by (rewrite <- Hdata; apply file_slice_write_at; lia).
    unfold content'. rewrite Hrd.
    destruct (Z.ltb_spec (Z.of_nat (length data)) 117); [lia|]. reflexivity.
  - intros h Hh.
    rewrite (Hread st' h content') by (try assumption; lia).
    rewrite (Hread st h content) by (try assumption; lia).
    cbv zeta. rewrite Hfk'. unfold content'.
    rewrite file_slice_write_before;
      [reflexivity | unfold height in Hh; lia | lia
      | unfold off, height in *; lia | lia].
Qed.

End Append.

(** ** The loop of [swap_with_parent] and the registry *)

Section SwapLoop.
Context `{X : Externals}.

Lemma swap_loop_settles (fuel : nat) (st st' : state) (self : addr) (cnt : Z) :
  swap_loop fuel st self cnt = Ok st' ->
  _swap_with_parent st' self = Ok (false, st')
  /\ forkpoint (heap st' self) <= forkpoint (heap st self)
  /\ (forkpoint (heap st' self) = forkpoint (heap st self) -> st' = st).
Proof.
  revert st cnt. induction fuel as [|fuel IH]; intros st cnt H;
    cbn [swap_loop] in H;
    destruct (_swap_with_parent st self) as [[[] st1]|e] eqn:Hs;
    cbn [bind negb] in H; try discriminate H.
  - destruct (_ <? cnt + 1); [discriminate|].
    destruct (parent (heap st self)); [|discriminate].
    destruct (reparent_siblings st1 self _); discriminate.
  - injection H as <-. pose proof Hs as Hs'.
    apply swap_guard_false in Hs'. destruct Hs' as [-> _].
    split; [exact Hs|]. split; [lia | reflexivity].
  - destruct (_ <? cnt + 1); [discriminate|].
    destruct (parent (heap st self)); [|discriminate].
    destruct (reparent_siblings st1 self _) as [st2|e] eqn:Hr;
      cbn [bind] in H; [|discriminate].
    apply swap_lowers_forkpoint in Hs.
    pose proof (reparent_siblings_forkpoint _ _ _ _ Hr self) as Hf.
    destruct (IH _ _ H) as (Hend & Hle & _).
    split; [exact Hend|]. split; [lia|]. intros Heq. lia.
  - injection H as <-. pose proof Hs as Hs'.
    apply swap_guard_false in Hs'. destruct Hs' as [-> _].
    split; [exact Hs|]. split; [lia | reflexivity].
Qed.

(** X14: [swap_with_parent] returns only when the chain has no parent, or no
    more work than its parent; it has not raised the forkpoint of the
    chain, and has lowered it unless it changed nothing at all. *)
Theorem swap_with_parent_settles (st st' : state) (self : addr) :
  swap_with_parent st self = Ok st' ->
  (parent (heap st' self) = None
   \/ exists p pw sw,
        parent (heap st' self) = Some p
        /\ get_chainwork st' p None = Ok pw
        /\ get_chainwork st' self None = Ok sw
        /\ sw <= pw)
  /\ forkpoint (heap st' self) <= forkpoint (heap st self)
  /\ (st' = st \/ forkpoint (heap st' self) < forkpoint (heap st self)).
Proof.
  intros H.
  destruct (swap_loop_settles (Z.to_nat (forkpoint (heap st self))) st st'
              self 0 H) as (Hend & Hle & Heq).
  apply swap_guard_false in Hend. destruct Hend as [_ Hend].
  split; [exact Hend|]. split; [exact Hle|].
  destruct (Z.eq_dec (forkpoint (heap st' self)) (forkpoint (heap st self)))
    as [He|Hne]; [left; exact (Heq He) | right; lia].
Qed.

(** *** The registry after a swap *)

Lemma dict_get_set_eq (k : string) (v : addr) (d : list (string * addr)) :
  dict_get k (dict_set k v d) = Some v.
Proof.
  induction d as [|[k' v'] d IH]; cbn [dict_set dict_get].
  - rewrite String.eqb_refl. reflexivity.
  - destruct (String.eqb k' k) eqn:He; cbn [dict_get].
    + rewrite String.eqb_refl. reflexivity.
    + rewrite He. exact IH.
Qed.

Lemma dict_get_set_ne (k k0 : string) (v : addr) (d : list (string * addr)) :
  k0 <> k -> dict_get k0 (dict_set k v d) = dict_get k0 d.
Proof.
  intros Hne. induction d as [|[k' v'] d IH]; cbn [dict_set dict_get].
  - destruct (String.eqb_spec k k0); [congruence | reflexivity].
  - destruct (String.eqb_spec k' k) as [->|Hk]; cbn [dict_get].
    + destruct (String.eqb_spec k k0); [congruence | reflexivity].
    + rewrite IH. reflexivity.
Qed.

Lemma dict_get_pop_ne (k k0 : string) (d : list (string * addr)) :
  k0 <> k -> dict_get k0 (dict_pop k d) = dict_get k0 d.
Proof.
  intros Hne. induction d as [|[k' v'] d IH]; cbn [dict_pop dict_get];
    [reflexivity|].
  destruct (String.eqb_spec k' k) as [->|Hk]; cbn [dict_get].
  - destruct (String.eqb_spec k k0); [congruence | reflexivity].
  - rewrite IH. reflexivity.
Qed.

Lemma os_replace_ok (st st' : state) (src dst : string) :
  os_replace st src dst = Ok st' ->
  heap st' = heap st /\ blockchains st' = blockchains st.
Proof.
  unfold os_replace. destruct (open_file st src); [|discriminate].
  cbn [bind]. intros [= <-]. split; reflexivity.
Qed.

Ltac bind_inv H :=
  cbv beta zeta in H;
  match type of H with
  | bind ?m _ = Ok _ =>
      let a := fresh "a" in
      let Ha := fresh "Hbind" in
      apply bind_ok in H; destruct H as (a & Ha & H)
  end.

Lemma swap_files_and_parameters_registry (st st' : state) (self p : addr)
    (b : bool) :
  swap_files_and_parameters st self p = Ok (b, st') ->
  exists st0,
    st' = update_pointers self p (get_id st self) (get_id st p) st0
    /\ blockchains st0 = blockchains st.
Proof.
  unfold swap_files_and_parameters. intros H.
  repeat bind_inv H. cbv beta zeta in H. injection H as <- <-.
  eexists. split; [reflexivity|].
  repeat match goal with
         | Hu : update_size _ _ = Ok _ |- _ =>
             apply update_size_ok in Hu; destruct Hu as (_ & _ & Hu & _)
         | Hr : os_replace _ _ _ = Ok _ |- _ =>
             apply os_replace_ok in Hr; destruct Hr as (_ & Hr)
         | Hw : write _ _ _ _ _ = Ok _ |- _ =>
             apply write_ok in Hw; destruct Hw as (_ & Hw & _)
         end.
  cbn [blockchains swap_prev_hashes swap_forkpoint_hashes swap_forkpoints
       swap_parents update set_heap] in *.
  congruence.
Qed.

(** X15: After a swap the registry holds the former parent under its new id,
    the hash of the first header that it took over, and the chain under
    the id that was the parent's, unless the two ids are the same; the
    entries under other keys are as before. *)
Theorem swap_registers_chains (st st' : state) (self : addr) :
  _swap_with_parent st self = Ok (true, st') ->
  exists p,
    parent (heap st self) = Some p
    /\ get_id st' self = get_id st p
    /\ dict_get (get_id st' p) (blockchains st') = Some p
    /\ (get_id st' p <> get_id st' self ->
        dict_get (get_id st' self) (blockchains st') = Some self)
    /\ forall k, k <> get_id st self -> k <> get_id st p ->
                 k <> get_id st' p ->
                 dict_get k (blockchains st') = dict_get k (blockchains st).
Proof.
  intros H. unfold _swap_with_parent in H.
  destruct (parent (heap st self)) as [p|] eqn:Hp; [|discriminate].
  destruct (get_chainwork st p None) as [pw|e] eqn:Hpw; [|discriminate].
  destruct (get_chainwork st self None) as [sw|e] eqn:Hsw; [|discriminate].
  cbn [bind] in H. destruct (Z.leb_spec sw pw) as [Hle|Hgt]; [discriminate|].
  assert (Hne : self <> p) by (intros ->; rewrite Hpw in Hsw; injection Hsw; lia).
  destruct (swap_files_and_parameters_ok _ _ _ _ _ Hne Hp H)
    as (_ & _ & _ & _ & _ & _ & Hid & _).
  destruct (swap_files_and_parameters_registry _ _ _ _ _ H)
    as (st0 & Hst' & Hbc).
  exists p. split; [reflexivity|]. split; [exact Hid|].
  assert (Hreg : blockchains st'
    = dict_set (get_id st' p) p
        (dict_set (get_id st' self) self
           (dict_pop (get_id st p)
              (dict_pop (get_id st self) (blockchains st))))).
  { rewrite Hst', <- Hbc. reflexivity. }
  rewrite Hreg. split; [apply dict_get_set_eq|]. split.
  - intros Hids. rewrite dict_get_set_ne by congruence.
    apply dict_get_set_eq.
  - intros k Hk1 Hk2 Hk3.
    rewrite dict_get_set_ne by exact Hk3.
    rewrite dict_get_set_ne by (unfold get_id in *; congruence).
    rewrite !dict_get_pop_ne by assumption. reflexivity.
Qed.

End SwapLoop.

(** ** Saving a header and preparing the file of the best chain *)

Section SaveHeader.
Context `{X : Externals}.
Variable algo_log2_weight : Z -> result Z.
Variable powdata_serialize_base : PowData -> result string.

(** X16: [save_header] only appends: it returns only for a header of the
    height right above the tip, whose record has [DISK_HEADER_SIZE]
    bytes; the chainwork it stores is the chainwork at the tip plus the
    work of the header; the record is written at the end of the file,
    and for a chain without parent nothing else happens. *)
Theorem save_header_appends (st st' : state) (self : addr) (hd : header) :
  Blockchain.save_header algo_log2_weight powdata_serialize_base st self hd
  = Ok st' ->
  exists prev_work work s data st1,
    block_height hd = Some (Some (height st self + 1))
    /\ get_chainwork st self (Some (height st self)) = Ok prev_work
    /\ Blockchain.chainwork_of_header algo_log2_weight hd = Ok work
    /\ Blockchain.serialize_disk_header powdata_serialize_base
         (set_chainwork (prev_work + work) hd) = Ok s
    /\ bfh s = Ok data
    /\ Z.of_nat (length data) = DISK_HEADER_SIZE
    /\ write st self data (size st self * DISK_HEADER_SIZE) true = Ok st1
    /\ swap_with_parent st1 self = Ok st'
    /\ (parent (heap st self) = None -> st' = st1).
Proof.
  unfold Blockchain.save_header. intros H.
  destruct (block_height hd) as [[h|]|] eqn:Hbh; try discriminate H.
  apply bind_ok in H. destruct H as (prev_work & Hpw & H).
  apply bind_ok in H. destruct H as (work & Hw & H). cbv zeta in H.
  apply bind_ok in H. destruct H as (s & Hs & H).
  apply bind_ok in H. destruct H as (data & Hd & H).
  apply bind_ok in H. destruct H as ([] & Ha1 & H).
  apply bind_ok in H. destruct H as ([] & Ha2 & H).
  apply bind_ok in H. destruct H as (st1 & Hwr & H).
  unfold py_assert in Ha1, Ha2.
  destruct (Z.eqb_spec (h - forkpoint (heap st self)) (size st self))
    as [Hdelta|]; [|discriminate].
  destruct (Z.eqb_spec (Z.of_nat (length data)) DISK_HEADER_SIZE)
    as [Hlen|]; [|discriminate].
  assert (Hh : h = height st self + 1) by (unfold height; lia).
  rewrite Hdelta in Hwr. subst h.
  replace (height st self + 1 - 1) with (height st self) in Hpw by lia.
  exists prev_work, work, s, data, st1.
  repeat split; try assumption.
  intros Hpar. apply write_ok in Hwr. destruct Hwr as (Hsame & _).
  destruct (Hsame self) as (_ & Hp1 & _).
  rewrite swap_with_parent_no_parent in H by congruence.
  congruence.
Qed.

End SaveHeader.

Section InitHeadersFile.
Context `{X : Externals}.

Lemma replicate_write_last (n : Z) :
  0 < n ->
  file_write_at [] (n - 1) [x00] = replicate (Z.to_nat n) x00.
Proof.
  intros Hn. unfold file_write_at, file_truncate.
  rewrite take_nil, drop_nil, app_nil_r. cbn [length app].
  rewrite Nat.sub_0_r.
  replace (Z.to_nat n) with (Z.to_nat (n - 1) + 1)%nat by lia.
  rewrite replicate_add. reflexivity.
Qed.

Lemma file_slice_replicate (n : nat) (o k : Z) :
  0 <= o -> 0 <= k -> o + k <= Z.of_nat n ->
  file_slice (replicate n x00) o k = replicate (Z.to_nat k) x00.
Proof.
  intros Ho Hk Hle. unfold file_slice.
  rewrite drop_replicate, take_replicate. f_equal. lia.
Qed.

(** X17: After [init_headers_file_for_best_chain] the file of the best chain
    has room for the headers of all checkpointed chunks, and the size of
    the chain is that of the file.  A file that was long enough is
    kept; one that was missing or shorter is replaced by zero bytes,
    and then, the chain starting at height 0, every height of the
    checkpointed chunks reads as no header.  No other file changes. *)
Theorem init_headers_file_preallocates (st st' : state) (b : addr)
    (name : string) :
  get_best_chain st = Ok b ->
  path st b = Ok name ->
  Registry.init_headers_file_for_best_chain st = Ok st' ->
  let length_ := DISK_HEADER_SIZE * Z.of_nat (length CHECKPOINTS) * 2016 in
  exists content,
    files st' !! name = Some content
    /\ length_ <= Z.of_nat (length content)
    /\ size st' b = Z.of_nat (length content) / DISK_HEADER_SIZE
    /\ Z.of_nat (length CHECKPOINTS) * 2016 <= size st' b
    /\ (forall other, other <> name -> files st' !! other = files st !! other)
    /\ (files st !! name = Some content
        \/ (content = replicate (Z.to_nat length_) x00
            /\ dir_exists st = true
            /\ (forall old, files st !! name = Some old ->
                            Z.of_nat (length old) < length_)
            /\ (forkpoint (heap st b) = 0 ->
                forall h, 0 <= h < Z.of_nat (length CHECKPOINTS) * 2016 ->
                          read_header st' b h = Ok None))).
Proof.
  intros Hb Hp H length_. unfold Registry.init_headers_file_for_best_chain in H.
  rewrite Hb in H. cbn [bind] in H. rewrite Hp in H. cbn [bind] in H.
  fold length_ in H.
  assert (Hl0 : 0 <= length_).
  { unfold length_, DISK_HEADER_SIZE, PURE_HEADER_SIZE. lia. }
  assert (Hdiv : forall n, length_ <= n ->
            Z.of_nat (length CHECKPOINTS) * 2016 <= n / DISK_HEADER_SIZE).
  { intros n Hn. unfold length_, DISK_HEADER_SIZE, PURE_HEADER_SIZE in *.
    change (80 + 5 + 32) with 117 in *.
    apply Z.div_le_lower_bound; lia. }
  assert (Hsize : forall s0 c0,
            path s0 b = Ok name -> files s0 !! name = Some c0 ->
            update_size s0 b = Ok st' ->
            files st' = files s0
            /\ size st' b = Z.of_nat (length c0) / DISK_HEADER_SIZE
            /\ forkpoint (heap st' b) = forkpoint (heap s0 b)
            /\ path st' b = Ok name).
  { intros s0 c0 Hp0 Hf0 Hu. unfold update_size in Hu. rewrite Hp0 in Hu.
    cbn [bind] in Hu. rewrite Hf0 in Hu. injection Hu as <-.
    unfold size, update, path. cbn [heap files set_heap]. rewrite Nat.eqb_refl.
    cbn [_size with_size forkpoint parent _prev_hash _forkpoint_hash].
    repeat split; try reflexivity. exact Hp0. }
  destruct (files st !! name) as [old|] eqn:Hold.
  - destruct (Z.ltb_spec (Z.of_nat (length old)) length_) as [Hshort|Hlong].
    + destruct (dir_exists st) eqn:Hdir; [|discriminate]. cbn [negb bind] in H.
      destruct (Z.ltb_spec 0 length_) as [Hpos|]; [|lia].
      rewrite replicate_write_last in H by exact Hpos.
      set (content := replicate (Z.to_nat length_) x00) in *.
      set (s0 := set_files (<[name := content]> (files st)) st) in *.
      assert (Hf0 : files s0 !! name = Some content) by apply lookup_insert_eq.
      destruct (Hsize s0 content Hp Hf0 H) as (Hfs & Hsz & Hfk & Hp').
      assert (Hlen : Z.of_nat (length content) = length_)
        by (unfold content; rewrite length_replicate; lia).
      exists content. rewrite Hfs.
      split; [exact Hf0|]. split; [lia|]. split; [exact Hsz|].
      split; [rewrite Hsz; apply Hdiv; lia|].
      split; [intros other Hne; apply lookup_insert_ne; congruence|].
      right. split; [reflexivity|]. split; [reflexivity|].
      split; [intros old' [= <-]; exact Hshort|].
      intros Hzero h Hh.
      change (forkpoint (heap s0 b)) with (forkpoint (heap st b)) in Hfk.
      pose proof (Hdiv _ (Z.le_refl length_)) as Hrec.
      rewrite <- Hlen, <- Hsz in Hrec.
      unfold read_header. rewrite read_header_local by lia.
      cbn [read_header_rec].
      destruct (Z.ltb_spec h 0); [lia|].
      destruct (Z.ltb_spec h (forkpoint (heap st' b))); [lia|].
      destruct (Z.ltb_spec (height st' b) h) as [Hc|_];
        [unfold height in Hc; lia|].
      rewrite Hp'. cbn [bind].
      unfold assert_headers_file_available, open_file.
      rewrite Hfs, Hf0. cbn [bind].
      rewrite file_read_at_ok
        by (rewrite ?Hfk, ?Hzero; unfold DISK_HEADER_SIZE, PURE_HEADER_SIZE; lia).
      cbn [bind]. unfold content.
      rewrite file_slice_replicate.
      * rewrite length_replicate.
        destruct (Z.ltb_spec (Z.of_nat (Z.to_nat DISK_HEADER_SIZE))
                    DISK_HEADER_SIZE) as [Hc|_];
          [unfold DISK_HEADER_SIZE, PURE_HEADER_SIZE in Hc; lia|].
        unfold bytes_eqb. rewrite decide_True by reflexivity. reflexivity.
      * unfold DISK_HEADER_SIZE, PURE_HEADER_SIZE. lia.
      * unfold DISK_HEADER_SIZE, PURE_HEADER_SIZE. lia.
      * rewrite Hfk, Hzero. unfold length_, DISK_HEADER_SIZE, PURE_HEADER_SIZE.
        change (80 + 5 + 32) with 117. lia.
    + cbn [bind] in H.
      destruct (Hsize st old Hp Hold H) as (Hfs & Hsz & _ & _).
      exists old. rewrite Hfs.
      split; [exact Hold|]. split; [lia|]. split; [exact Hsz|].
      split; [rewrite Hsz; apply Hdiv; lia|].
      split; [reflexivity|]. left. reflexivity.
  - destruct (dir_exists st) eqn:Hdir; [|discriminate]. cbn [negb bind] in H.
    assert (Hcontent : (if 0 <? length_ then file_write_at [] (length_ - 1) [x00]
                        else []) = replicate (Z.to_nat length_) x00).
    { destruct (Z.ltb_spec 0 length_) as [Hpos|Hz];
        [apply replicate_write_last; exact Hpos|].
      replace length_ with 0 by lia. reflexivity. }
    rewrite Hcontent in H.
    set (content := replicate (Z.to_nat length_) x00) in *.
    set (s0 := set_files (<[name := content]> (files st)) st) in *.
    assert (Hf0 : files s0 !! name = Some content) by apply lookup_insert_eq.
    destruct (Hsize s0 content Hp Hf0 H) as (Hfs & Hsz & Hfk & Hp').
    assert (Hlen : Z.of_nat (length content) = length_)
      by (unfold content; rewrite length_replicate; lia).
    exists content. rewrite Hfs.
    split; [exact Hf0|]. split; [lia|]. split; [exact Hsz|].
    split; [rewrite Hsz; apply Hdiv; lia|].
    split; [intros other Hne; apply lookup_insert_ne; congruence|].
    right. split; [reflexivity|]. split; [reflexivity|].
    split; [intros old' Hc; discriminate Hc|].
    intros Hzero h Hh.
    change (forkpoint (heap s0 b)) with (forkpoint (heap st b)) in Hfk.
    pose proof (Hdiv _ (Z.le_refl length_)) as Hrec.
    rewrite <- Hlen, <- Hsz in Hrec.
    unfold read_header. rewrite read_header_local by lia.
    cbn [read_header_rec].
    destruct (Z.ltb_spec h 0); [lia|].
    destruct (Z.ltb_spec h (forkpoint (heap st' b))); [lia|].
    destruct (Z.ltb_spec (height st' b) h) as [Hc|_];
      [unfold height in Hc; lia|].
    rewrite Hp'. cbn [bind].
    unfold assert_headers_file_available, open_file.
    rewrite Hfs, Hf0. cbn [bind].
    rewrite file_read_at_ok
      by (rewrite ?Hfk, ?Hzero; unfold DISK_HEADER_SIZE, PURE_HEADER_SIZE; lia).
    cbn [bind]. unfold content.
    rewrite file_slice_replicate.
    + rewrite length_replicate.
      destruct (Z.ltb_spec (Z.of_nat (Z.to_nat DISK_HEADER_SIZE))
                  DISK_HEADER_SIZE) as [Hc|_];
        [unfold DISK_HEADER_SIZE, PURE_HEADER_SIZE in Hc; lia|].
      unfold bytes_eqb. rewrite decide_True by reflexivity. reflexivity.
    + unfold DISK_HEADER_SIZE, PURE_HEADER_SIZE. lia.
    + unfold DISK_HEADER_SIZE, PURE_HEADER_SIZE. lia.
    + rewrite Hfk, Hzero. unfold length_, DISK_HEADER_SIZE, PURE_HEADER_SIZE.
      change (80 + 5 + 32) with 117. lia.
Qed.

End InitHeadersFile.

(** ** The headers of the two chains of a swap *)

Section SwapHeaders.
Context `{X : Externals}.

(** [read_header] at a height of the chain's own file. *)
Lemma read_header_record (st : state) (self : addr) (h : Z) (name : string)
    (content : list byte) :
  path st self = Ok name -> files st !! name = Some content ->
  0 <= h -> forkpoint (heap st self) <= h ->
  read_header st self h
  = if height st self <? h then Ok None
    else decode_record
           (file_slice content
              ((h - forkpoint (heap st self)) * DISK_HEADER_SIZE)
              DISK_HEADER_SIZE) h.
Proof.
  intros Hp Hf H0 Hfk. unfold read_header.
  rewrite read_header_local by lia. cbn [read_header_rec].
  destruct (Z.ltb_spec h 0); [lia|].
  destruct (Z.ltb_spec h (forkpoint (heap st self))); [lia|].
  destruct (height st self <? h); [reflexivity|].
  rewrite Hp. cbn [bind].
  unfold assert_headers_file_available, open_file. rewrite Hf. cbn [bind].
  rewrite file_read_at_ok
    by (unfold DISK_HEADER_SIZE, PURE_HEADER_SIZE; lia).
  reflexivity.
Qed.

Lemma file_slice_drop (l : list byte) (a o n : Z) :
  0 <= a -> 0 <= o ->
  file_slice (drop (Z.to_nat a) l) o n = file_slice l (a + o) n.
Proof.
  intros Ha Ho. unfold file_slice. rewrite drop_drop.
  replace (Z.to_nat a + Z.to_nat o)%nat with (Z.to_nat (a + o)) by lia.
  reflexivity.
Qed.

Lemma file_slice_app_r (l1 l2 : list byte) (o n : Z) :
  0 <= o ->
  file_slice (l1 ++ l2) (Z.of_nat (length l1) + o) n = file_slice l2 o n.
Proof.
  intros Ho. unfold file_slice.
  replace (Z.to_nat (Z.of_nat (length l1) + o))
    with (length l1 + Z.to_nat o)%nat by lia.
  rewrite drop_app_add. reflexivity.
Qed.

Lemma file_slice_app_l (l1 l2 : list byte) (o n : Z) :
  0 <= o -> 0 <= n -> o + n <= Z.of_nat (length l1) ->
  file_slice (l1 ++ l2) o n = file_slice l1 o n.
Proof.
  intros Ho Hn Hle. unfold file_slice.
  rewrite drop_app_le by lia.
  rewrite take_app_le by (rewrite length_drop; lia). reflexivity.
Qed.

Lemma file_slice_take (l : list byte) (a : nat) (o n : Z) :
  0 <= o -> 0 <= n -> o + n <= Z.of_nat a ->
  file_slice (take a l) o n = file_slice l o n.
Proof.
  intros Ho Hn Hle. unfold file_slice.
  apply list_eq. intros i.
  destruct (decide (i < Z.to_nat n)%nat) as [Hi|Hi].
  - rewrite !lookup_take_lt, !lookup_drop by exact Hi.
    rewrite lookup_take_lt by lia. reflexivity.
  - rewrite !lookup_take_ge by lia. reflexivity.
Qed.

(** The state after a write. *)
Lemma write_eq (st : state) (a : addr) (data : list byte) (offset : Z)
    (truncate : bool) (name : string) (old : list byte) :
  path st a = Ok name -> files st !! name = Some old -> 0 <= offset ->
  let new :=
    file_write_at
      (if truncate && negb (offset =? _size (heap st a) * DISK_HEADER_SIZE)
       then file_truncate old offset else old) offset data in
  write st a data offset truncate
  = Ok (update a (with_size (Z.of_nat (length new) / DISK_HEADER_SIZE))
          (set_files (<[name := new]> (files st)) st)).
Proof.
  intros Hp Hf Ho new. unfold write. rewrite Hp. cbn [bind].
  unfold assert_headers_file_available, open_file. rewrite Hf. cbn [bind].
  destruct (Z.ltb_spec offset 0); [lia|]. fold new.
  unfold update_size. rewrite path_set_files, Hp. cbn [bind].
  cbn [files set_files]. rewrite lookup_insert_eq. reflexivity.
Qed.

Lemma path_update_size (st : state) (a b : addr) (n : Z) :
  path (update a (with_size n) st) b = path st b.
Proof.
  unfold path, update. cbn [heap set_heap].
  destruct (Nat.eqb_spec b a) as [->|]; reflexivity.
Qed.

(** The file of a chain of whole records after a write that truncates. *)
Lemma write_whole_records (old data : list byte) (offset sz : Z) :
  Z.of_nat (length old) = sz * DISK_HEADER_SIZE ->
  0 <= offset <= Z.of_nat (length old) ->
  file_write_at
    (if true && negb (offset =? sz * DISK_HEADER_SIZE)
     then file_truncate old offset else old) offset data
  = (take (Z.to_nat offset) old ++ data)%list.
Proof.
  intros Hold Ho.
  assert (Hcut : (if true && negb (offset =? sz * DISK_HEADER_SIZE)
                  then file_truncate old offset else old)
                 = take (Z.to_nat offset) old).
  { cbn [andb]. destruct (Z.eqb_spec offset (sz * DISK_HEADER_SIZE)) as [He|He];
      cbn [negb].
    - symmetry. apply take_ge. lia.
    - unfold file_truncate.
      replace (Z.to_nat offset - length old)%nat with 0%nat by lia.
      cbn [replicate]. apply app_nil_r. }
  rewrite Hcut. unfold file_write_at.
  destruct data as [|d data]; [rewrite app_nil_r; reflexivity|].
  unfold file_truncate. rewrite take_take, Nat.min_id.
  rewrite length_take.
  replace (Z.to_nat offset - Z.to_nat offset `min` length old)%nat
    with 0%nat by lia.
  cbn [replicate]. rewrite app_nil_r.
  rewrite drop_ge by (rewrite length_take; cbn [length]; lia).
  rewrite app_nil_r. reflexivity.
Qed.

End SwapHeaders.

Section SwapKeepsHeaders.
Context `{X : Externals}.

(** The files and sizes of the two chains after the swap, for files of
    whole records at distinct paths. *)
Lemma swap_files_and_parameters_state (st st' : state) (self p : addr)
    (n1 n2 n3 : string) (S P : list byte) :
  self <> p ->
  swap_files_and_parameters st self p = Ok (true, st') ->
  path st self = Ok n1 -> path st p = Ok n2 -> path st' p = Ok n3 ->
  n1 <> n2 -> n3 <> n2 ->
  files st !! n1 = Some S -> files st !! n2 = Some P ->
  Z.of_nat (length S) = size st self * DISK_HEADER_SIZE ->
  Z.of_nat (length P) = size st p * DISK_HEADER_SIZE ->
  forkpoint (heap st self) - 1 <= height st p ->
  forkpoint (heap st p) < forkpoint (heap st self)
  /\ path st' self = Ok n2
  /\ files st' !! n2
     = Some (take (Z.to_nat ((forkpoint (heap st self)
                              - forkpoint (heap st p)) * DISK_HEADER_SIZE)) P
             ++ S)%list
  /\ files st' !! n3
     = Some (drop (Z.to_nat ((forkpoint (heap st self)
                              - forkpoint (heap st p)) * DISK_HEADER_SIZE)) P)
  /\ forkpoint (heap st' self) = forkpoint (heap st p)
  /\ size st' self
     = forkpoint (heap st self) - forkpoint (heap st p) + size st self
  /\ forkpoint (heap st' p) = forkpoint (heap st self)
  /\ size st' p
     = size st p - (forkpoint (heap st self) - forkpoint (heap st p))
  /\ hash_raw_header
       (bh2u (slice (drop (Z.to_nat ((forkpoint (heap st self)
                                      - forkpoint (heap st p))
                                     * DISK_HEADER_SIZE)) P)
                0 PURE_HEADER_SIZE))
     = Ok (get_id st' p).
Proof.
  intros Hne Hswap Hn1 Hn2 Hn3 Hn12 Hn32 HS HP HlenS HlenP Hhp.
  assert (Hps : Nat.eqb p self = false) by (apply Nat.eqb_neq; congruence).
  unfold height, size in *.
  set (f := forkpoint (heap st self)) in *.
  set (g := forkpoint (heap st p)) in *.
  set (sS := _size (heap st self)) in *.
  set (sP := _size (heap st p)) in *.
  unfold DISK_HEADER_SIZE, PURE_HEADER_SIZE in HlenS, HlenP.
  change (80 + 5 + 32) with 117 in *.
  unfold DISK_HEADER_SIZE, PURE_HEADER_SIZE. change (80 + 5 + 32) with 117.
  set (off := Z.to_nat ((f - g) * 117)).
  (* the computation of the swap *)
  unfold swap_files_and_parameters in Hswap.
  rewrite Hn1 in Hswap. cbn [bind] in Hswap.
  unfold assert_headers_file_available at 1 in Hswap.
  rewrite HS in Hswap. cbn [bind] in Hswap.
  unfold open_file at 1 in Hswap. rewrite HS in Hswap. cbn [bind] in Hswap.
  rewrite Hn2 in Hswap. cbn [bind] in Hswap.
  unfold assert_headers_file_available at 1 in Hswap.
  rewrite HP in Hswap. cbn [bind] in Hswap.
  unfold py_assert in Hswap. fold f g in Hswap.
  destruct (Z.ltb_spec g f) as [Hgf|]; [|discriminate]. cbn [bind] in Hswap.
  assert (Hoff : Z.of_nat off = (f - g) * 117) by (unfold off; lia).
  unfold open_file at 1 in Hswap. rewrite HP in Hswap. cbn [bind] in Hswap.
  rewrite file_read_at_ok in Hswap
    by (unfold height, size, DISK_HEADER_SIZE, PURE_HEADER_SIZE; lia).
  cbn [bind] in Hswap.
  assert (Hpd : file_slice P ((f - g) * DISK_HEADER_SIZE)
                  ((height st p - f + 1) * DISK_HEADER_SIZE) = drop off P).
  { unfold file_slice, height, size, DISK_HEADER_SIZE, PURE_HEADER_SIZE.
    fold g sP. change (80 + 5 + 32) with 117.
    fold off. apply take_ge. rewrite length_drop. lia. }
  rewrite Hpd in Hswap.
  (* the first write *)
  pose proof (write_eq st self (drop off P) 0 true n1 S Hn1 HS (Z.le_refl 0))
    as Hw1. cbv zeta in Hw1.
  rewrite (write_whole_records S (drop off P) 0 (_size (heap st self)))
    in Hw1 by (try exact HlenS; lia).
  change (take (Z.to_nat 0) S ++ drop off P)%list with (drop off P) in Hw1.
  rewrite Hw1 in Hswap. cbn [bind] in Hswap. clear Hw1.
  set (st1 := update self _ (set_files (<[n1 := drop off P]> (files st)) st))
    in Hswap.
  assert (Hheap1 : heap st1 p = heap st p).
  { unfold st1, update. cbn [heap set_heap set_files]. rewrite Hps. reflexivity. }
  assert (Hp1 : path st1 p = Ok n2).
  { unfold st1. rewrite path_update_size, path_set_files. exact Hn2. }
  assert (Hf1 : files st1 !! n2 = Some P).
  { unfold st1, update. cbn [files set_heap set_files].
    rewrite lookup_insert_ne by exact Hn12. exact HP. }
  (* the second write *)
  rewrite Hheap1 in Hswap. fold g in Hswap.
  pose proof (write_eq st1 p S ((f - g) * DISK_HEADER_SIZE) true n2 P Hp1 Hf1)
    as Hw2. cbv zeta in Hw2. rewrite Hheap1 in Hw2.
  rewrite (write_whole_records P S ((f - g) * DISK_HEADER_SIZE)
             (_size (heap st p))) in Hw2
    by (try exact HlenP; unfold DISK_HEADER_SIZE, PURE_HEADER_SIZE; lia).
  change (Z.to_nat ((f - g) * DISK_HEADER_SIZE)) with off in Hw2.
  rewrite Hw2 in Hswap
    by (unfold DISK_HEADER_SIZE, PURE_HEADER_SIZE; lia).
  cbn [bind] in Hswap. clear Hw2.
  set (st2 := update p _ (set_files (<[n2 := (take off P ++ S)%list]> (files st1))
                            st1)) in Hswap.
  assert (Hheap2p : heap st2 p = with_size (_size (heap st2 p)) (heap st p)).
  { unfold st2, update. cbn [heap set_heap set_files]. rewrite Nat.eqb_refl.
    rewrite Hheap1. reflexivity. }
  assert (Hheap2s : heap st2 self
                    = with_size (_size (heap st2 self)) (heap st self)).
  { unfold st2, update. cbn [heap set_heap set_files].
    replace (Nat.eqb self p) with false
      by (symmetry; apply Nat.eqb_neq; exact Hne).
    unfold st1, update. cbn [heap set_heap set_files]. rewrite Nat.eqb_refl.
    reflexivity. }
  assert (Hfiles2 : files st2
                    = <[n2 := (take off P ++ S)%list]>
                        (<[n1 := drop off P]> (files st))) by reflexivity.
  (* the parameters and the new name of the parent *)
  rewrite hash_raw_header_bh2u in Hswap. cbn [bind] in Hswap.
  set (fh := hash_encode _) in Hswap.
  fold (swap_parameters self p fh st2) in Hswap.
  set (st2' := swap_parameters self p fh st2) in Hswap.
  destruct (path st2' p) as [n3'|] eqn:Hn3'; [|discriminate].
  cbn [bind] in Hswap.
  unfold os_replace, open_file in Hswap.
  change (files st2') with (files st2) in Hswap. rewrite Hfiles2 in Hswap.
  rewrite lookup_insert_ne in Hswap by congruence.
  rewrite lookup_insert_eq in Hswap. cbn [bind] in Hswap.
  set (st3 := set_files _ st2') in Hswap.
  assert (Hself3 : heap st3 self
                   = {| forkpoint := g; parent := parent (heap st p);
                        _forkpoint_hash := _forkpoint_hash (heap st p);
                        _prev_hash := _prev_hash (heap st p);
                        _size := _size (heap st2 self) |}).
  { change (heap st3) with (heap (swap_parameters self p fh st2)).
    rewrite swap_parameters_self by exact Hne. rewrite Hheap2p. reflexivity. }
  assert (Hp3 : heap st3 p
                = {| forkpoint := f; parent := Some self;
                     _forkpoint_hash := fh;
                     _prev_hash := _prev_hash (heap st self);
                     _size := _size (heap st2 p) |}).
  { change (heap st3) with (heap (swap_parameters self p fh st2)).
    rewrite swap_parameters_parent by exact Hne. rewrite Hheap2s. reflexivity. }
  assert (Hpath_self : path st3 self = Ok n2).
  { rewrite <- Hn2. unfold path. rewrite Hself3. reflexivity. }
  unfold update_size at 1 in Hswap. rewrite Hpath_self in Hswap.
  cbn [bind] in Hswap.
  set (st4 := update self _ st3) in Hswap.
  assert (Hpath_p4 : path st4 p = Ok n3').
  { unfold st4. rewrite path_update_size. exact Hn3'. }
  unfold update_size in Hswap. rewrite Hpath_p4 in Hswap. cbn [bind] in Hswap.
  set (st5 := update p _ st4) in Hswap.
  injection Hswap as <-.
  assert (Hn33 : n3' = n3).
  { change (path st5 p = Ok n3) in Hn3. unfold st5 in Hn3.
    rewrite path_update_size, Hpath_p4 in Hn3. congruence. }
  subst n3'.
  (* the state after the swap *)
  assert (HsS : 0 <= sS) by lia.
  assert (HoffP : (off <= length P)%nat) by lia.
  assert (Hf3_2 : files st3 !! n2 = Some (take off P ++ S)%list).
  { unfold st3. cbn [files set_files].
    rewrite lookup_insert_ne by congruence.
    rewrite lookup_delete_ne by congruence. apply lookup_insert_eq. }
  assert (Hf3_3 : files st3 !! n3 = Some (drop off P)).
  { unfold st3. cbn [files set_files]. apply lookup_insert_eq. }
  assert (Hlen2 : Z.of_nat (length (take off P ++ S)) `div` DISK_HEADER_SIZE
                  = f - g + sS).
  { rewrite length_app, length_take. change DISK_HEADER_SIZE with 117.
    replace (Z.of_nat (off `min` length P + length S))
      with ((f - g + sS) * 117) by lia.
    apply Z.div_mul. lia. }
  assert (Hlen1 : Z.of_nat (length (drop off P)) `div` DISK_HEADER_SIZE
                  = sP - (f - g)).
  { rewrite length_drop. change DISK_HEADER_SIZE with 117.
    replace (Z.of_nat (length P - off)) with ((sP - (f - g)) * 117) by lia.
    apply Z.div_mul. lia. }
  set (stf := update_pointers self p (get_id st self) (get_id st p) st5) in *.
  assert (Hheap_s : heap stf self = with_size (f - g + sS) (heap st3 self)).
  { change (heap stf) with (heap st5). unfold st5, update.
    cbn [heap set_heap].
    replace (Nat.eqb self p) with false
      by (symmetry; apply Nat.eqb_neq; exact Hne).
    unfold st4, update. cbn [heap set_heap]. rewrite Nat.eqb_refl.
    rewrite Hf3_2, Hlen2. reflexivity. }
  assert (Hheap_p : heap stf p = with_size (sP - (f - g)) (heap st3 p)).
  { change (heap stf) with (heap st5). unfold st5, update.
    cbn [heap set_heap]. rewrite Nat.eqb_refl.
    change (files st4) with (files st3). rewrite Hf3_3, Hlen1.
    unfold st4, update. cbn [heap set_heap]. rewrite Hps. reflexivity. }
  assert (Hpath_s : path stf self = Ok n2).
  { rewrite <- Hpath_self. unfold path. rewrite Hheap_s. reflexivity. }
  assert (Hfiles_s : files stf !! n2 = Some (take off P ++ S)%list)
    by exact Hf3_2.
  assert (Hfiles_p : files stf !! n3 = Some (drop off P)) by exact Hf3_3.
  assert (Hfk_s : forkpoint (heap stf self) = g)
    by (rewrite Hheap_s, Hself3; reflexivity).
  assert (Hsz_s : _size (heap stf self) = f - g + sS)
    by (rewrite Hheap_s; reflexivity).
  assert (Hfk_p : forkpoint (heap stf p) = f)
    by (rewrite Hheap_p, Hp3; reflexivity).
  assert (Hsz_p : _size (heap stf p) = sP - (f - g))
    by (rewrite Hheap_p; reflexivity).
  assert (Hid_p : hash_raw_header (bh2u (slice (drop off P) 0 PURE_HEADER_SIZE))
                  = Ok (get_id stf p)).
  { rewrite hash_raw_header_bh2u. unfold get_id.
    rewrite Hheap_p, Hp3. reflexivity. }
  auto 10.
Qed.

(** X18: What the docstring of [_swap_with_parent] promises: after a swap the
    two chains contain the same headers as before.  For files of whole
    records, with the parent reaching up to the forkpoint of the chain,
    the chain reads the headers from the forkpoint of its former parent
    up to its own former forkpoint as the parent did, and from there on
    as it did itself; the former parent reads from that forkpoint on as
    it did; both keep their heights. *)
Theorem swap_keeps_headers (st st' : state) (self p : addr)
    (n1 n2 n3 : string) (S P : list byte) :
  _swap_with_parent st self = Ok (true, st') ->
  parent (heap st self) = Some p ->
  path st self = Ok n1 -> path st p = Ok n2 -> path st' p = Ok n3 ->
  n1 <> n2 -> n3 <> n2 ->
  files st !! n1 = Some S -> files st !! n2 = Some P ->
  Z.of_nat (length S) = size st self * DISK_HEADER_SIZE ->
  Z.of_nat (length P) = size st p * DISK_HEADER_SIZE ->
  0 <= forkpoint (heap st p) ->
  forkpoint (heap st self) - 1 <= height st p ->
  (forall h, forkpoint (heap st p) <= h < forkpoint (heap st self) ->
             read_header st' self h = read_header st p h)
  /\ (forall h, forkpoint (heap st self) <= h ->
                read_header st' self h = read_header st self h)
  /\ (forall h, forkpoint (heap st self) <= h ->
                read_header st' p h = read_header st p h)
  /\ height st' self = height st self
  /\ height st' p = height st p.
Proof.
  intros Hswap Hpar Hn1 Hn2 Hn3 Hn12 Hn32 HS HP HlenS HlenP Hg Hhp.
  unfold _swap_with_parent in Hswap. rewrite Hpar in Hswap.
  destruct (get_chainwork st p None) as [pw|e] eqn:Hpw; [|discriminate].
  destruct (get_chainwork st self None) as [sw|e] eqn:Hsw; [|discriminate].
  cbn [bind] in Hswap.
  destruct (Z.leb_spec sw pw) as [Hle|Hgt]; [discriminate|].
  assert (Hne : self <> p) by (intros ->; rewrite Hpw in Hsw; injection Hsw; lia).
  destruct (swap_files_and_parameters_state _ _ _ _ _ _ _ _ _ Hne Hswap Hn1 Hn2
              Hn3 Hn12 Hn32 HS HP HlenS HlenP Hhp)
    as (Hgf & Hpath_s & Hfiles_s & Hfiles_p & Hfk_s & Hsz_s & Hfk_p & Hsz_p
        & _).
  clear Hswap. rename st' into stf.
  unfold height, size in *.
  set (f := forkpoint (heap st self)) in *.
  set (g := forkpoint (heap st p)) in *.
  set (sS := _size (heap st self)) in *.
  set (sP := _size (heap st p)) in *.
  unfold DISK_HEADER_SIZE, PURE_HEADER_SIZE in HlenS, HlenP, Hfiles_s, Hfiles_p.
  change (80 + 5 + 32) with 117 in *.
  set (off := Z.to_nat ((f - g) * 117)) in *.
  assert (Hoff : Z.of_nat off = (f - g) * 117) by (unfold off; lia).
  assert (HsS : 0 <= sS) by lia.
  assert (HoffP : (off <= length P)%nat) by lia.
  assert (Hh_s : height stf self = f + sS - 1)
    by (unfold height, size; rewrite Hfk_s, Hsz_s; lia).
  assert (Hh_p : height stf p = g + sP - 1)
    by (unfold height, size; rewrite Hfk_p, Hsz_p; lia).
  assert (Hrec : forall c o, file_slice c o DISK_HEADER_SIZE
                             = file_slice c o 117) by reflexivity.
  split; [|split; [|split; [|split]]].
  - intros h Hh.
    rewrite (read_header_record stf self h n2 _ Hpath_s Hfiles_s)
      by (rewrite ?Hfk_s; lia).
    rewrite (read_header_record st p h n2 P Hn2 HP) by (fold g; lia).
    rewrite Hh_s, Hfk_s. unfold height, size. fold g sP.
    destruct (Z.ltb_spec (f + sS - 1) h); [lia|].
    destruct (Z.ltb_spec (g + sP - 1) h); [lia|].
    f_equal. change DISK_HEADER_SIZE with 117.
    rewrite file_slice_app_l by (rewrite ?length_take; lia).
    apply file_slice_take; lia.
  - intros h Hh.
    rewrite (read_header_record stf self h n2 _ Hpath_s Hfiles_s)
      by (rewrite ?Hfk_s; lia).
    rewrite (read_header_record st self h n1 S Hn1 HS) by (fold f; lia).
    rewrite Hh_s, Hfk_s. unfold height, size. fold f sS.
    destruct (f + sS - 1 <? h); [reflexivity|].
    f_equal. change DISK_HEADER_SIZE with 117.
    replace ((h - g) * 117)
      with (Z.of_nat (length (take off P)) + (h - f) * 117)
      by (rewrite length_take; lia).
    apply file_slice_app_r. lia.
  - intros h Hh.
    rewrite (read_header_record stf p h n3 _ Hn3 Hfiles_p)
      by (rewrite ?Hfk_p; lia).
    rewrite (read_header_record st p h n2 P Hn2 HP) by (fold g; lia).
    rewrite Hh_p, Hfk_p. unfold height, size. fold g sP.
    destruct (g + sP - 1 <? h); [reflexivity|].
    f_equal. change DISK_HEADER_SIZE with 117. unfold off.
    rewrite file_slice_drop by lia. f_equal. lia.
  - rewrite Hfk_s, Hsz_s. lia.
  - rewrite Hfk_p, Hsz_p. lia.
Qed.

End SwapKeepsHeaders.

(** ** The guard of a swap *)

Section SwapGuard.
Context `{X : Externals}.



End SwapGuard.

(** ** The properties on the concrete network *)

Section Instances.
Import Sample.
Import SampleHeaders.

(** C2: at [bits = 0x207fffff], which [bits_to_target] accepts,
    [target_to_bits] drops the leading byte [0x7f] of the target and
    returns [0x2000ffff]. *)
Theorem target_to_bits_drops_top_byte :
  bits_to_target 0x207fffff = Ok (Z.shiftl 0x7fffff 232)
  /\ target_to_bits (Z.shiftl 0x7fffff 232) = Ok 0x2000ffff
  /\ format_064x (Z.shiftl 0x7fffff 232)
     = "7fffff" +:+ str_repeat "0" 58.
Proof. repeat split; vm_compute; reflexivity. Qed.

(** C1 as stated fails: at height 0 with no checkpoints configured the
    specification asks for the base form, and the code parses the full
    form, whether [max_checkpoint] is then -1 or 0. *)
Lemma genesis_without_checkpoints_is_full :
  (spec_base_form (X := regtest) (Some 0) = true
   /\ deserialize_full_header (X := regtest) (replicate 165 x00) (Some 0) true 0
      <> deserialize_full_header_using (X := regtest)
           (powdata_parser (X := regtest) (spec_base_form (X := regtest) (Some 0)))
           (replicate 165 x00) (Some 0) true 0)
  /\ (spec_base_form (X := net false [] 0) (Some 0) = true
      /\ deserialize_full_header (X := net false [] 0)
           (replicate 165 x00) (Some 0) true 0
         <> deserialize_full_header_using (X := net false [] 0)
              (powdata_parser (X := net false [] 0)
                 (spec_base_form (X := net false [] 0) (Some 0)))
              (replicate 165 x00) (Some 0) true 0).
Proof.
  split; (split; [reflexivity|]); intros H;
    apply (f_equal (fun r => match r with
                             | Ok (HeaderAndEnd _ e) => e
                             | _ => 0
                             end)) in H;
    vm_compute in H; discriminate H.
Qed.

(** C5 as stated fails: a header as [deserialize_pure_header] returns it
    has no powdata; when it links to the genesis block of a network that
    is not a testnet, [can_connect] raises [KeyError]. *)
Lemma can_connect_raises_without_powdata :
  deserialize_pure_header (X := regtest) (replicate 80 x00) (Some 1)
  = Ok (pure_header_at_1 (X := regtest))
  /\ can_connect (X := regtest) empty_best 0%nat
       (Some (pure_header_at_1 (X := regtest))) false false
     = Err (KeyError "powdata").
Proof. split; [reflexivity | vm_compute; reflexivity]. Qed.


(** On a parent that ends below the block before the forkpoint the read
    of the parent's records is of a negative length, and raises. *)
Example swap_with_short_parent_raises :
  get_chainwork (X := regtest) short_parent 0%nat None = Ok 1
  /\ get_chainwork (X := regtest) short_parent 1%nat None = Ok 5
  /\ (height short_parent 0%nat - forkpoint (heap short_parent 1%nat) + 1)
     * DISK_HEADER_SIZE = -468
  /\ _swap_with_parent (X := regtest) short_parent 1%nat = Err ValueError.
Proof. repeat split; vm_compute; reflexivity. Qed.


(** The hash of a checkpointed height without any header file content,
    and the missing header at height 1 of an empty chain. *)
Lemma get_hash_cases_witness :
  get_hash (X := checkpointed) empty_best 0%nat 2015 = Ok id_ab
  /\ get_hash (X := regtest) empty_best 0%nat 1 = Err (MissingHeader 1).
Proof.
  destruct (get_hash_cases (X := checkpointed) empty_best 0%nat 2015)
    as (_ & _ & Hcp & _).
  destruct (get_hash_cases (X := regtest) empty_best 0%nat 1)
    as (_ & _ & _ & Hread).
  split.
  - destruct Hcp as (_ & _ & Hstored); [lia | lia | vm_compute; discriminate
                                       | reflexivity |].
    destruct Hstored as (d & Hd & ->); [lia | vm_compute; discriminate |].
    vm_compute in Hd. injection Hd as <-. reflexivity.
  - destruct Hread as (_ & Hnone & _); [lia | lia | |].
    + intros [Hc _]. vm_compute in Hc. apply Hc. reflexivity.
    + apply Hnone. reflexivity.
Defined.

(** On the testnet a header on top of the genesis block connects; with
    the height checked against an empty chain it does not. *)
Lemma can_connect_outcomes_witness :
  can_connect (X := testnet) empty_best 0%nat (Some (header_at_1 0)) false false
  = Ok true
  /\ can_connect (X := testnet) empty_best 0%nat (Some (header_at_1 0)) true false
     = Ok false.
Proof.
  destruct (can_connect_outcomes (X := testnet) empty_best 0%nat
              (Some (header_at_1 0)) false false) as (Htrue & _).
  destruct (can_connect_outcomes (X := testnet) empty_best 0%nat
              (Some (header_at_1 0)) true false) as (_ & _ & _ & Hheight & _).
  split.
  - apply Htrue. exists (header_at_1 0). split; [reflexivity|].
    exists 1. split; [reflexivity|]. split; [discriminate|].
    right. split; [lia|]. exists zeros64, 0.
    repeat split; reflexivity.
  - apply (Hheight (header_at_1 0) 1); try reflexivity.
    vm_compute. discriminate.
Defined.

(** Bits [0x1d00ffff] in the pure header are refused; with bits 0 the
    testnet accepts the header whatever the target is. *)
Lemma verify_header_nonzero_bits_witness :
  verify_header (X := testnet) (header_at_1 0x1d00ffff) zeros64 0 None false
  = Err (Exception "main header has non-zero bits")
  /\ verify_header (X := testnet) (header_at_1 0) zeros64 12345 None false
     = Ok tt.
Proof.
  destruct (verify_header_nonzero_bits (X := testnet)
              (header_at_1 0x1d00ffff) zeros64 0 None false)
    as (_ & _ & _ & Hbits & _).
  destruct (verify_header_nonzero_bits (X := testnet)
              (header_at_1 0) zeros64 12345 None false)
    as (_ & _ & _ & _ & Htest).
  split.
  - apply (Hbits "000000000000000000000000000000000000000000000000ffff001d00000000"
             0x1d00ffff).
    + vm_compute. reflexivity.
    + left. reflexivity.
    + reflexivity.
    + reflexivity.
    + lia.
  - apply (Htest eq_refl zeros64).
    + vm_compute. reflexivity.
    + left. reflexivity.
    + reflexivity.
    + reflexivity.
Defined.

(** Three bytes saved as chunk 0 of the checkpointed best chain replace
    the first three bytes of its file and nothing else. *)
Lemma save_chunk_local_write_witness :
  0 <= 0
  /\ parent (heap two_chains 0%nat) = None
  /\ exists st',
       save_chunk (X := checkpointed) two_chains 0%nat 0 [x07; x08; x09] = Ok st'
       /\ files st' !! main_path
          = Some ([x07; x08; x09] ++ drop 3 (rec x01 1 ++ rec x02 2))%list.
Proof.
  split; [lia|]. split; [reflexivity|].
  destruct (save_chunk_local_write (X := checkpointed) two_chains 0%nat 0
              [x07; x08; x09]) as (Heq & _ & _); [lia | reflexivity |].
  rewrite Heq. eexists. split; vm_compute; reflexivity.
Defined.

(** C8 as stated fails: the fork of [empty_fork] holds no record, its
    height is 0 and not -1, and [get_chainwork] without argument returns
    the chainwork of the header at height 0, read from the parent. *)
Lemma empty_fork_has_chainwork :
  size empty_fork 1%nat = 0
  /\ files empty_fork !! fork_path = Some []
  /\ height empty_fork 1%nat = 0
  /\ height empty_fork 1%nat <> -1
  /\ get_chainwork (X := regtest) empty_fork 1%nat None = Ok 1
  /\ get_chainwork (X := regtest) empty_fork 1%nat None
     <> Err (MissingHeader 0).
Proof.
  assert (E : get_chainwork (X := regtest) empty_fork 1%nat None = Ok 1)
    by (vm_compute; reflexivity).
  split; [reflexivity|]. split; [vm_compute; reflexivity|].
  split; [reflexivity|]. split; [vm_compute; discriminate|].
  split; [exact E|]. rewrite E. discriminate.
Qed.

(** The empty best chain. *)
Lemma get_chainwork_empty_chain_witness :
  size empty_best 0%nat = 0
  /\ forkpoint (heap empty_best 0%nat) = 0
  /\ height empty_best 0%nat = -1
  /\ get_chainwork (X := regtest) empty_best 0%nat None = Err (MissingHeader 0)
  /\ get_chainwork (X := regtest) empty_best 0%nat (Some (-1)) = Ok 0.
Proof.
  split; [reflexivity|]. split; [reflexivity|].
  destruct (get_chainwork_empty_chain (X := regtest) empty_best 0%nat eq_refl)
    as (_ & Hzero & _).
  destruct (Hzero eq_refl) as (Hh & _ & Hnone & Hm1). auto.
Defined.

(** A hash asked for at a height that the empty chain does not have. *)
Lemma check_hash_total_witness :
  String.length zeros64 = 64%nat
  /\ exists b,
       check_hash (X := regtest) empty_best 0%nat 1 zeros64 = Ok b
       /\ (b = true <-> get_hash (X := regtest) empty_best 0%nat 1 = Ok zeros64).
Proof.
  split; [reflexivity|].
  apply (check_hash_total (X := regtest) empty_best 0%nat 1 zeros64).
  reflexivity.
Defined.

(** *** The further properties on the sample data *)

(** The encoders of the sample network are the inverses of the two
    readings of bytes. *)
Lemma hex_fixed_low_byte (x r : Z) :
  0 <= x < 256 -> hex_fixed 2 (x + 256 * r) = hex_fixed 2 x.
Proof.
  intros Hx. cbn [hex_fixed]. rewrite !nibble_div.
  change (16 ^ Z.of_nat 1) with 16. change (16 ^ Z.of_nat 0) with 1.
  rewrite !Z.div_1_r.
  replace (x + 256 * r) with (x + (16 * r) * 16) by ring.
  rewrite Z.div_add by lia. rewrite Z.mod_add by lia.
  replace ((x / 16 + 16 * r) mod 16) with ((x / 16) mod 16)
    by (replace (x / 16 + 16 * r) with (x / 16 + r * 16) by ring;
        rewrite Z.mod_add by lia; reflexivity).
  reflexivity.
Qed.

Lemma hex_fixed_little (b : list byte) :
  hex_fixed (2 * length b) (int_from_bytes_little b) = bh2u (rev b).
Proof.
  induction b as [|x b IH]; [reflexivity|].
  cbn [int_from_bytes_little fold_right length rev].
  fold (int_from_bytes_little b).
  replace (2 * S (length b))%nat with (2 * length b + 2)%nat by lia.
  rewrite hex_fixed_split. change (16 ^ Z.of_nat 2) with 256.
  pose proof (byte_to_Z_range x) as Hx.
  replace ((byte_to_Z x + 256 * int_from_bytes_little b) / 256)
    with (int_from_bytes_little b)
    by (rewrite Z.add_comm, Z.mul_comm, Z.div_add_l by lia;
        rewrite (Z.div_small (byte_to_Z x)) by lia; lia).
  rewrite IH, hex_fixed_low_byte by exact Hx.
  rewrite bh2u_app. cbn [bh2u]. reflexivity.
Qed.

Lemma sample_rev_hex_encode (b : list byte) :
  sample_rev_hex (hash_encode b) = Ok (bh2u b).
Proof.
  unfold sample_rev_hex, hash_encode. rewrite bfh_bh2u. cbn [bind].
  rewrite rev_involutive. reflexivity.
Qed.

Lemma sample_int_to_hex_little (b : list byte) :
  length b = 4%nat ->
  sample_int_to_hex (int_from_bytes_little b) 4 = Ok (bh2u b).
Proof.
  intros Hb. pose proof (int_from_bytes_little_range b) as Hr.
  rewrite Hb in Hr. unfold sample_int_to_hex.
  change (256 ^ Z.of_nat 4) with 4294967296 in Hr.
  change (256 ^ 4) with 4294967296.
  destruct (Z.ltb_spec (int_from_bytes_little b) (- (4294967296 / 2)));
    [change (4294967296 / 2) with 2147483648 in *; lia|].
  destruct (Z.leb_spec 4294967296 (int_from_bytes_little b)); [lia|].
  cbn [orb]. destruct (Z.ltb_spec (int_from_bytes_little b) 0); [lia|].
  change (Z.to_nat (2 * 4)) with (2 * 4)%nat. rewrite <- Hb.
  rewrite hex_fixed_little. unfold sample_rev_hex. rewrite bfh_bh2u.
  cbn [bind]. rewrite rev_involutive. reflexivity.
Qed.

(** The round trip at the bits of the maximal target, and at the same
    bits with a bit set above the 32 lowest. *)
Lemma target_to_bits_roundtrip_witness :
  (t <- bits_to_target 0x1d00ffff ;; target_to_bits t) = Ok 0x1d00ffff
  /\ (t <- bits_to_target 0x11d00ffff ;; target_to_bits t) = Ok 0x1d00ffff.
Proof.
  split.
  - apply (target_to_bits_roundtrip 0x1d00ffff);
      vm_compute; intuition discriminate.
  - apply (target_to_bits_roundtrip 0x11d00ffff);
      vm_compute; intuition discriminate.
Defined.

(** Accepted bits and bits with the exponent [0x21]. *)
Lemma bits_to_target_range_witness :
  bits_to_target 0x1d00ffff = Ok (0xffff * 2 ^ 208)
  /\ raises (bits_to_target 0x2100ffff).
Proof.
  pose proof (bits_to_target_range 0x1d00ffff) as H1. cbv zeta in H1.
  pose proof (bits_to_target_range 0x2100ffff) as H2. cbv zeta in H2.
  destruct H1 as (_ & Hok & _). destruct H2 as (_ & _ & Herr).
  split.
  - apply Hok. vm_compute. intuition discriminate.
  - apply Herr. intros [[_ Hc] _]. vm_compute in Hc. apply Hc. reflexivity.
Defined.

(** The work of the sample header at height 2. *)
Lemma chainwork_of_header_value_witness :
  exists work,
    Blockchain.chainwork_of_header (X := regtest) sample_log2_weight
      header_at_2 = Ok work
    /\ 2 <= work.
Proof.
  destruct (Blockchain.chainwork_of_header (X := regtest) sample_log2_weight
              header_at_2) as [work|e] eqn:E; [|vm_compute in E; discriminate E].
  exists work. split; [reflexivity|].
  destruct (chainwork_of_header_value (X := regtest) _ _ _ E)
    as (pd & t & w & _ & _ & _ & _ & _ & H2 & _).
  exact H2.
Defined.

(** Eighty zero bytes. *)
Lemma deserialize_pure_header_fields_witness :
  length (replicate 80 x00) = 80%nat
  /\ exists hd,
       deserialize_pure_header (X := regtest) (replicate 80 x00) (Some 1) = Ok hd
       /\ powdata hd = None /\ block_height hd = Some (Some 1).
Proof.
  split; [reflexivity|].
  destruct (deserialize_pure_header_fields (X := regtest) (replicate 80 x00)
              (Some 1)) as [_ H].
  destruct (H eq_refl)
    as (hd & v & p & m & t & b & n & Hd & _ & _ & _ & _ & _ & _ & _ & _ & _
        & _ & _ & _ & Hh & Hp & _).
  exists hd. auto.
Defined.

(** The header of eighty zero bytes serialises to these bytes. *)
Lemma serialize_deserialize_pure_header_witness :
  deserialize_pure_header (X := regtest) (replicate 80 x00) (Some 1)
  = Ok (pure_header_at_1 (X := regtest))
  /\ serialize_pure_header (X := regtest) (pure_header_at_1 (X := regtest))
     = Ok (bh2u (replicate 80 x00)).
Proof.
  split; [reflexivity|].
  apply (serialize_deserialize_pure_header (X := regtest) (replicate 80 x00)
           (Some 1)).
  - exact sample_int_to_hex_little.
  - exact sample_rev_hex_encode.
  - reflexivity.
Defined.

(** Off the testnet the sample header at height 2 is accepted with the
    target of its bits. *)
Lemma verify_header_accepts_witness :
  verify_header (X := regtest) header_at_2 zeros64 (0xffff * 2 ^ 208) None false
  = Ok tt.
Proof.
  apply (proj1 (verify_header_accepts (X := regtest) header_at_2 zeros64
                  (0xffff * 2 ^ 208) None false)).
  eexists. split; [vm_compute; reflexivity|].
  split; [left; reflexivity|]. split; [reflexivity|]. split; [reflexivity|].
  right. exists {| sp_algo := 1; sp_bits := 0x1d00ffff; sp_auxpow := None |}, 2.
  split; [reflexivity|]. split; [vm_compute; reflexivity|].
  split; [reflexivity|]. right. right. reflexivity.
Defined.

(** The data of algorithm 1 at height 1 of the best sample chain. *)
Lemma difficulty_data_for_block_height_witness :
  exists dd,
    difficulty_data_for_block (X := regtest) two_chains 0%nat 1 1 ∅
    = Ok (Some dd)
    /\ dd_height dd <= 1.
Proof.
  destruct (difficulty_data_for_block (X := regtest) two_chains 0%nat 1 1 ∅)
    as [[dd|]|e] eqn:E;
    [|vm_compute in E; discriminate E|vm_compute in E; discriminate E].
  exists dd. split; [reflexivity|].
  apply (proj2 (difficulty_data_for_block_height (X := regtest) two_chains
                  0%nat 1 1 ∅) dd E).
Defined.

(** The genesis header connects to the empty best chain. *)
Lemma registry_can_connect_tip_witness :
  Registry.can_connect (X := regtest) empty_best
    (Some (header_at_0 (X := regtest))) = Ok (Some 0%nat)
  /\ In 0%nat (map snd (blockchains empty_best)).
Proof.
  assert (E : Registry.can_connect (X := regtest) empty_best
                (Some (header_at_0 (X := regtest))) = Ok (Some 0%nat))
    by (vm_compute; reflexivity).
  split; [exact E|].
  apply (proj1 (registry_can_connect_tip (X := regtest) empty_best
                  (Some (header_at_0 (X := regtest)))) 0%nat E).
Defined.

(** The header stored at height 1 is found in the best chain. *)
Lemma registry_check_header_contains_witness :
  Registry.check_header (X := regtest) two_chains
    (Some (stored_header_1 (X := regtest))) = Ok (Some 0%nat)
  /\ In 0%nat (map snd (blockchains two_chains)).
Proof.
  assert (E : Registry.check_header (X := regtest) two_chains
                (Some (stored_header_1 (X := regtest))) = Ok (Some 0%nat))
    by (vm_compute; reflexivity).
  split; [exact E|].
  apply (registry_check_header_contains (X := regtest) two_chains _ _ E).
Defined.

(** Both sample chains contain the genesis block; the fork has more
    work and comes first. *)
Lemma get_chains_that_contain_header_sorted_witness :
  Registry.get_chains_that_contain_header (X := regtest) two_chains 0 zeros64
  = Ok [1%nat; 0%nat]
  /\ exists works,
       Forall2 (fun c w => get_chainwork (X := regtest) two_chains c None = Ok w)
         [1%nat; 0%nat] works
       /\ StronglySorted Z.ge works.
Proof.
  assert (E : Registry.get_chains_that_contain_header (X := regtest)
                two_chains 0 zeros64 = Ok [1%nat; 0%nat])
    by (vm_compute; reflexivity).
  split; [exact E|].
  apply (get_chains_that_contain_header_sorted (X := regtest) _ _ _ _ E).
Defined.

(** A record of 100 bytes ends within the chainwork. *)
Lemma deserialize_disk_header_shape_witness :
  deserialize_disk_header (X := regtest) (replicate 100 x00) 0 = Err NameError.
Proof.
  apply (proj2 (deserialize_disk_header_shape (X := regtest)
                  (replicate 100 x00) 0)
           {| sp_algo := 0; sp_bits := 0; sp_auxpow := None |} 85).
  - vm_compute. discriminate.
  - reflexivity.
  - lia.
  - vm_compute. reflexivity.
Defined.

(** The fork is the one child of the best sample chain. *)
Lemma get_max_forkpoint_children_witness :
  In 1%nat (get_direct_children two_chains 0%nat)
  /\ forkpoint (heap two_chains 1%nat)
     <= Blockchain.get_max_forkpoint two_chains 0%nat.
Proof.
  assert (Hin : In 1%nat (get_direct_children two_chains 0%nat))
    by (vm_compute; auto).
  split; [exact Hin|].
  apply (proj2 (proj2 (get_max_forkpoint_children two_chains 0%nat)) _ Hin).
Defined.

(** A third record on the best sample chain. *)
Lemma write_appends_header_witness :
  exists st',
    write (X := regtest) two_chains 0%nat (rec x05 3) (2 * DISK_HEADER_SIZE) true
    = Ok st'
    /\ size st' 0%nat = 3.
Proof.
  destruct (write_appends_header (X := regtest) two_chains 0%nat main_path
              (rec x01 1 ++ rec x02 2)%list (rec x05 3))
    as (st' & Hw & Hs & _).
  - reflexivity.
  - vm_compute. reflexivity.
  - reflexivity.
  - reflexivity.
  - vm_compute. discriminate.
  - exists st'. split; [exact Hw | exact Hs].
Defined.

(** The sample fork swaps once, and its forkpoint goes down. *)
Lemma swap_with_parent_settles_witness :
  exists st',
    swap_with_parent (X := regtest) two_chains 1%nat = Ok st'
    /\ forkpoint (heap st' 1%nat) < forkpoint (heap two_chains 1%nat).
Proof.
  destruct (swap_with_parent (X := regtest) two_chains 1%nat) as [st'|e] eqn:E;
    [|vm_compute in E; discriminate E].
  exists st'. split; [reflexivity|].
  destruct (swap_with_parent_settles (X := regtest) _ _ _ E)
    as (_ & _ & [Heq | Hlt]); [|exact Hlt].
  exfalso. rewrite Heq in E.
  apply (f_equal (fun r => match r with
                           | Ok s => parent (heap s 1%nat)
                           | Err _ => None
                           end)) in E.
  vm_compute in E. discriminate E.
Defined.

(** After the swap of the sample fork the registry holds the former
    best chain under its new id. *)
Lemma swap_registers_chains_witness :
  exists st',
    _swap_with_parent (X := regtest) two_chains 1%nat = Ok (true, st')
    /\ dict_get (get_id st' 0%nat) (blockchains st') = Some 0%nat.
Proof.
  destruct (_swap_with_parent (X := regtest) two_chains 1%nat)
    as [[[] st']|e] eqn:E;
    [|vm_compute in E; discriminate E|vm_compute in E; discriminate E].
  exists st'. split; [reflexivity|].
  destruct (swap_registers_chains (X := regtest) _ _ _ E)
    as (p & Hp & _ & Hreg & _).
  vm_compute in Hp. injection Hp as <-. exact Hreg.
Defined.

(** The sample header at height 2 is saved on the best sample chain. *)
Lemma save_header_appends_witness :
  exists st',
    Blockchain.save_header (X := regtest) sample_log2_weight
      sample_serialize_base two_chains 0%nat header_at_2 = Ok st'
    /\ block_height header_at_2 = Some (Some (height two_chains 0%nat + 1)).
Proof.
  destruct (Blockchain.save_header (X := regtest) sample_log2_weight
              sample_serialize_base two_chains 0%nat header_at_2)
    as [st'|e] eqn:E; [|vm_compute in E; discriminate E].
  exists st'. split; [reflexivity|].
  destruct (save_header_appends (X := regtest) _ _ _ _ _ _ E)
    as (pw & w & s & data & st1 & Hh & _).
  exact Hh.
Defined.

(** Without checkpoints the missing file of the best chain is created
    empty. *)
Lemma init_headers_file_preallocates_witness :
  exists st' content,
    Registry.init_headers_file_for_best_chain (X := regtest) no_file = Ok st'
    /\ files st' !! main_path = Some content
    /\ size st' 0%nat = Z.of_nat (length content) / DISK_HEADER_SIZE.
Proof.
  destruct (Registry.init_headers_file_for_best_chain (X := regtest) no_file)
    as [st'|e] eqn:E; [|vm_compute in E; discriminate E].
  destruct (init_headers_file_preallocates (X := regtest) no_file st' 0%nat
              main_path eq_refl eq_refl E)
    as (content & Hf & _ & Hs & _).
  exists st', content. auto.
Defined.

(** After the swap of the sample fork it reads the genesis header as
    the best chain did, and both chains keep their heights. *)
Lemma swap_keeps_headers_witness :
  exists st',
    _swap_with_parent (X := regtest) two_chains 1%nat = Ok (true, st')
    /\ read_header (X := regtest) st' 1%nat 0
       = read_header (X := regtest) two_chains 0%nat 0
    /\ height st' 1%nat = height two_chains 1%nat
    /\ height st' 0%nat = height two_chains 0%nat.
Proof.
  destruct (_swap_with_parent (X := regtest) two_chains 1%nat)
    as [[[] st']|e] eqn:E;
    [|vm_compute in E; discriminate E|vm_compute in E; discriminate E].
  exists st'. split; [reflexivity|].
  pose proof (f_equal (fun r => match r with
                                | Ok (_, s) => path (X := regtest) s 0%nat
                                | Err e => Err e
                                end) E) as Hpath.
  cbv beta iota in Hpath. symmetry in Hpath.
  match type of Hpath with
  | _ = ?r => let v := eval vm_compute in r in change r with v in Hpath
  end.
  match type of Hpath with
  | _ = Ok ?n3 =>
      destruct (swap_keeps_headers (X := regtest) two_chains st' 1%nat 0%nat
                  fork_path main_path n3
                  (rec x03 5 ++ rec x04 9)%list (rec x01 1 ++ rec x02 2)%list
                  E) as (Hlow & _ & _ & Hh1 & Hh0)
  end.
  - reflexivity.
  - vm_compute. reflexivity.
  - vm_compute. reflexivity.
  - exact Hpath.
  - vm_compute. discriminate.
  - vm_compute. discriminate.
  - vm_compute. reflexivity.
  - vm_compute. reflexivity.
  - vm_compute. reflexivity.
  - vm_compute. reflexivity.
  - vm_compute. discriminate.
  - vm_compute. discriminate.
  - split; [apply Hlow; vm_compute; split; [discriminate | reflexivity]|].
    split; [exact Hh1 | exact Hh0].
Defined.

End Instances.
